(** * EPUB to PDF converter: conversion pipeline and job worker

    A shallow embedding of [converter.py] (class [EPUBConverter], function
    [convert_epub_to_pdf]) and of the queue handling of [app.py]
    ([ConversionWorker.run], [_add_files_to_queue], [_remove_item],
    [_update_item]), followed by the properties proved about them.

    Conventions.
    - A Python [str] is a [string]: the sequence of bytes of its UTF-8
      encoding.  The path functions only look at the ASCII characters
      [/] and [.], so they act on the encoding as they act on the code
      points; [unquote] decodes the bytes it makes as Python does, with
      U+FFFD for what is no UTF-8.
    - A Python [dict] is a [gmap]; a [queue.Queue] is the list of the
      entries put into it, oldest first.
    - A Python [float] is the rational number it denotes; every operation
      rounds its exact result to the nearest binary64 number ([Float]).
    - Code that reports progress and may raise runs in the monad [M]:
      it threads the state the progress callback writes to and returns
      either an exception or a value. *)

From Stdlib Require Import ZArith QArith Qround Qpower String Ascii List Bool Lia Lqa.
From stdpp Require Import base option list gmap strings pretty.
Import ListNotations.

#[local] Open Scope string_scope.
#[local] Open Scope Z_scope.

(** ** Python string and path functions *)

Module PyStr.

Definition is_char (c d : ascii) : bool := Ascii.eqb c d.

Definition slash : ascii := "/"%char.
Definition dot : ascii := "."%char.
Definition percent : ascii := "%"%char.

(** [s.split(sep)] for a separator of one character: never empty. *)
Fixpoint split (sep : ascii) (s : string) : list string :=
  match s with
  | EmptyString => [EmptyString]
  | String c r =>
      if is_char c sep then EmptyString :: split sep r
      else match split sep r with
           | [] => [String c EmptyString]
           | w :: ws => String c w :: ws
           end
  end.

(** [sep.join(l)] *)
Fixpoint join_with (sep : string) (l : list string) : string :=
  match l with
  | [] => EmptyString
  | [w] => w
  | w :: ws => w ++ sep ++ join_with sep ws
  end.

Definition mem_char (c : ascii) (chars : list ascii) : bool :=
  existsb (is_char c) chars.

(** [s.lstrip(chars)]: drop the leading characters that occur in [chars]. *)
Fixpoint lstrip (chars : list ascii) (s : string) : string :=
  match s with
  | EmptyString => EmptyString
  | String c r => if mem_char c chars then lstrip chars r else s
  end.

(** [s.rstrip(chars)] *)
Fixpoint rstrip (chars : list ascii) (s : string) : string :=
  match s with
  | EmptyString => EmptyString
  | String c r =>
      match rstrip chars r with
      | EmptyString => if mem_char c chars then EmptyString else String c EmptyString
      | r' => String c r'
      end
  end.

Fixpoint all_chars (c : ascii) (s : string) : bool :=
  match s with
  | EmptyString => true
  | String d r => is_char d c && all_chars c r
  end.

Definition startswith (c : ascii) (s : string) : bool :=
  match s with
  | String d _ => is_char d c
  | EmptyString => false
  end.

Fixpoint endswith (c : ascii) (s : string) : bool :=
  match s with
  | EmptyString => false
  | String d EmptyString => is_char d c
  | String _ r => endswith c r
  end.

Definition is_empty (s : string) : bool :=
  match s with EmptyString => true | _ => false end.

(** [posixpath.basename]: what follows the last slash. *)
Definition basename (p : string) : string :=
  List.last (split slash p) EmptyString.

(** [posixpath.dirname]: [head = p[:rfind('/')+1]], without its trailing
    slashes unless it consists of slashes only. *)
Definition dirname (p : string) : string :=
  let head :=
    String.concat EmptyString
      (List.map (fun w => w ++ String slash EmptyString)
                (List.removelast (split slash p))) in
  if negb (is_empty head) && negb (all_chars slash head)
  then rstrip [slash] head else head.

(** [posixpath.join(a, b)] *)
Definition join (a b : string) : string :=
  if startswith slash b then b
  else if is_empty a || endswith slash a then a ++ b
  else a ++ String slash b.

(** One step of the component loop of [posixpath.normpath]; [acc] is
    [new_comps], most recent first. *)
Definition normpath_step (initial_slashes : nat) (acc : list string)
    (comp : string) : list string :=
  if is_empty comp || String.eqb comp "." then acc
  else if negb (String.eqb comp "..")
          || (Nat.eqb initial_slashes 0 && match acc with [] => true | _ => false end)
          || match acc with top :: _ => String.eqb top ".." | [] => false end
       then comp :: acc
       else match acc with
            | _ :: rest => rest
            | [] => acc
            end.

Fixpoint repeat_char (c : ascii) (n : nat) : string :=
  match n with
  | O => EmptyString
  | S k => String c (repeat_char c k)
  end.

(** [posixpath.normpath] *)
Definition normpath (path : string) : string :=
  if is_empty path then "."
  else
    let initial_slashes :=
      match path with
      | String "/" (String "/" (String "/" _)) => 1%nat
      | String "/" (String "/" _) => 2%nat
      | String "/" _ => 1%nat
      | _ => 0%nat
      end in
    let comps :=
      List.rev (List.fold_left (normpath_step initial_slashes)
                               (split slash path) []) in
    let p := repeat_char slash initial_slashes
             ++ join_with (String slash EmptyString) comps in
    if is_empty p then "." else p.

Definition hex_digit (c : ascii) : option N :=
  let n := N_of_ascii c in
  if (48 <=? n)%N && (n <=? 57)%N then Some (n - 48)%N
  else if (65 <=? n)%N && (n <=? 70)%N then Some (n - 55)%N
  else if (97 <=? n)%N && (n <=? 102)%N then Some (n - 87)%N
  else None.

(** [urllib.parse.unquote_to_bytes] on ASCII text: every [%XY] with two
    hexadecimal digits becomes the byte it names; any other [%] stays. *)
Fixpoint unquote_to_bytes (s : string) : string :=
  match s with
  | EmptyString => EmptyString
  | String c r =>
      if is_char c percent then
        match r with
        | String a (String b r') =>
            match hex_digit a, hex_digit b with
            | Some x, Some y => String (ascii_of_N (16 * x + y)) (unquote_to_bytes r')
            | _, _ => String c (unquote_to_bytes r)
            end
        | _ => String c (unquote_to_bytes r)
        end
      else String c (unquote_to_bytes r)
  end.

(** A byte [10xxxxxx]. *)
Definition is_continuation (b : N) : bool := (128 <=? b)%N && (b <? 192)%N.

(** The encoding of U+FFFD, the replacement character. *)
Definition replacement : list N := [239; 191; 189]%N.

(** [data.decode('utf-8', errors='replace')], as the encoding of the
    [str] it gives.  A well-formed sequence is kept.  Of an ill-formed
    one the decoder replaces by one U+FFFD the longest beginning that
    starts a well-formed sequence, or one byte when there is none, and
    goes on after it: a byte that starts no sequence ([80]-[C1],
    [F5]-[FF]), a lead byte whose next byte is no continuation or gives
    an overlong form, a surrogate or a code point beyond U+10FFFF
    ([E0 80]-[E0 9F], [ED A0]-[ED BF], [F0 80]-[F0 8F], [F4 90]-[F4 BF]),
    a sequence cut by a byte that is no continuation, a sequence cut by
    the end of the data. *)
Fixpoint utf8_replace (data : list N) : list N :=
  match data with
  | [] => []
  | ch :: t1 =>
      if (ch <? 128)%N then ch :: utf8_replace t1
      else if (ch <? 194)%N then replacement ++ utf8_replace t1
      else if (ch <? 224)%N then
        match t1 with
        | [] => replacement
        | ch2 :: t2 =>
            if is_continuation ch2 then ch :: ch2 :: utf8_replace t2
            else replacement ++ utf8_replace t1
        end
      else if (ch <? 240)%N then
        match t1 with
        | [] => replacement
        | ch2 :: t2 =>
            if negb (is_continuation ch2)
               || (if (ch2 <? 160)%N then (ch =? 224)%N else (ch =? 237)%N)
            then replacement ++ utf8_replace t1
            else match t2 with
                 | [] => replacement
                 | ch3 :: t3 =>
                     if is_continuation ch3 then ch :: ch2 :: ch3 :: utf8_replace t3
                     else replacement ++ utf8_replace t2
                 end
        end
      else if (ch <? 245)%N then
        match t1 with
        | [] => replacement
        | ch2 :: t2 =>
            if negb (is_continuation ch2)
               || (if (ch2 <? 144)%N then (ch =? 240)%N else (ch =? 244)%N)
            then replacement ++ utf8_replace t1
            else match t2 with
                 | [] => replacement
                 | ch3 :: t3 =>
                     if negb (is_continuation ch3) then replacement ++ utf8_replace t2
                     else match t3 with
                          | [] => replacement
                          | ch4 :: t4 =>
                              if is_continuation ch4
                              then ch :: ch2 :: ch3 :: ch4 :: utf8_replace t4
                              else replacement ++ utf8_replace t3
                          end
                 end
        end
      else replacement ++ utf8_replace t1
  end.

Definition codes_of (s : string) : list N :=
  List.map N_of_ascii (list_ascii_of_string s).

Definition string_of_codes (l : list N) : string :=
  string_of_list_ascii (List.map ascii_of_N l).

(** [unquote_to_bytes(run).decode('utf-8', 'replace')] for a run of
    ASCII characters. *)
Definition unquote_run (run : string) : string :=
  string_of_codes (utf8_replace (codes_of (unquote_to_bytes run))).

(** A byte of the encoding of an ASCII character. *)
Definition is_ascii (c : ascii) : bool := (N_of_ascii c <? 128)%N.

(** The parts that [unquote] joins: every longest run of ASCII
    characters goes through [unquote_run], what lies between the runs is
    kept.  [run] is the run read so far. *)
Fixpoint unquote_parts (run s : string) : string :=
  match s with
  | EmptyString => unquote_run run
  | String c r =>
      if is_ascii c then unquote_parts (run ++ String c EmptyString) r
      else unquote_run run ++ String c (unquote_parts EmptyString r)
  end.

Fixpoint has_char (c : ascii) (s : string) : bool :=
  match s with
  | EmptyString => false
  | String d r => is_char d c || has_char c r
  end.

(** [urllib.parse.unquote(s)], with its defaults [encoding='utf-8'] and
    [errors='replace']. *)
Definition unquote (s : string) : string :=
  if negb (has_char percent s) then s else unquote_parts EmptyString s.

Definition lower_char (c : ascii) : ascii :=
  let n := N_of_ascii c in
  if (65 <=? n)%N && (n <=? 90)%N then ascii_of_N (n + 32) else c.

(** [s.lower()] on the ASCII letters. *)
Fixpoint lower (s : string) : string :=
  match s with
  | EmptyString => EmptyString
  | String c r => String (lower_char c) (lower r)
  end.

(** Position of the last dot of [s], if any: [s.rfind('.')]. *)
Fixpoint rfind_dot (s : string) : option nat :=
  match s with
  | EmptyString => None
  | String c r =>
      match rfind_dot r with
      | Some i => Some (S i)
      | None => if is_char c dot then Some O else None
      end
  end.

Definition substring_to (i : nat) (s : string) : string := String.substring 0 i s.
Definition substring_from (i : nat) (s : string) : string :=
  String.substring i (String.length s - i) s.

(** [pathlib.PurePosixPath(p).name]: the last component of the parsed
    path, empty when the path has none.  Parsing drops empty and [.]
    components. *)
Definition path_parts (p : string) : list string :=
  List.filter (fun w => negb (is_empty w) && negb (String.eqb w "."))
              (split slash p).

Definition path_name (p : string) : string :=
  List.last (path_parts p) EmptyString.

(** [PurePath.suffix]: [name[i:]] when [0 < i < len(name) - 1] for
    [i = name.rfind('.')], else empty. *)
Definition name_suffix (name : string) : string :=
  match rfind_dot name with
  | Some i =>
      if (0 <? i)%nat && (i <? String.length name - 1)%nat
      then substring_from i name else EmptyString
  | None => EmptyString
  end.

(** [PurePath.stem] *)
Definition name_stem (name : string) : string :=
  match rfind_dot name with
  | Some i =>
      if (0 <? i)%nat && (i <? String.length name - 1)%nat
      then substring_to i name else name
  | None => name
  end.

Definition path_suffix (p : string) : string := name_suffix (path_name p).
Definition path_stem (p : string) : string := name_stem (path_name p).

End PyStr.

(** ** Binary64 arithmetic

    A finite [float] is a rational.  [round] sends a rational to the
    nearest binary64 number, ties to even, with gradual underflow; the
    overflow to infinity of numbers beyond the largest binary64 number is
    not modelled (the program stays far below it). *)

Module Float.

Definition pow2 (k : Z) : Q := Qpower 2 k.

(** Nearest integer, ties to even. *)
Definition rne (q : Q) : Z :=
  let f := Qfloor q in
  match Qcompare (q - inject_Z f) (1 # 2) with
  | Lt => f
  | Gt => f + 1
  | Eq => if Z.even f then f else f + 1
  end.

(** Exponent of the unit in the last place of a positive [x]:
    [floor (log2 x) - 52], and [-1074] in the subnormal range. *)
Definition exponent (x : Q) : Z :=
  Z.max (Z.log2 (Qfloor (x * pow2 1074)) - 1126) (-1074).

Definition round_pos (x : Q) : Q :=
  let e := exponent x in
  inject_Z (rne (x / pow2 e)) * pow2 e.

(** The nearest binary64 number, before it is put in lowest terms. *)
Definition round_raw (x : Q) : Q :=
  match Qcompare x 0 with
  | Eq => 0
  | Gt => round_pos x
  | Lt => - round_pos (- x)
  end.

Definition round (x : Q) : Q := Qred (round_raw x).

(** Half a unit in the last place of a number in [1, 2). *)
Definition ulp53 : Q := pow2 (-53).

(** A decimal literal denotes the nearest binary64 number. *)
Definition lit (q : Q) : Q := round q.

Definition of_int (n : Z) : Q := round (inject_Z n).

Definition add (x y : Q) : Q := round (x + y).
Definition mul (x y : Q) : Q := round (x * y).

(** [int(x)]: truncation toward zero. *)
Definition to_int (x : Q) : Z :=
  if Qle_bool 0 x then Qfloor x else Qceiling x.

End Float.

(** ** Exceptions and the monad of the pipeline *)

Module Py.

(** The exceptions the modelled code can meet: the one Python raises on
    a division by zero, and those raised by a library the code calls,
    given by the name of their class and by their [str]. *)
Inductive exn : Type :=
| ZeroDivisionError
| Raised (cls : string) (msg : string).

(** [str(e)] *)
Definition str (e : exn) : string :=
  match e with
  | ZeroDivisionError => "division by zero"
  | Raised _ msg => msg
  end.

(** What an f-string writes for a value that is a [str] or [None]. *)
Definition format (value : option string) : string :=
  match value with
  | Some text => text
  | None => "None"
  end.

(** The outcome of a call that may raise. *)
Definition result (A : Type) : Type := (exn + A)%type.

(** A computation over a state [S] that either raises or returns; the
    state survives an exception, as the effects of Python code do. *)
Definition M (S A : Type) : Type := S -> S * result A.

Definition ret {S A} (a : A) : M S A := fun s => (s, inr a).

Definition bind {S A B} (c : M S A) (k : A -> M S B) : M S B :=
  fun s =>
    match c s with
    | (s', inl e) => (s', inl e)
    | (s', inr a) => k a s'
    end.

Definition raise {S A} (e : exn) : M S A := fun s => (s, inl e).

(** A call into a library: no effect on the state. *)
Definition call {S A} (r : result A) : M S A := fun s => (s, r).

(** An effect that cannot raise. *)
Definition effect {S} (f : S -> S) : M S unit := fun s => (f s, inr tt).

(** [try: c except Exception as e: h e] *)
Definition try_except {S A} (c : M S A) (h : exn -> M S A) : M S A :=
  fun s =>
    match c s with
    | (s', inl e) => h e s'
    | (s', inr a) => (s', inr a)
    end.

(** [for x in l: body x], stopping at the first exception. *)
Fixpoint for_each {S A} (l : list A) (body : A -> M S unit) : M S unit :=
  match l with
  | [] => ret tt
  | x :: r => bind (body x) (fun _ => for_each r body)
  end.

(** [a / b] on integers: true division. *)
Definition truediv (a b : Z) : result Q :=
  if b =? 0 then inl ZeroDivisionError
  else inr (Float.round (inject_Z a / inject_Z b)).

End Py.

Declare Scope py_scope.
Delimit Scope py_scope with py.
Notation "x <- c ;; k" := (Py.bind c (fun x => k))
  (at level 100, c at next level, k at level 200, right associativity) : py_scope.
Notation "c ;; k" := (Py.bind c (fun _ => k))
  (at level 100, k at level 200, right associativity) : py_scope.

#[local] Open Scope py_scope.

Definition bytes : Type := list Byte.byte.

(** The double quote, for the markup the pipeline writes. *)
Definition dq : string := String (ascii_of_nat 34) EmptyString.

(** ** The book model of [ebooklib] *)

Module Ebooklib.

Inductive item_type : Type :=
| ITEM_UNKNOWN | ITEM_IMAGE | ITEM_STYLE | ITEM_SCRIPT | ITEM_NAVIGATION
| ITEM_VECTOR | ITEM_FONT | ITEM_VIDEO | ITEM_AUDIO | ITEM_DOCUMENT
| ITEM_COVER | ITEM_SMIL.

Definition item_type_eqb (a b : item_type) : bool :=
  match a, b with
  | ITEM_UNKNOWN, ITEM_UNKNOWN | ITEM_IMAGE, ITEM_IMAGE
  | ITEM_STYLE, ITEM_STYLE | ITEM_SCRIPT, ITEM_SCRIPT
  | ITEM_NAVIGATION, ITEM_NAVIGATION | ITEM_VECTOR, ITEM_VECTOR
  | ITEM_FONT, ITEM_FONT | ITEM_VIDEO, ITEM_VIDEO
  | ITEM_AUDIO, ITEM_AUDIO | ITEM_DOCUMENT, ITEM_DOCUMENT
  | ITEM_COVER, ITEM_COVER | ITEM_SMIL, ITEM_SMIL => true
  | _, _ => false
  end.

Record EpubItem : Type := {
  id : string;
  get_name : string;
  get_type : item_type;
  get_content : bytes
}.

(** [get_metadata namespace name] is the list of the values recorded
    under that name, each with its attributes.  A value is the text of
    its element: [None] for an element without text. *)
Record EpubBook : Type := {
  get_items : list EpubItem;
  spine : list (string * string);
  get_metadata : string -> string -> list (option string * list (string * string))
}.

(** [book.get_item_with_id(uid)]: the first item with that id. *)
Definition get_item_with_id (book : EpubBook) (uid : string) : option EpubItem :=
  List.find (fun item => String.eqb (id item) uid) (get_items book).

End Ebooklib.

(** ** Images as [PIL] sees them *)

Module PIL.

(** An opened image: its size, its mode ([RGB], [RGBA], [P], ...) and
    its raster. *)
Record Image : Type := {
  width : Z;
  height : Z;
  mode : string;
  raster : bytes
}.

Definition size (img : Image) : Z * Z := (width img, height img).

End PIL.

(** ** The parse tree of [BeautifulSoup] *)

Module Bs4.

#[warnings="-register-all"]
Inductive node : Type :=
| NavigableString (text : string)
| Tag (name : string) (attrs : list (string * string)) (contents : list node).

Definition is_tag (nm : string) (n : node) : bool :=
  match n with
  | Tag name _ _ => String.eqb name nm
  | NavigableString _ => false
  end.

(** The tags named [nm] in [n], itself included, in document order. *)
Fixpoint find_all_in (nm : string) (n : node) : list node :=
  match n with
  | NavigableString _ => []
  | Tag name _ contents =>
      (if String.eqb name nm then [n] else [])
        ++ List.flat_map (find_all_in nm) contents
  end.

(** [soup.find_all(nm)] *)
Definition find_all (nm : string) (soup : list node) : list node :=
  List.flat_map (find_all_in nm) soup.

(** [soup.find(nm)] *)
Definition find (nm : string) (soup : list node) : option node :=
  List.head (find_all nm soup).

(** [tag.get(key, default)] *)
Fixpoint get (attrs : list (string * string)) (key default : string) : string :=
  match attrs with
  | [] => default
  | (k, v) :: r => if String.eqb k key then v else get r key default
  end.

(** [tag[key] = value] *)
Fixpoint set (attrs : list (string * string)) (key value : string)
    : list (string * string) :=
  match attrs with
  | [] => [(key, value)]
  | (k, v) :: r =>
      if String.eqb k key then (k, value) :: r else (k, v) :: set r key value
  end.

(** [for t in soup.find_all(nm): t.attrs = f t.attrs]: the loop visits
    every tag named [nm] once and leaves the shape of the tree alone. *)
Fixpoint update_in (nm : string)
    (f : list (string * string) -> list (string * string)) (n : node) : node :=
  match n with
  | NavigableString _ => n
  | Tag name attrs contents =>
      Tag name (if String.eqb name nm then f attrs else attrs)
          (List.map (update_in nm f) contents)
  end.

Definition update_all (nm : string)
    (f : list (string * string) -> list (string * string))
    (soup : list node) : list node :=
  List.map (update_in nm f) soup.

(** [for t in soup.find_all(nm): t.decompose()]: every tag named [nm]
    leaves the tree with all it contains. *)
Fixpoint decompose_in (nm : string) (n : node) : list node :=
  match n with
  | NavigableString _ => [n]
  | Tag name attrs contents =>
      if String.eqb name nm then []
      else [Tag name attrs (List.flat_map (decompose_in nm) contents)]
  end.

Definition decompose_all (nm : string) (soup : list node) : list node :=
  List.flat_map (decompose_in nm) soup.

End Bs4.

(** ** The libraries the pipeline calls

    What the pipeline gets from [ebooklib], [PIL], [base64], [bs4] and
    [weasyprint], and what [app.py] gets from [os] and [uuid]: their
    results are inputs of the model. *)

Class Collaborators : Type := {
  (** [epub.read_epub(path)] *)
  read_epub : string -> Py.result Ebooklib.EpubBook;
  (** [Image.open(io.BytesIO(data))] *)
  Image_open : bytes -> Py.result PIL.Image;
  (** raster of [img.resize(size, Image.LANCZOS)] *)
  resample : PIL.Image -> Z * Z -> bytes;
  (** raster of [Image.new('RGB', size, (255, 255, 255))] *)
  white : Z * Z -> bytes;
  (** raster of [img.convert('RGBA')] *)
  to_rgba : PIL.Image -> bytes;
  (** raster of the background after [background.paste(img, mask=...)];
      the flag tells whether the alpha band of [img] is the mask *)
  paste : PIL.Image -> PIL.Image -> bool -> bytes;
  (** [img.save(buffer, format='JPEG', quality=85); buffer.getvalue()] *)
  save_jpeg : PIL.Image -> Py.result bytes;
  (** [base64.b64encode(data).decode('utf-8')] *)
  b64encode : bytes -> string;
  (** [data.decode('utf-8', errors='ignore')] *)
  decode_utf8 : bytes -> string;
  (** [BeautifulSoup(markup, 'lxml')] *)
  BeautifulSoup : string -> Py.result (list Bs4.node);
  (** [str(soup)] *)
  soup_str : list Bs4.node -> string;
  (** [tag.decode_contents()] *)
  decode_contents : Bs4.node -> string;
  (** [HTML(string=markup)] *)
  HTML : string -> Py.result string;
  (** [CSS(string=sheet)] *)
  CSS : string -> Py.result string;
  (** [html_doc.write_pdf(output_path, stylesheets=sheets)] *)
  write_pdf : string -> string -> list string -> Py.result unit;
  (** [os.path.exists(path)] *)
  path_exists : string -> bool;
  (** [str(uuid.uuid4())] at the n-th call *)
  uuid4 : nat -> string
}.

(** ** The conversion pipeline ([converter.py]) *)

Module Converter.
Section Pipeline.

Context `{Collaborators}.

(** The state the progress callback writes to. *)
Context {St : Type}.

(** [class EPUBConverter]: its only field.  The callback is code of the
    caller: it writes to the state and returns, or raises. *)
Record EPUBConverter : Type := {
  progress_callback : option (Q -> string -> Py.M St unit)
}.

Definition _report_progress (self : EPUBConverter) (progress : Q)
    (message : string) : Py.M St unit :=
  match progress_callback self with
  | Some callback => callback progress message
  | None => Py.ret tt
  end.

(** [mime_types.get(img_ext, 'image/png')] *)
Definition mime_types_get (img_ext : string) : string :=
  if String.eqb img_ext ".jpg" then "image/jpeg"
  else if String.eqb img_ext ".jpeg" then "image/jpeg"
  else if String.eqb img_ext ".png" then "image/png"
  else if String.eqb img_ext ".gif" then "image/gif"
  else if String.eqb img_ext ".svg" then "image/svg+xml"
  else if String.eqb img_ext ".webp" then "image/webp"
  else "image/png".

(** [img_ext in ['.jpg', '.jpeg', '.png', '.webp']] *)
Definition optimizable (img_ext : string) : bool :=
  existsb (String.eqb img_ext) [".jpg"; ".jpeg"; ".png"; ".webp"].

(** [img.resize(size, Image.LANCZOS)]: refuses an empty size. *)
Definition Image_resize (img : PIL.Image) (size : Z * Z) : Py.result PIL.Image :=
  if (fst size <? 1) || (snd size <? 1)
  then inl (Py.Raised "ValueError" "height and width must be > 0")
  else inr {| PIL.width := fst size; PIL.height := snd size;
              PIL.mode := PIL.mode img; PIL.raster := resample img size |}.

(** "Resize if too large (max 1200px width for PDF)" *)
Definition resize_if_large (img : PIL.Image) : Py.result PIL.Image :=
  if 1200 <? PIL.width img then
    match Py.truediv 1200 (PIL.width img) with
    | inl e => inl e
    | inr ratio =>
        let new_size :=
          (1200, Float.to_int (Float.mul (Float.of_int (PIL.height img)) ratio)) in
        Image_resize img new_size
    end
  else inr img.

(** "Convert to RGB if necessary" *)
Definition flatten (img : PIL.Image) : PIL.Image :=
  if String.eqb (PIL.mode img) "RGBA" || String.eqb (PIL.mode img) "P" then
    let background :=
      {| PIL.width := PIL.width img; PIL.height := PIL.height img;
         PIL.mode := "RGB"; PIL.raster := white (PIL.size img) |} in
    let img' :=
      if String.eqb (PIL.mode img) "P"
      then {| PIL.width := PIL.width img; PIL.height := PIL.height img;
              PIL.mode := "RGBA"; PIL.raster := to_rgba img |}
      else img in
    {| PIL.width := PIL.width background; PIL.height := PIL.height background;
       PIL.mode := PIL.mode background;
       PIL.raster := paste background img' (String.eqb (PIL.mode img') "RGBA") |}
  else img.

(** The image that the [try] block of [_extract_images] saves. *)
Definition optimized_image (img_data : bytes) : Py.result PIL.Image :=
  match Image_open img_data with
  | inl e => inl e
  | inr img =>
      match resize_if_large img with
      | inl e => inl e
      | inr img' => inr (flatten img')
      end
  end.

(** The [try] block of [_extract_images]: the new [img_data] and
    [mime_type], or the exception that leaves them as they are. *)
Definition optimize (img_data : bytes) : Py.result (bytes * string) :=
  match optimized_image img_data with
  | inl e => inl e
  | inr img =>
      match save_jpeg img with
      | inl e => inl e
      | inr data => inr (data, "image/jpeg")
      end
  end.

(** The [data_uri] of one image item. *)
Definition data_uri_of (item : Ebooklib.EpubItem) : string :=
  let img_name := Ebooklib.get_name item in
  let img_data := Ebooklib.get_content item in
  let img_ext := PyStr.lower (PyStr.path_suffix img_name) in
  let mime_type := mime_types_get img_ext in
  let '(img_data, mime_type) :=
    if optimizable img_ext then
      match optimize img_data with
      | inr r => r
      | inl _ => (img_data, mime_type)
      end
    else (img_data, mime_type) in
  let b64_data := b64encode img_data in
  "data:" ++ mime_type ++ ";base64," ++ b64_data.

(** The four assignments "Store with various path formats for matching". *)
Definition store (images : gmap string string) (img_name data_uri : string)
    : gmap string string :=
  let images := <[img_name := data_uri]> images in
  let images := <[PyStr.basename img_name := data_uri]> images in
  let images := <[PyStr.unquote img_name := data_uri]> images in
  <[PyStr.unquote (PyStr.basename img_name) := data_uri]> images.

Definition extract_step (images : gmap string string) (item : Ebooklib.EpubItem)
    : gmap string string :=
  if Ebooklib.item_type_eqb (Ebooklib.get_type item) Ebooklib.ITEM_IMAGE
  then store images (Ebooklib.get_name item) (data_uri_of item)
  else images.

Definition _extract_images (book : Ebooklib.EpubBook) : gmap string string :=
  List.fold_left extract_step (Ebooklib.get_items book) ∅.

(** [src_variants], in the order the loop tries them. *)
Definition src_variants (src base_path : string) : list string :=
  [ src;
    PyStr.unquote src;
    PyStr.basename src;
    PyStr.basename (PyStr.unquote src) ]
  ++ (if PyStr.is_empty base_path then []
      else [ PyStr.normpath (PyStr.join (PyStr.dirname base_path) src);
             PyStr.normpath (PyStr.join (PyStr.dirname base_path) (PyStr.unquote src)) ]).

(** [for variant in src_variants]: the value of the first variant that,
    after [lstrip('./')], is a key of [images]. *)
Fixpoint first_match (images : gmap string string) (variants : list string)
    : option string :=
  match variants with
  | [] => None
  | variant :: rest =>
      let variant := PyStr.lstrip [PyStr.dot; PyStr.slash] variant in
      match images !! variant with
      | Some uri => Some uri
      | None => first_match images rest
      end
  end.

(** The body of the loop over [soup.find_all('img')]. *)
Definition fix_img (images : gmap string string) (base_path : string)
    (attrs : list (string * string)) : list (string * string) :=
  let src := Bs4.get attrs "src" EmptyString in
  if PyStr.is_empty src then attrs
  else match first_match images (src_variants src base_path) with
       | Some uri => Bs4.set attrs "src" uri
       | None => attrs
       end.

(** What [_process_html_content] does to the parse tree. *)
Definition process_soup (images : gmap string string) (base_path : string)
    (soup : list Bs4.node) : list Bs4.node :=
  Bs4.decompose_all "script" (Bs4.update_all "img" (fix_img images base_path) soup).

Definition _process_html_content (html_content : string)
    (images : gmap string string) (base_path : string) : Py.result string :=
  match BeautifulSoup html_content with
  | inl e => inl e
  | inr soup => inr (soup_str (process_soup images base_path soup))
  end.

Definition _get_base_css : string := "
        @page {
            size: A4;
            margin: 2cm 2.5cm;
            @top-center {
                content: none;
            }
            @bottom-center {
                content: counter(page);
                font-family: 'Georgia', serif;
                font-size: 10pt;
                color: #666;
            }
        }
        
        body {
            font-family: 'Georgia', 'Times New Roman', serif;
            font-size: 11pt;
            line-height: 1.6;
            color: #1a1a1a;
            text-align: justify;
            hyphens: auto;
        }
        
        h1, h2, h3, h4, h5, h6 {
            font-family: 'Helvetica Neue', 'Arial', sans-serif;
            color: #222;
            page-break-after: avoid;
            margin-top: 1.5em;
            margin-bottom: 0.5em;
        }
        
        h1 {
            font-size: 24pt;
            text-align: center;
            margin-top: 2em;
            page-break-before: always;
        }
        
        h1:first-of-type {
            page-break-before: avoid;
        }
        
        h2 {
            font-size: 18pt;
            border-bottom: 1px solid #ddd;
            padding-bottom: 0.3em;
        }
        
        h3 {
            font-size: 14pt;
        }
        
        p {
            margin: 0.8em 0;
            orphans: 3;
            widows: 3;
        }
        
        img {
            max-width: 100%;
            height: auto;
            display: block;
            margin: 1em auto;
            page-break-inside: avoid;
        }
        
        figure {
            margin: 1.5em 0;
            page-break-inside: avoid;
        }
        
        figcaption {
            font-size: 9pt;
            font-style: italic;
            text-align: center;
            color: #666;
            margin-top: 0.5em;
        }
        
        blockquote {
            margin: 1em 2em;
            padding-left: 1em;
            border-left: 3px solid #ccc;
            font-style: italic;
            color: #444;
        }
        
        pre, code {
            font-family: 'Menlo', 'Monaco', monospace;
            font-size: 9pt;
            background-color: #f5f5f5;
            border-radius: 3px;
        }
        
        pre {
            padding: 1em;
            overflow-x: auto;
            white-space: pre-wrap;
            word-wrap: break-word;
            page-break-inside: avoid;
        }
        
        code {
            padding: 0.2em 0.4em;
        }
        
        a {
            color: #2563eb;
            text-decoration: none;
        }
        
        table {
            width: 100%;
            border-collapse: collapse;
            margin: 1em 0;
            page-break-inside: avoid;
        }
        
        th, td {
            border: 1px solid #ddd;
            padding: 0.5em;
            text-align: left;
        }
        
        th {
            background-color: #f5f5f5;
            font-weight: bold;
        }
        
        ul, ol {
            margin: 0.8em 0;
            padding-left: 2em;
        }
        
        li {
            margin: 0.3em 0;
        }
        
        hr {
            border: none;
            border-top: 1px solid #ddd;
            margin: 2em 0;
        }
        
        .chapter {
            page-break-before: always;
        }
        
        .title-page {
            text-align: center;
            padding-top: 30%;
        }
        
        .title-page h1 {
            font-size: 32pt;
            border: none;
            page-break-before: avoid;
        }
        
        .title-page .author {
            font-size: 16pt;
            margin-top: 2em;
            color: #666;
        }
        ".

(** [title[0][0] if title else Path(epub_path).stem] *)
Definition book_title (book : Ebooklib.EpubBook) (epub_path : string)
    : option string :=
  match Ebooklib.get_metadata book "DC" "title" with
  | (value, _) :: _ => value
  | [] => Some (PyStr.path_stem epub_path)
  end.

(** [creator[0][0] if creator else ""] *)
Definition book_author (book : Ebooklib.EpubBook) : option string :=
  match Ebooklib.get_metadata book "DC" "creator" with
  | (value, _) :: _ => value
  | [] => Some EmptyString
  end.

(** [f'<p class="author">{author}</p>' if author else '']: [None] and
    the empty string are false. *)
Definition author_line (author : option string) : string :=
  match author with
  | Some text =>
      if PyStr.is_empty text then EmptyString
      else ("<p class=" ++ dq ++ "author" ++ dq ++ ">") ++ text ++ ("</p>")
  | None => EmptyString
  end.

Definition title_page (title author : option string) : string :=
  ("
            <div class=" ++ dq ++ "title-page" ++ dq ++ ">
                <h1>") ++ Py.format title ++ ("</h1>
                ") ++ author_line author ++ ("
            </div>
            ").

Definition chapter_block (content : string) : string :=
  ("<div class=" ++ dq ++ "chapter" ++ dq ++ ">") ++ content ++ ("</div>").

Definition full_html_of (title : option string) (html_parts : list string)
    : string :=
  ("
            <!DOCTYPE html>
            <html>
            <head>
                <meta charset=" ++ dq ++ "utf-8" ++ dq ++ ">
                <title>") ++ Py.format title ++ ("</title>
            </head>
            <body>
                ") ++ String.concat EmptyString html_parts ++ ("
            </body>
            </html>
            ").

(** "Get spine items (reading order)" *)
Definition spine_items_of (book : Ebooklib.EpubBook) : list Ebooklib.EpubItem :=
  List.flat_map
    (fun entry => match Ebooklib.get_item_with_id book (fst entry) with
                  | Some item => [item]
                  | None => []
                  end)
    (Ebooklib.spine book).

(** [0.2 + (0.5 * (idx / max(total_items, 1)))] *)
Definition chapter_progress (idx total_items : nat) : Py.result Q :=
  match Py.truediv (Z.of_nat idx) (Z.max (Z.of_nat total_items) 1) with
  | inl e => inl e
  | inr q => inr (Float.add (Float.lit (2 # 10)) (Float.mul (1 # 2) q))
  end.

(** The loop "Process each chapter/document", from index [idx] on. *)
Fixpoint process_chapters (self : EPUBConverter) (images : gmap string string)
    (total_items idx : nat) (items : list Ebooklib.EpubItem)
    (html_parts : list string) : Py.M St (list string) :=
  match items with
  | [] => Py.ret html_parts
  | item :: rest =>
      if Ebooklib.item_type_eqb (Ebooklib.get_type item) Ebooklib.ITEM_DOCUMENT then
        progress <- Py.call (chapter_progress idx total_items) ;;
        _report_progress self progress
          ("Processing chapter " ++ pretty (idx + 1)%nat ++ " of "
             ++ pretty total_items ++ "...") ;;
        let content := decode_utf8 (Ebooklib.get_content item) in
        processed <- Py.call (_process_html_content content images
                                (Ebooklib.get_name item)) ;;
        soup <- Py.call (BeautifulSoup processed) ;;
        let part :=
          match Bs4.find "body" soup with
          | Some body => chapter_block (decode_contents body)
          | None => chapter_block processed
          end in
        process_chapters self images total_items (S idx) rest
                         (html_parts ++ [part])
      else
        process_chapters self images total_items (S idx) rest html_parts
  end.

(** The part of the [try] of [convert] that builds [full_html] from the
    opened book: metadata, title page, chapters. *)
Definition assemble (self : EPUBConverter) (book : Ebooklib.EpubBook)
    (images : gmap string string) (epub_path : string) : Py.M St string :=
  let title := book_title book epub_path in
  let author := book_author book in
  let html_parts := [title_page title author] in
  let spine_items := spine_items_of book in
  let total_items := List.length spine_items in
  html_parts <- process_chapters self images total_items 0 spine_items html_parts ;;
  _report_progress self (Float.lit (7 # 10)) "Generating PDF..." ;;
  Py.ret (full_html_of title html_parts).

(** The body of the [try] of [convert]. *)
Definition convert_body (self : EPUBConverter) (epub_path output_path : string)
    : Py.M St bool :=
  _report_progress self 0 "Opening EPUB file..." ;;
  book <- Py.call (read_epub epub_path) ;;
  _report_progress self (Float.lit (1 # 10)) "Extracting images..." ;;
  let images := _extract_images book in
  _report_progress self (Float.lit (2 # 10)) "Processing chapters..." ;;
  full_html <- assemble self book images epub_path ;;
  html_doc <- Py.call (HTML full_html) ;;
  css <- Py.call (CSS _get_base_css) ;;
  _report_progress self (Float.lit (85 # 100)) "Writing PDF file..." ;;
  Py.call (write_pdf html_doc output_path [css]) ;;
  _report_progress self 1 "Complete!" ;;
  Py.ret true.

(** The [except] clause of [convert]. *)
Definition on_error (self : EPUBConverter) (e : Py.exn) : Py.M St bool :=
_report_progress self 0 ("Error: " ++ Py.str e) ;;
Py.raise e.

Definition convert (self : EPUBConverter) (epub_path output_path : string)
    : Py.M St bool :=
Py.try_except (convert_body self epub_path output_path) (on_error self).

(** What follows the first report in [convert_body]. *)
Definition after_opening (self : EPUBConverter) (epub_path output_path : string)
    : Py.M St bool :=
book <- Py.call (read_epub epub_path) ;;
_report_progress self (Float.lit (1 # 10)) "Extracting images..." ;;
let images := _extract_images book in
_report_progress self (Float.lit (2 # 10)) "Processing chapters..." ;;
full_html <- assemble self book images epub_path ;;
html_doc <- Py.call (HTML full_html) ;;
css <- Py.call (CSS _get_base_css) ;;
_report_progress self (Float.lit (85 # 100)) "Writing PDF file..." ;;
Py.call (write_pdf html_doc output_path [css]) ;;
_report_progress self 1 "Complete!" ;;
Py.ret true.

Definition convert_epub_to_pdf (epub_path output_path : string)
    (progress_callback : option (Q -> string -> Py.M St unit)) : Py.M St bool :=
  let converter := {| progress_callback := progress_callback |} in
  convert converter epub_path output_path.

End Pipeline.
End Converter.

(** ** The job queue and its worker ([app.py]) *)

Module App.

Inductive ConversionStatus : Type := PENDING | CONVERTING | COMPLETED | FAILED.

Definition status_eqb (a b : ConversionStatus) : bool :=
  match a, b with
  | PENDING, PENDING | CONVERTING, CONVERTING
  | COMPLETED, COMPLETED | FAILED, FAILED => true
  | _, _ => false
  end.

(** [@dataclass QueueItem], with the defaults of its last four fields
    in [new_item]. *)
Record QueueItem : Type := {
  id : string;
  epub_path : string;
  output_path : string;
  status : ConversionStatus;
  progress : Q;
  message : string;
  error : option string
}.

Definition new_item (id epub_path output_path : string) : QueueItem :=
  {| id := id; epub_path := epub_path; output_path := output_path;
     status := PENDING; progress := 0; message := "Waiting..."; error := None |}.

(** The arguments of one call of [result_callback]. *)
Definition notification : Type := (string * ConversionStatus * Q * string)%type.

Definition job_of (n : notification) : string := fst (fst (fst n)).
Definition status_of (n : notification) : ConversionStatus := snd (fst (fst n)).
Definition progress_of (n : notification) : Q := snd (fst n).
Definition message_of (n : notification) : string := snd n.

(** What one turn of the loop of [ConversionWorker.run] meets: the flag
    [self.running] cleared by [stop], a [get] that times out on an empty
    queue, or the entry that [get] returns ([None] is the stop token). *)
Inductive turn : Type :=
| Stopped
| Timeout
| Entry (entry : option QueueItem).

Section Worker.

Context `{Collaborators}.
Context {St : Type}.

(** [self.result_callback]: an observer that takes the call and returns. *)
Variable result_callback : string -> ConversionStatus -> Q -> string -> St -> St.

(** The [try ... except Exception] of [run], for one dequeued item. *)
Definition process (item : QueueItem) : Py.M St unit :=
  Py.try_except
    (Py.effect (result_callback (id item) CONVERTING 0 "Starting conversion...") ;;
     let progress_callback :=
       fun progress message =>
         Py.effect (result_callback (id item) CONVERTING progress message) in
     Converter.convert_epub_to_pdf (epub_path item) (output_path item)
       (Some progress_callback) ;;
     Py.effect (result_callback (id item) COMPLETED 1 "Complete!"))
    (fun e =>
       Py.effect (result_callback (id item) FAILED 0 ("Error: " ++ Py.str e))).

(** [ConversionWorker.run] along the turns it meets.  When the turns
    run out the worker is still in its loop, waiting. *)
Fixpoint run (turns : list turn) (s : St) : St :=
  match turns with
  | [] => s
  | Stopped :: _ => s
  | Timeout :: rest => run rest s
  | Entry None :: _ => s
  | Entry (Some item) :: rest => run rest (fst (process item s))
  end.

End Worker.

(** A worker that finds the queue filled with [entries] and is never
    stopped by the flag meets them in order. *)
Definition drain (entries : list (option QueueItem)) : list turn :=
  List.map Entry entries.

(** The observer that records every call, oldest first. *)
Definition record_call (job : string) (st : ConversionStatus) (p : Q) (m : string)
    (log : list notification) : list notification :=
  log ++ [(job, st, p, m)].

(** [QueueItemWidget]: what it shows and whether its remove button is
    enabled. *)
Record QueueItemWidget : Type := {
  shown_status : ConversionStatus;
  shown_progress : Q;
  shown_message : string;
  remove_btn_enabled : bool
}.

(** [QueueItemWidget.update_status] *)
Definition update_status (st : ConversionStatus) (p : Q) (m : string)
    : QueueItemWidget :=
  {| shown_status := st; shown_progress := p; shown_message := m;
     remove_btn_enabled := negb (status_eqb st CONVERTING) |}.

(** [EPUBtoPDFApp]: the fields that hold jobs; [uuid_calls] counts the
    calls of [uuid.uuid4].  [task_queue] holds every item as it was put:
    the worker reads its [id], [epub_path] and [output_path], which are
    never assigned after the item is made.  [worker_running] is the flag
    [self.worker.running], and [destroyed] tells whether [self.destroy()]
    was called. *)
Record EPUBtoPDFApp : Type := {
  queue_items : gmap string QueueItem;
  item_widgets : gmap string QueueItemWidget;
  task_queue : list (option QueueItem);
  output_directory : option string;
  uuid_calls : nat;
  worker_running : bool;
  destroyed : bool
}.

(** The application when [__init__] returns: the worker is started. *)
Definition init : EPUBtoPDFApp :=
  {| queue_items := ∅; item_widgets := ∅; task_queue := [];
     output_directory := None; uuid_calls := 0;
     worker_running := true; destroyed := false |}.

(** [str(Path(p))] from the parts of [p]. *)
Definition path_root (p : string) : string :=
  match p with
  | String "/" (String "/" (String "/" _)) => "/"
  | String "/" (String "/" _) => "//"
  | String "/" _ => "/"
  | _ => EmptyString
  end.

Definition path_str (root : string) (parts : list string) : string :=
  let s := root ++ PyStr.join_with "/" parts in
  if PyStr.is_empty s then "." else s.

(** [str(Path(p).with_suffix(suffix))].  A path without a name is
    [.], [/] or [//], which [repr] writes between single quotes. *)
Definition with_suffix (p suffix : string) : Py.result string :=
  let name := PyStr.path_name p in
  if PyStr.is_empty name
  then inl (Py.Raised "ValueError"
              ("PosixPath('" ++ path_str (path_root p) (PyStr.path_parts p)
                 ++ "') has an empty name"))
  else inr (path_str (path_root p)
              (List.removelast (PyStr.path_parts p) ++ [PyStr.name_stem name ++ suffix])).

Section Application.

Context `{Collaborators}.

(** "Determine output path" *)
Definition output_path_for (app : EPUBtoPDFApp) (epub_path : string)
    : Py.result string :=
  match output_directory app with
  | Some dir =>
      if PyStr.is_empty dir then with_suffix epub_path ".pdf"
      else inr (PyStr.join dir (PyStr.path_stem epub_path ++ ".pdf"))
  | None => with_suffix epub_path ".pdf"
  end.

(** The body of the loop of [_add_files_to_queue] for a path that
    exists: the new item enters [queue_items], gets its widget and is
    put on [task_queue]. *)
Definition enqueue (epub_path output_path : string) (app : EPUBtoPDFApp)
    : EPUBtoPDFApp :=
  let item_id := uuid4 (uuid_calls app) in
  let item := new_item item_id epub_path output_path in
  {| queue_items := <[item_id := item]> (queue_items app);
     item_widgets :=
       <[item_id := update_status (status item) (progress item) (message item)]>
         (item_widgets app);
     task_queue := task_queue app ++ [Some item];
     output_directory := output_directory app;
     uuid_calls := S (uuid_calls app);
     worker_running := worker_running app;
     destroyed := destroyed app |}.

Definition _add_files_to_queue (epub_paths : list string)
    : Py.M EPUBtoPDFApp unit :=
  Py.for_each epub_paths
    (fun epub_path =>
       if negb (path_exists epub_path) then Py.ret tt
       else fun app =>
         match output_path_for app epub_path with
         | inl e => (app, inl e)
         | inr output_path => (enqueue epub_path output_path app, inr tt)
         end).

(** [_remove_item] *)
Definition _remove_item (item_id : string) (app : EPUBtoPDFApp) : EPUBtoPDFApp :=
  {| queue_items := delete item_id (queue_items app);
     item_widgets := delete item_id (item_widgets app);
     task_queue := task_queue app;
     output_directory := output_directory app;
     uuid_calls := uuid_calls app;
     worker_running := worker_running app;
     destroyed := destroyed app |}.

(** [_clear_completed] *)
Definition _clear_completed (app : EPUBtoPDFApp) : EPUBtoPDFApp :=
  let to_remove :=
    List.map fst
      (List.filter
         (fun kv => status_eqb (status (snd kv)) COMPLETED
                    || status_eqb (status (snd kv)) FAILED)
         (map_to_list (queue_items app))) in
  List.fold_left (fun a item_id => _remove_item item_id a) to_remove app.

(** [_update_item], run by the main loop for one event. *)
Definition _update_item (n : notification) (app : EPUBtoPDFApp) : EPUBtoPDFApp :=
  let '(item_id, st, p, m) := n in
  {| queue_items :=
       match queue_items app !! item_id with
       | Some item =>
           <[item_id := {| id := id item; epub_path := epub_path item;
                           output_path := output_path item; status := st;
                           progress := p; message := m; error := error item |}]>
             (queue_items app)
       | None => queue_items app
       end;
     item_widgets :=
       match item_widgets app !! item_id with
       | Some _ => <[item_id := update_status st p m]> (item_widgets app)
       | None => item_widgets app
       end;
     task_queue := task_queue app;
     output_directory := output_directory app;
     uuid_calls := uuid_calls app;
     worker_running := worker_running app;
     destroyed := destroyed app |}.

(** The worker thread empties [task_queue] as [turns] tells, handing
    every update to the main loop through [_on_conversion_update]. *)
Definition worker_events (turns : list turn) : list notification :=
  run record_call turns [].

(** The main loop runs the pending events in order. *)
Definition main_loop (pending : list notification) (app : EPUBtoPDFApp)
    : EPUBtoPDFApp :=
  List.fold_left (fun a n => _update_item n a) pending app.

End Application.

End App.

(** ** Notions the properties are stated with *)

(** The converter whose callback records every report, oldest first. *)
Definition record_report (progress : Q) (message : string)
    (log : list (Q * string)) : list (Q * string) :=
  log ++ [(progress, message)].

Definition recording : Converter.EPUBConverter :=
  {| Converter.progress_callback :=
       Some (fun progress message => Py.effect (record_report progress message)) |}.

Definition fractions (log : list (Q * string)) : list Q := List.map fst log.

Fixpoint final (l : list Q) : option Q :=
  match l with
  | [] => None
  | [x] => Some x
  | _ :: r => final r
  end.

Fixpoint non_decreasing (l : list Q) : bool :=
  match l with
  | x :: r =>
      match r with
      | y :: _ => Qle_bool x y && non_decreasing r
      | [] => true
      end
  | [] => true
  end.

(** [lo], then [l], then [hi] never go down. *)
Fixpoint chain (lo : Q) (l : list Q) (hi : Q) : Prop :=
  match l with
  | [] => (lo <= hi)%Q
  | x :: r => (lo <= x)%Q /\ chain x r hi
  end.

(** The converter whose callback appends [f progress message] to a log. *)
Definition appending {X : Type} (f : Q -> string -> X) : Converter.EPUBConverter :=
  {| Converter.progress_callback :=
       Some (fun progress message =>
               Py.effect (fun log => (log ++ [f progress message])%list)) |}.

(** The computation [c] only appends to the log, and what it appends
    satisfies [P]. *)
Definition appends {X A : Type} (P : X -> Prop) (c : Py.M (list X) A) : Prop :=
  forall log, exists ext, fst (c log) = (log ++ ext)%list /\ Forall P ext.

(** The keys under which [_extract_images] stores an image. *)
Definition keys_of (img_name : string) : list string :=
  [ img_name;
    PyStr.basename img_name;
    PyStr.unquote img_name;
    PyStr.unquote (PyStr.basename img_name) ].

(** The value of [ratio = 1200 / img.width]. *)
Definition ratio_of (w : Z) : Q := Float.round (inject_Z 1200 / inject_Z w).

(** The height [int(img.height * ratio)] of a resized image. *)
Definition scaled_height (w h : Z) : Z :=
  Float.to_int (Float.mul (Float.of_int h) (ratio_of w)).

(** The value of [0.2 + (0.5 * (idx / max(total_items, 1)))]. *)
Definition progress_at (idx total_items : nat) : Q :=
  Float.add (Float.lit (2 # 10))
    (Float.mul (1 # 2)
       (Float.round (inject_Z (Z.of_nat idx)
                     / inject_Z (Z.max (Z.of_nat total_items) 1)))).

(** The transitions of a job. *)
Definition transition (a b : App.ConversionStatus) : bool :=
  match a, b with
  | App.PENDING, App.CONVERTING
  | App.CONVERTING, App.CONVERTING
  | App.CONVERTING, App.COMPLETED
  | App.CONVERTING, App.FAILED => true
  | _, _ => false
  end.

(** From status [cur] on, the statuses of [l] follow the transitions. *)
Fixpoint follows (cur : App.ConversionStatus) (l : list App.ConversionStatus) : bool :=
  match l with
  | [] => true
  | s :: r => transition cur s && follows s r
  end.

Definition terminal (s : App.ConversionStatus) : bool :=
  match s with
  | App.COMPLETED | App.FAILED => true
  | _ => false
  end.

(** The notifications of [log] about the job [job]. *)
Definition about (job : string) (log : list App.notification) : list App.notification :=
  List.filter (fun n => String.eqb (App.job_of n) job) log.

(** The ids of the items that the turns of a worker hold. *)
Fixpoint jobs_of (turns : list App.turn) : list string :=
  match turns with
  | [] => []
  | App.Entry (Some item) :: rest => App.id item :: jobs_of rest
  | _ :: rest => jobs_of rest
  end.

(** The first two notifications about a job: the one of the worker when
    it dequeues the item, and the first report of the pipeline. *)
Definition starting (job : string) : App.notification :=
  (job, App.CONVERTING, 0%Q, "Starting conversion...").

Definition opening (job : string) : App.notification :=
  (job, App.CONVERTING, 0%Q, "Opening EPUB file...").

(** What the worker tells about a job between these and the last
    notification, and the last notification. *)
Definition converting_of (job : string) (n : App.notification) : Prop :=
  App.job_of n = job /\ App.status_of n = App.CONVERTING.

Definition outcome_of (job : string) (n : App.notification) : Prop :=
  n = (job, App.COMPLETED, 1%Q, "Complete!")
  \/ exists e, n = (job, App.FAILED, 0%Q, "Error: " ++ Py.str e).

(** A forced fraction: 1.0 with [COMPLETED], 0.0 with [FAILED]. *)
Definition forced (n : App.notification) : Prop :=
  match App.status_of n with
  | App.COMPLETED => App.progress_of n = 1%Q
  | App.FAILED => App.progress_of n = 0%Q
  | _ => True
  end.

(** ** Collaborators to run the model on

    A reader that knows the books of a shelf and none else, an image
    library that opens what [images] tells, a codec that keeps the bytes,
    a parser that takes all markup for one string, and a renderer that
    writes unless [unwritable] holds of the destination. *)

Definition shelf_collaborators (shelf : gmap string Ebooklib.EpubBook)
    (images : bytes -> Py.result PIL.Image) (unwritable : string -> bool)
    : Collaborators :=
  {| read_epub path :=
       match shelf !! path with
       | Some book => inr book
       | None => inl (Py.Raised "FileNotFoundError" ("No such file: " ++ path))
       end;
     Image_open := images;
     resample _ _ := [];
     white _ := [];
     to_rgba _ := [];
     paste _ _ _ := [];
     save_jpeg _ := inr [];
     b64encode := string_of_list_byte;
     decode_utf8 := string_of_list_byte;
     BeautifulSoup markup := inr [Bs4.NavigableString markup];
     soup_str soup :=
       String.concat EmptyString
         (List.map (fun n => match n with
                             | Bs4.NavigableString t => t
                             | Bs4.Tag _ _ _ => EmptyString
                             end) soup);
     decode_contents _ := EmptyString;
     HTML markup := inr markup;
     CSS sheet := inr sheet;
     write_pdf _ output_path _ :=
       if unwritable output_path
       then inl (Py.Raised "OSError" ("Permission denied: " ++ output_path))
       else inr tt;
     path_exists _ := true;
     uuid4 n := "job-" ++ pretty n |}.

Definition unreadable (data : bytes) : Py.result PIL.Image :=
  inl (Py.Raised "UnidentifiedImageError" "cannot identify image file").

(** A book with no item, no spine entry and no metadata. *)
Definition empty_book : Ebooklib.EpubBook :=
  {| Ebooklib.get_items := []; Ebooklib.spine := [];
     Ebooklib.get_metadata _ _ := [] |}.


(** A book whose only image has an encoded slash in its name. *)
Definition encoded_slash_book : Ebooklib.EpubBook :=
  {| Ebooklib.get_items :=
       [ {| Ebooklib.id := "cover"; Ebooklib.get_name := "a%2Fb.png";
            Ebooklib.get_type := Ebooklib.ITEM_IMAGE; Ebooklib.get_content := [] |} ];
     Ebooklib.spine := [];
     Ebooklib.get_metadata _ _ := [] |}.

(** The text of the replacement character U+FFFD. *)
Definition ufffd : string := PyStr.string_of_codes PyStr.replacement.

(** A book with two images whose names have an escape that is no UTF-8,
    and a third image. *)
Definition accented_book : Ebooklib.EpubBook :=
  {| Ebooklib.get_items :=
       [ {| Ebooklib.id := "i1"; Ebooklib.get_name := "img/x%E8.png";
            Ebooklib.get_type := Ebooklib.ITEM_IMAGE;
            Ebooklib.get_content := [Byte.x31] |};
         {| Ebooklib.id := "i2"; Ebooklib.get_name := "img/x%E9.png";
            Ebooklib.get_type := Ebooklib.ITEM_IMAGE;
            Ebooklib.get_content := [Byte.x32] |};
         {| Ebooklib.id := "i3"; Ebooklib.get_name := "img/b.png";
            Ebooklib.get_type := Ebooklib.ITEM_IMAGE;
            Ebooklib.get_content := [Byte.x33] |} ];
     Ebooklib.spine := [];
     Ebooklib.get_metadata _ _ := [] |}.

(** The four key forms in the words of the specification: raw path,
    percent-decoded path, basename, basename of the decoded path. *)
Definition claimed_keys (img_name : string) : list string :=
  [ img_name;
    PyStr.unquote img_name;
    PyStr.basename img_name;
    PyStr.basename (PyStr.unquote img_name) ].


(** The key looked up for a candidate: [variant.lstrip('./')]. *)
Definition key_of (variant : string) : string :=
  PyStr.lstrip [PyStr.dot; PyStr.slash] variant.

(** [src] resolved relative to the chapter at [base_path]. *)
Definition resolved (base_path src : string) : string :=
  PyStr.normpath (PyStr.join (PyStr.dirname base_path) src).

(** The order of the candidates in the words of the specification: the
    reference resolved relative to the chapter first, then the bare forms. *)
Definition claimed_variants (src base_path : string) : list string :=
  [ resolved base_path src;
    resolved base_path (PyStr.unquote src);
    src;
    PyStr.unquote src;
    PyStr.basename src;
    PyStr.basename (PyStr.unquote src) ].

(** A book with two images of the same basename. *)
Definition two_covers_book : Ebooklib.EpubBook :=
  {| Ebooklib.get_items :=
       [ {| Ebooklib.id := "c1"; Ebooklib.get_name := "text/a.png";
            Ebooklib.get_type := Ebooklib.ITEM_IMAGE;
            Ebooklib.get_content := [Byte.x31] |};
         {| Ebooklib.id := "c2"; Ebooklib.get_name := "other/a.png";
            Ebooklib.get_type := Ebooklib.ITEM_IMAGE;
            Ebooklib.get_content := [Byte.x32] |} ];
     Ebooklib.spine := [];
     Ebooklib.get_metadata _ _ := [] |}.


(** Induction on a parse tree, with the property at hand for every node
    of the contents of a tag. *)
Fixpoint node_induction (P : Bs4.node -> Prop)
    (Hstring : forall text, P (Bs4.NavigableString text))
    (Htag : forall name attrs contents,
        Forall P contents -> P (Bs4.Tag name attrs contents))
    (n : Bs4.node) : P n :=
  match n with
  | Bs4.NavigableString text => Hstring text
  | Bs4.Tag name attrs contents =>
      Htag name attrs contents
        ((fix all (l : list Bs4.node) : Forall P l :=
            match l with
            | [] => @List.Forall_nil _ P
            | c :: r => @List.Forall_cons _ P c r (node_induction P Hstring Htag c) (all r)
            end) contents)
  end.

(** A markup with a script in its head and one nested in its body. *)
Definition scripted_soup : list Bs4.node :=
  [ Bs4.Tag "html" []
      [ Bs4.Tag "head" [] [ Bs4.Tag "script" [("src", "a.js")] [] ];
        Bs4.Tag "body" []
          [ Bs4.Tag "p" []
              [ Bs4.NavigableString "text";
                Bs4.Tag "script" [] [ Bs4.NavigableString "alert(1)" ] ];
            Bs4.Tag "img" [("src", "a.png")] [] ] ] ].


(** An image library that opens every file as a 2400 by 1000 image with
    transparency. *)
Definition wide_image (data : bytes) : Py.result PIL.Image :=
  inr {| PIL.width := 2400; PIL.height := 1000; PIL.mode := "RGBA"; PIL.raster := data |}.


(** Whenever [c] returns, it returns [True]. *)
Definition returns_true {St : Type} (c : Py.M St bool) : Prop :=
  forall s returned, snd (c s) = inr returned -> returned = true.

(** The reports of a conversion that has no chapter to process. *)
Definition reports_without_chapters : list (Q * string) :=
  [ (0%Q, "Opening EPUB file...");
    (Float.lit (1 # 10), "Extracting images...");
    (Float.lit (2 # 10), "Processing chapters...");
    (Float.lit (7 # 10), "Generating PDF...");
    (Float.lit (85 # 100), "Writing PDF file...");
    (1%Q, "Complete!") ].





(** Two jobs queued one after the other, then the stop token. *)
Definition two_jobs : list App.turn :=
  [ App.Entry (Some (App.new_item "job-0" "book.epub" "book.pdf"));
    App.Timeout;
    App.Entry (Some (App.new_item "job-1" "missing.epub" "missing.pdf"));
    App.Entry None ].


(** * The window and further notions *)

(** ** The window of the application ([app.py], continued) *)

Module Window.

(** [QueueItem.filename] *)
Definition filename (item : App.QueueItem) : string :=
  PyStr.path_name (App.epub_path item).

(** [_select_output_dir], for the directory that the dialog returns: the
    empty string when the dialog is cancelled. *)
Definition _select_output_dir (directory : string) (app : App.EPUBtoPDFApp)
    : App.EPUBtoPDFApp :=
  if PyStr.is_empty directory then app
  else {| App.queue_items := App.queue_items app;
          App.item_widgets := App.item_widgets app;
          App.task_queue := App.task_queue app;
          App.output_directory := Some directory;
          App.uuid_calls := App.uuid_calls app;
          App.worker_running := App.worker_running app;
          App.destroyed := App.destroyed app |}.

(** [_on_close]: [self.worker.stop()] clears the flag of the worker,
    the stop token goes on the queue, and the window is destroyed. *)
Definition _on_close (app : App.EPUBtoPDFApp) : App.EPUBtoPDFApp :=
  {| App.queue_items := App.queue_items app;
     App.item_widgets := App.item_widgets app;
     App.task_queue := App.task_queue app ++ [None];
     App.output_directory := App.output_directory app;
     App.uuid_calls := App.uuid_calls app;
     App.worker_running := false;
     App.destroyed := true |}.

(** [sum(1 for item in self.queue_items.values() if item.status == st)] *)
Definition count_status (st : App.ConversionStatus)
    (items : gmap string App.QueueItem) : nat :=
  List.length
    (List.filter (fun kv => App.status_eqb (App.status (snd kv)) st)
                 (map_to_list items)).

(** The text that [_update_ui] gives [queue_count_label]. *)
Definition queue_count_text (items : gmap string App.QueueItem) : string :=
  let total := size items in
  pretty total ++ " file" ++ (if Nat.eqb total 1 then EmptyString else "s").

(** The text that [_update_ui] gives [stats_label]. *)
Definition stats_text (items : gmap string App.QueueItem) : string :=
  let total := size items in
  let completed := count_status App.COMPLETED items in
  let failed := count_status App.FAILED items in
  let converting := count_status App.CONVERTING items in
  let pending := count_status App.PENDING items in
  if (0 <? converting)%nat then
    "Converting... " ++ pretty completed ++ "/" ++ pretty total ++ " complete"
  else if (0 <? pending)%nat then
    "Processing queue... " ++ pretty pending ++ " remaining"
  else if (0 <? total)%nat then
    let parts :=
      ((if (0 <? completed)%nat then [(pretty completed ++ " completed")%string] else [])
       ++ (if (0 <? failed)%nat then [(pretty failed ++ " failed")%string] else []))%list in
    match parts with
    | [] => "Ready"
    | _ => PyStr.join_with " • " parts
    end
  else "Ready".

End Window.

(** The job [item] after the update that [n] carries. *)
Definition settle (n : App.notification) (item : App.QueueItem) : App.QueueItem :=
  {| App.id := App.id item; App.epub_path := App.epub_path item;
     App.output_path := App.output_path item; App.status := App.status_of n;
     App.progress := App.progress_of n; App.message := App.message_of n;
     App.error := App.error item |}.

(** The widget that shows [item]. *)
Definition widget_of (item : App.QueueItem) : App.QueueItemWidget :=
  App.update_status (App.status item) (App.progress item) (App.message item).

(** The states of the application that its handlers lead to from the
    start: files are added, an item is removed, the finished ones are
    cleared, an update arrives, an output directory is chosen, the window
    is closed. *)
Inductive reachable `{Collaborators} : App.EPUBtoPDFApp -> Prop :=
| reach_init : reachable App.init
| reach_add paths app :
    reachable app -> reachable (fst (App._add_files_to_queue paths app))
| reach_remove item_id app :
    reachable app -> reachable (App._remove_item item_id app)
| reach_clear app :
    reachable app -> reachable (App._clear_completed app)
| reach_update n app :
    reachable app -> reachable (App._update_item n app)
| reach_select directory app :
    reachable app -> reachable (Window._select_output_dir directory app)
| reach_close app :
    reachable app -> reachable (Window._on_close app).

(** Every job has its widget and every widget its job, under the id of
    the job; the widget shows the job as it is; the job is, with its
    paths, an item of the task queue; and the queued items carry the
    results of [uuid4] in the order of the calls. *)
Definition consistent `{Collaborators} (app : App.EPUBtoPDFApp) : Prop :=
  (forall key, App.item_widgets app !! key = widget_of <$> App.queue_items app !! key)
  /\ (forall key item,
        App.queue_items app !! key = Some item ->
        App.id item = key
        /\ exists queued,
             In (Some queued) (App.task_queue app)
             /\ App.id queued = key
             /\ App.epub_path queued = App.epub_path item
             /\ App.output_path queued = App.output_path item)
  /\ jobs_of (App.drain (App.task_queue app))
     = List.map uuid4 (List.seq 0 (App.uuid_calls app)).

(** A fraction that a progress bar with maximum 1.0 can show. *)
Definition in_range (fraction : Q) : Prop := (0 <= fraction)%Q /\ (fraction <= 1)%Q.

(** The collaborators [base] on a disk where [present] tells the paths
    that exist. *)
Definition on_disk (present : string -> bool) (base : Collaborators) : Collaborators :=
  {| read_epub := @read_epub base;
     Image_open := @Image_open base;
     resample := @resample base;
     white := @white base;
     to_rgba := @to_rgba base;
     paste := @paste base;
     save_jpeg := @save_jpeg base;
     b64encode := @b64encode base;
     decode_utf8 := @decode_utf8 base;
     BeautifulSoup := @BeautifulSoup base;
     soup_str := @soup_str base;
     decode_contents := @decode_contents base;
     HTML := @HTML base;
     CSS := @CSS base;
     write_pdf := @write_pdf base;
     path_exists := present;
     uuid4 := @uuid4 base |}.

(** The paths under [/shelf/]. *)
Definition on_shelf (path : string) : bool := String.prefix "/shelf/" path.

(** A chapter without script: a paragraph with an image. *)
Definition plain_soup : list Bs4.node :=
  [ Bs4.Tag "p" [("class", "first")]
      [ Bs4.NavigableString "text"; Bs4.Tag "img" [("src", "a.png")] [] ] ].

(** A callback that raises at every call. *)
Definition refusing {St : Type} (progress : Q) (message : string) : Py.M St unit :=
  Py.raise (Py.Raised "RuntimeError" "no report wanted").

(** The converter without a callback. *)
Definition silent {St : Type} : Converter.EPUBConverter (St := St) :=
  {| Converter.progress_callback := None |}.

(** A converter whose callback, if it has one, always returns. *)
Definition returning {St : Type} (self : Converter.EPUBConverter (St := St)) : Prop :=
  forall progress message s,
    snd (Converter._report_progress self progress message s) = inr tt.

(** Two computations, each over its own state, that raise or return the
    same whatever their states. *)
Definition agree {St1 St2 A : Type} (c1 : Py.M St1 A) (c2 : Py.M St2 A) : Prop :=
  forall s1 s2, snd (c1 s1) = snd (c2 s2).


(** An item of the spine that the chapter loop processes. *)
Definition is_document (item : Ebooklib.EpubItem) : bool :=
  Ebooklib.item_type_eqb (Ebooklib.get_type item) Ebooklib.ITEM_DOCUMENT.

(** The message of the report before the item at position [idx]. *)
Definition chapter_message (idx total_items : nat) : string :=
  "Processing chapter " ++ pretty (idx + 1)%nat ++ " of " ++ pretty total_items ++ "...".

(** The reports of the chapter loop over [items], the first of which is
    at position [idx]: one for every document. *)
Fixpoint chapter_reports (total_items idx : nat) (items : list Ebooklib.EpubItem)
    : list (Q * string) :=
  match items with
  | [] => []
  | item :: rest =>
      (if is_document item
       then [(progress_at idx total_items, chapter_message idx total_items)]
       else [])
      ++ chapter_reports total_items (S idx) rest
  end.

(** A book whose spine names a stylesheet, a chapter and an item that the
    book does not have. *)
Definition mixed_spine_book : Ebooklib.EpubBook :=
  {| Ebooklib.get_items :=
       [ {| Ebooklib.id := "css"; Ebooklib.get_name := "style.css";
            Ebooklib.get_type := Ebooklib.ITEM_STYLE; Ebooklib.get_content := [] |};
         {| Ebooklib.id := "ch1"; Ebooklib.get_name := "text/ch1.xhtml";
            Ebooklib.get_type := Ebooklib.ITEM_DOCUMENT; Ebooklib.get_content := [] |} ];
     Ebooklib.spine := [("css", "yes"); ("gone", "yes"); ("ch1", "yes")];
     Ebooklib.get_metadata _ _ := [] |}.

(** The MIME types of the values of the index. *)
Definition image_mime_types : list string :=
  ["image/jpeg"; "image/png"; "image/gif"; "image/svg+xml"; "image/webp"].

(** A book with a stylesheet, a GIF and a PNG named in capitals. *)
Definition album_book : Ebooklib.EpubBook :=
  {| Ebooklib.get_items :=
       [ {| Ebooklib.id := "css"; Ebooklib.get_name := "style.css";
            Ebooklib.get_type := Ebooklib.ITEM_STYLE; Ebooklib.get_content := [Byte.x31] |};
         {| Ebooklib.id := "g"; Ebooklib.get_name := "img/anim.gif";
            Ebooklib.get_type := Ebooklib.ITEM_IMAGE; Ebooklib.get_content := [Byte.x32] |};
         {| Ebooklib.id := "p"; Ebooklib.get_name := "img/My%20Cover.PNG";
            Ebooklib.get_type := Ebooklib.ITEM_IMAGE; Ebooklib.get_content := [Byte.x33] |} ];
     Ebooklib.spine := [];
     Ebooklib.get_metadata _ _ := [] |}.

(** An image library that opens every file as a palette image of 3000
    by 1500 pixels. *)
Definition palette_image (data : bytes) : Py.result PIL.Image :=
  inr {| PIL.width := 3000; PIL.height := 1500; PIL.mode := "P"; PIL.raster := data |}.

(** What [c] appends to a log and what it returns do not depend on the
    log it starts from. *)
Definition framed {X A : Type} (c : Py.M (list X) A) : Prop :=
  forall log, c log = ((log ++ fst (c []))%list, snd (c [])).

(** The notifications of the worker about one item that it dequeues. *)
Definition trace_of `{Collaborators} (item : App.QueueItem) : list App.notification :=
  fst (App.process App.record_call item []).

(** The items that the worker dequeues before it leaves its loop. *)
Fixpoint dequeued (turns : list App.turn) : list App.QueueItem :=
  match turns with
  | [] => []
  | App.Stopped :: _ => []
  | App.Timeout :: rest => dequeued rest
  | App.Entry None :: _ => []
  | App.Entry (Some item) :: rest => item :: dequeued rest
  end.

(** The turns that a worker may have met on the queue [entries]: it gets
    the entries oldest first; a [get] may time out before the next entry
    is there; it finds its flag cleared only when the flag is cleared,
    that is, when [running] is false.  The worker need not have come to
    the end of the queue. *)
Inductive reads (running : bool) : list (option App.QueueItem) -> list App.turn -> Prop :=
| reads_waiting entries : reads running entries []
| reads_stopped entries rest :
    running = false -> reads running entries (App.Stopped :: rest)
| reads_timeout entries turns :
    reads running entries turns -> reads running entries (App.Timeout :: turns)
| reads_entry entry entries turns :
    reads running entries turns ->
    reads running (entry :: entries) (App.Entry entry :: turns).

(** The turns that the worker of [app] may have met when the application
    has come to the state [app]. *)
Definition met_by (app : App.EPUBtoPDFApp) (turns : list App.turn) : Prop :=
  reads (App.worker_running app) (App.task_queue app) turns.

(** The last notification about an item, from what the pipeline does
    for it. *)
Definition verdict `{Collaborators} (item : App.QueueItem) : App.notification :=
  match snd (Converter.convert_epub_to_pdf (App.epub_path item) (App.output_path item)
               None tt) with
  | inr _ => (App.id item, App.COMPLETED, 1%Q, "Complete!")
  | inl e => (App.id item, App.FAILED, 0%Q, ("Error: " ++ Py.str e)%string)
  end.

(** * Properties *)

#[local] Open Scope list_scope.

(** ** The models of the Python functions on examples

    The values are those of CPython 3 on a POSIX system. *)

Example basename_of_path : PyStr.basename "OEBPS/images/cover.png" = "cover.png".
Proof. reflexivity. Qed.

Example basename_of_directory : PyStr.basename "images/" = EmptyString.
Proof. reflexivity. Qed.

Example dirname_of_path : PyStr.dirname "OEBPS/text/ch1.xhtml" = "OEBPS/text".
Proof. reflexivity. Qed.

Example dirname_of_root_file : PyStr.dirname "/ch1.xhtml" = "/".
Proof. reflexivity. Qed.

Example dirname_without_slash : PyStr.dirname "ch1.xhtml" = EmptyString.
Proof. reflexivity. Qed.

Example dirname_double_slash : PyStr.dirname "a//b" = "a".
Proof. reflexivity. Qed.

Example join_two : PyStr.join "OEBPS/text" "../images/a.png" = "OEBPS/text/../images/a.png".
Proof. reflexivity. Qed.

Example join_absolute : PyStr.join "OEBPS/text" "/a.png" = "/a.png".
Proof. reflexivity. Qed.

Example normpath_parent : PyStr.normpath "OEBPS/text/../images/./a.png" = "OEBPS/images/a.png".
Proof. reflexivity. Qed.

Example normpath_above : PyStr.normpath "../a.png" = "../a.png".
Proof. reflexivity. Qed.

Example normpath_root_parent : PyStr.normpath "/../a.png" = "/a.png".
Proof. reflexivity. Qed.

Example normpath_two_slashes : PyStr.normpath "//a" = "//a".
Proof. reflexivity. Qed.

Example normpath_empty : PyStr.normpath EmptyString = ".".
Proof. reflexivity. Qed.

Example unquote_escapes : PyStr.unquote "my%20cover%2fa%zz%4" = "my cover/a%zz%4".
Proof. reflexivity. Qed.

(** Escapes that give UTF-8 are decoded. *)
Example unquote_utf8 : PyStr.unquote "caf%C3%A9.png" = "café.png".
Proof. reflexivity. Qed.

(** A byte that is no UTF-8 becomes U+FFFD, so that distinct escapes can
    give the same text. *)
Example unquote_latin1 : PyStr.unquote "caf%E9.png" = ("caf" ++ ufffd ++ ".png")%string.
Proof. reflexivity. Qed.

Example unquote_same : PyStr.unquote "x%E9.png" = PyStr.unquote "x%E8.png".
Proof. reflexivity. Qed.

(** A surrogate gives three U+FFFD, a sequence cut by the end one. *)
Example unquote_surrogate : PyStr.unquote "%ED%A0%80" = (ufffd ++ ufffd ++ ufffd)%string.
Proof. reflexivity. Qed.

Example unquote_cut_short : PyStr.unquote "%F0%9F%98" = ufffd.
Proof. reflexivity. Qed.

(** Text that is not ASCII is kept and separates what is decoded. *)
Example unquote_beside_text : PyStr.unquote "%C3é%A9" = (ufffd ++ "é" ++ ufffd)%string.
Proof. reflexivity. Qed.

Example lstrip_dots_and_slashes :
  PyStr.lstrip [PyStr.dot; PyStr.slash] "../images/.a.png" = "images/.a.png".
Proof. reflexivity. Qed.

Example stem_of_path : PyStr.path_stem "/shelf/book.tar.epub" = "book.tar".
Proof. reflexivity. Qed.

Example stem_of_hidden : PyStr.path_stem "/shelf/.hidden" = ".hidden".
Proof. reflexivity. Qed.

Example stem_trailing_dot : PyStr.path_stem "book." = "book.".
Proof. reflexivity. Qed.

Example suffix_of_path : PyStr.lower (PyStr.path_suffix "images/Cover.PNG") = ".png".
Proof. reflexivity. Qed.

Example with_suffix_pdf : App.with_suffix "/shelf/./a//book.epub" ".pdf" = inr "/shelf/a/book.pdf".
Proof. reflexivity. Qed.

Example with_suffix_of_root :
  App.with_suffix "/" ".pdf"
  = inl (Py.Raised "ValueError" "PosixPath('/') has an empty name").
Proof. reflexivity. Qed.

Example str_of_index : pretty 12%nat = "12".
Proof. reflexivity. Qed.

(** [0.1] is the binary64 number 3602879701896397 / 2^55. *)
Example float_tenth : Float.lit (1 # 10) = (3602879701896397 # 36028797018963968)%Q.
Proof. vm_compute. reflexivity. Qed.

(** [0.1 + 0.2] is 0.30000000000000004. *)
Example float_sum :
  Float.add (Float.lit (1 # 10)) (Float.lit (2 # 10))
  = (1351079888211149 # 4503599627370496)%Q.
Proof. vm_compute. reflexivity. Qed.

(** [0.2 + 0.5 == 0.7] *)
Example float_seven_tenths : Float.add (Float.lit (2 # 10)) (1 # 2) = Float.lit (7 # 10).
Proof. vm_compute. reflexivity. Qed.

(** [int(49 * (1200 / 58800))] is 0: the quotient is rounded below 1/49,
    and the product below 1. *)
Example float_truncation : scaled_height 58800 49 = 0.
Proof. vm_compute. reflexivity. Qed.

(** The progress reported before the third of four chapters. *)
Example progress_half : progress_at 2 4 = Float.lit (45 # 100).
Proof. vm_compute. reflexivity. Qed.

(** ** Binary64 rounding *)

Section FloatFacts.

#[local] Open Scope Q_scope.

Lemma pow2_pos k : 0 < Float.pow2 k.
Proof. unfold Float.pow2. apply Qpower_0_lt. reflexivity. Qed.

Lemma pow2_add a b : Float.pow2 (a + b) == Float.pow2 a * Float.pow2 b.
Proof. unfold Float.pow2. apply Qpower_plus. discriminate. Qed.

Lemma pow2_le a b : (a <= b)%Z -> Float.pow2 a <= Float.pow2 b.
Proof. intros. unfold Float.pow2. apply Qpower_le_compat_l; [assumption|]. discriminate. Qed.

Lemma pow2_Z k : (0 <= k)%Z -> inject_Z (2 ^ k) == Float.pow2 k.
Proof. intros. unfold Float.pow2. rewrite Zpower_Qpower by assumption. reflexivity. Qed.

Lemma rne_Z z : Float.rne (inject_Z z) = z.
Proof.
  unfold Float.rne. rewrite Qfloor_Z.
  assert (E : inject_Z z - inject_Z z == 0) by ring.
  rewrite E. reflexivity.
Qed.

Lemma rne_bounds q : inject_Z (Float.rne q) - (1#2) <= q /\ q <= inject_Z (Float.rne q) + (1#2).
Proof.
  unfold Float.rne.
  pose proof (Qfloor_le q) as L. pose proof (Qlt_floor q) as U.
  rewrite inject_Z_plus in U. change (inject_Z 1) with 1 in U.
  destruct (Qcompare_spec (q - inject_Z (Qfloor q)) (1#2)) as [E|E|E].
  - destruct (Z.even (Qfloor q));
      [| rewrite inject_Z_plus; change (inject_Z 1) with 1]; split; lra.
  - split; lra.
  - rewrite inject_Z_plus. change (inject_Z 1) with 1. split; lra.
Qed.

Lemma rne_le p q : p <= q -> (Float.rne p <= Float.rne q)%Z.
Proof.
  intros Hpq. pose proof (Qfloor_resp_le _ _ Hpq) as F.
  unfold Float.rne.
  destruct (Z.eq_dec (Qfloor p) (Qfloor q)) as [E|NE].
  - rewrite E.
    destruct (Qcompare_spec (p - inject_Z (Qfloor q)) (1#2)) as [E1|E1|E1];
    destruct (Qcompare_spec (q - inject_Z (Qfloor q)) (1#2)) as [E2|E2|E2];
    try destruct (Z.even (Qfloor q)); try lia; exfalso; lra.
  - assert (Qfloor p + 1 <= Qfloor q)%Z by lia.
    destruct (Qcompare (p - inject_Z (Qfloor p)) (1#2));
    destruct (Qcompare (q - inject_Z (Qfloor q)) (1#2));
    try destruct (Z.even (Qfloor p)); try destruct (Z.even (Qfloor q)); lia.
Qed.

Lemma pow2_nz k : ~ Float.pow2 k == 0.
Proof. pose proof (pow2_pos k). lra. Qed.

Lemma exponent_le x y : x <= y -> (Float.exponent x <= Float.exponent y)%Z.
Proof.
  intros Hxy. unfold Float.exponent.
  assert (L : x * Float.pow2 1074 <= y * Float.pow2 1074).
  { apply Qmult_le_compat_r; [assumption|]. apply Qlt_le_weak, pow2_pos. }
  apply Qfloor_resp_le in L. apply Z.log2_le_mono in L. lia.
Qed.

Lemma exponent_min x : (-1074 <= Float.exponent x)%Z.
Proof. unfold Float.exponent. lia. Qed.

(** [x < 2^(e+53)] for [e] the exponent of [x]. *)
Lemma below_binade x : x < Float.pow2 (Float.exponent x + 53).
Proof.
  set (n := Qfloor (x * Float.pow2 1074)).
  assert (U : x * Float.pow2 1074 < inject_Z (n + 1)) by apply Qlt_floor.
  assert (B : inject_Z (n + 1) <= Float.pow2 (Float.exponent x + 53 + 1074)).
  { destruct (Z_lt_le_dec 0 n) as [Hn|Hn].
    - pose proof (Z.log2_spec n Hn) as [_ Hs].
      assert (n + 1 <= 2 ^ Z.succ (Z.log2 n))%Z as Hz by lia.
      rewrite Zle_Qle in Hz. rewrite pow2_Z in Hz by (pose proof (Z.log2_nonneg n); lia).
      eapply Qle_trans; [exact Hz|]. apply pow2_le.
      unfold Float.exponent. fold n. lia.
    - assert (n + 1 <= 2 ^ 0)%Z as Hz by (simpl; lia).
      rewrite Zle_Qle in Hz. rewrite pow2_Z in Hz by lia.
      eapply Qle_trans; [exact Hz|]. apply pow2_le.
      pose proof (exponent_min x). lia. }
  rewrite pow2_add in B.
  pose proof (pow2_pos 1074) as P.
  assert (x * Float.pow2 1074 < Float.pow2 (Float.exponent x + 53) * Float.pow2 1074)
    by (eapply Qlt_le_trans; eassumption).
  apply Qmult_lt_r in H; assumption.
Qed.

(** [2^(e+52) <= x] as soon as [x] is in the normal range. *)
Lemma above_binade x :
  Float.pow2 (-1022) <= x -> Float.pow2 (Float.exponent x + 52) <= x.
Proof.
  intros Hx.
  set (n := Qfloor (x * Float.pow2 1074)).
  assert (L : inject_Z n <= x * Float.pow2 1074) by apply Qfloor_le.
  assert (N : (2 ^ 52 <= n)%Z).
  { assert (Float.pow2 52 <= x * Float.pow2 1074).
    { replace 52%Z with (-1022 + 1074)%Z by reflexivity. rewrite pow2_add.
      apply Qmult_le_compat_r; [assumption|]. apply Qlt_le_weak, pow2_pos. }
    rewrite <- pow2_Z in H by lia.
    apply Qfloor_resp_le in H. rewrite Qfloor_Z in H. exact H. }
  assert (Hn : (0 < n)%Z) by lia.
  pose proof (Z.log2_spec n Hn) as [Hs _].
  assert (52 <= Z.log2 n)%Z as H52.
  { apply Z.log2_le_pow2; lia. }
  assert (E : Float.exponent x = (Z.log2 n - 1126)%Z).
  { unfold Float.exponent. fold n. lia. }
  rewrite E.
  rewrite Zle_Qle in Hs. rewrite pow2_Z in Hs by lia.
  assert (Float.pow2 (Z.log2 n - 1126 + 52) * Float.pow2 1074 <= x * Float.pow2 1074).
  { rewrite <- pow2_add. replace (Z.log2 n - 1126 + 52 + 1074)%Z with (Z.log2 n) by lia.
    eapply Qle_trans; eassumption. }
  apply Qmult_le_r in H; [assumption | apply pow2_pos].
Qed.

Lemma normal_above x : (-1074 < Float.exponent x)%Z -> Float.pow2 (-1022) <= x.
Proof.
  intros He. unfold Float.exponent in He.
  set (n := Qfloor (x * Float.pow2 1074)) in *.
  assert (52 < Z.log2 n)%Z by lia.
  assert (Hn : (0 < n)%Z).
  { destruct (Z_lt_le_dec 0 n); [assumption|]. rewrite Z.log2_nonpos in H by assumption. lia. }
  pose proof (Z.log2_spec n Hn) as [Hs _].
  assert (2 ^ 52 <= n)%Z.
  { eapply Z.le_trans; [|exact Hs]. apply Z.pow_le_mono_r; lia. }
  rewrite Zle_Qle in H0. rewrite pow2_Z in H0 by lia.
  assert (L : inject_Z n <= x * Float.pow2 1074) by apply Qfloor_le.
  assert (Float.pow2 (-1022) * Float.pow2 1074 <= x * Float.pow2 1074).
  { rewrite <- pow2_add. simpl (-1022 + 1074)%Z. eapply Qle_trans; eassumption. }
  apply Qmult_le_r in H1; [assumption | apply pow2_pos].
Qed.

Lemma round_pos_le x y : 0 < x -> x <= y -> Float.round_pos x <= Float.round_pos y.
Proof.
  intros Hx Hxy. unfold Float.round_pos.
  pose proof (exponent_le _ _ Hxy) as He.
  pose proof (pow2_pos (Float.exponent x)) as Px.
  pose proof (pow2_pos (Float.exponent y)) as Py.
  destruct (Z.eq_dec (Float.exponent x) (Float.exponent y)) as [E|NE].
  - rewrite E. apply Qmult_le_compat_r; [|lra].
    rewrite <- Zle_Qle. apply rne_le.
    apply Qmult_le_compat_r; [assumption|]. apply Qlt_le_weak, Qinv_lt_0_compat. assumption.
  - assert (Float.exponent x + 1 <= Float.exponent y)%Z as Hlt by lia.
    (* the rounded significand of x is at most 2^53 *)
    assert (Ux : (Float.rne (x / Float.pow2 (Float.exponent x)) <= 2 ^ 53)%Z).
    { rewrite <- (rne_Z (2 ^ 53)). apply rne_le.
      rewrite pow2_Z by lia.
      pose proof (below_binade x) as B. rewrite Z.add_comm, pow2_add in B.
      apply Qle_shift_div_r; [assumption|]. lra. }
    (* that of y at least 2^52 *)
    assert (Ly : (2 ^ 52 <= Float.rne (y / Float.pow2 (Float.exponent y)))%Z).
    { rewrite <- (rne_Z (2 ^ 52)) at 1. apply rne_le.
      rewrite pow2_Z by lia.
      assert (Float.pow2 (-1022) <= y) as Hn.
      { apply normal_above. pose proof (exponent_min x). lia. }
      pose proof (above_binade y Hn) as B. rewrite Z.add_comm, pow2_add in B.
      apply Qle_shift_div_l; [assumption|]. lra. }
    rewrite Zle_Qle in Ux, Ly. rewrite pow2_Z in Ux, Ly by lia.
    apply Qle_trans with (Float.pow2 53 * Float.pow2 (Float.exponent x)).
    { apply Qmult_le_compat_r; [assumption | lra]. }
    apply Qle_trans with (Float.pow2 52 * Float.pow2 (Float.exponent y)).
    { rewrite <- !pow2_add. apply pow2_le. lia. }
    apply Qmult_le_compat_r; [assumption | lra].
Qed.

Lemma round_pos_nonneg x : 0 <= x -> 0 <= Float.round_pos x.
Proof.
  intros Hx. unfold Float.round_pos.
  pose proof (pow2_pos (Float.exponent x)) as P.
  assert (D : inject_Z 0 <= x / Float.pow2 (Float.exponent x)).
  { apply Qle_shift_div_l; [assumption|]. change (inject_Z 0) with 0. lra. }
  apply rne_le in D. rewrite rne_Z in D. rewrite Zle_Qle in D.
  apply Qmult_le_0_compat; [exact D | lra].
Qed.

Lemma round_raw_correct x : Float.round x == Float.round_raw x.
Proof. unfold Float.round, Float.round_raw. apply Qred_correct. Qed.

Lemma round_raw_le x y : x <= y -> Float.round_raw x <= Float.round_raw y.
Proof.
  intros Hxy. unfold Float.round_raw.
  destruct (Qcompare_spec x 0) as [Ex|Ex|Ex]; destruct (Qcompare_spec y 0) as [Ey|Ey|Ey];
    try (exfalso; lra).
  - lra.
  - apply round_pos_nonneg. lra.
  - pose proof (round_pos_nonneg (- x)). lra.
  - assert (Float.round_pos (- y) <= Float.round_pos (- x)) by (apply round_pos_le; lra). lra.
  - pose proof (round_pos_nonneg (- x)). pose proof (round_pos_nonneg y). lra.
  - apply round_pos_le; assumption.
Qed.

Lemma round_le x y : x <= y -> Float.round x <= Float.round y.
Proof. intros. rewrite !round_raw_correct. apply round_raw_le. assumption. Qed.

Lemma round_proper x y : x == y -> Float.round x = Float.round y.
Proof.
  intros E. unfold Float.round. apply Qred_complete. fold (Float.round_raw x) (Float.round_raw y).
  apply Qle_antisym; apply round_raw_le; lra.
Qed.

Lemma round_nonneg x : 0 <= x -> 0 <= Float.round x.
Proof. intros. change 0 with (Float.round 0). apply round_le. assumption. Qed.

(** In the normal range, rounding moves a number by at most [2^-53] of
    itself. *)
Lemma round_error x :
  Float.pow2 (-1022) <= x ->
  x * (1 - Float.pow2 (-53)) <= Float.round x /\ Float.round x <= x * (1 + Float.pow2 (-53)).
Proof.
  intros Hn. rewrite round_raw_correct. unfold Float.round_raw.
  pose proof (pow2_pos (-1022)) as P0.
  destruct (Qcompare_spec x 0) as [Ex|Ex|Ex]; try (exfalso; lra).
  unfold Float.round_pos.
  set (e := Float.exponent x).
  pose proof (pow2_pos e) as Pe.
  pose proof (rne_bounds (x / Float.pow2 e)) as [L U].
  pose proof (above_binade x Hn) as B. fold e in B.
  set (m := inject_Z (Float.rne (x / Float.pow2 e))) in *.
  assert (S : x == (x / Float.pow2 e) * Float.pow2 e) by (field; lra).
  assert (H1 : Float.pow2 e * (1 # 2) <= x * Float.pow2 (-53)).
  { assert (Float.pow2 (e + 52) * Float.pow2 (-53) <= x * Float.pow2 (-53)).
    { apply Qmult_le_compat_r; [assumption|]. apply Qlt_le_weak, pow2_pos. }
    rewrite <- pow2_add in H. replace (e + 52 + -53)%Z with (e + -1)%Z in H by lia.
    rewrite pow2_add in H. change (Float.pow2 (-1)) with (1 # 2) in H. exact H. }
  assert (H2 : (m - (1 # 2)) * Float.pow2 e <= (x / Float.pow2 e) * Float.pow2 e)
    by (apply Qmult_le_compat_r; lra).
  assert (H3 : (x / Float.pow2 e) * Float.pow2 e <= (m + (1 # 2)) * Float.pow2 e)
    by (apply Qmult_le_compat_r; lra).
  rewrite <- S in H2, H3.
  split; lra.
Qed.

Lemma scaled_height_bounds (w h : Z) :
  (1200 < w)%Z -> (0 <= h)%Z -> (w * h <= 178956970)%Z ->
  (1200 * h - w <= scaled_height w h * w /\ scaled_height w h * w <= 1200 * h)%Z.
Proof.
  intros Hw Hh Hwh. unfold scaled_height, ratio_of, Float.mul, Float.of_int.
  destruct (Z.eq_dec h 0%Z) as [->|Hnz].
  - match goal with |- context [Float.to_int ?x] => assert (Float.to_int x = 0%Z) as -> end; [|lia].
    change (Float.round (inject_Z 0)) with 0.
    rewrite (round_proper _ 0) by ring. reflexivity.
  - assert (H1 : (1 <= h)%Z) by lia.
    assert (Hw' : (w <= 178956970)%Z) by nia.
    assert (Hh' : (h <= 149130)%Z) by nia.
    set (hq := inject_Z h). set (wq := inject_Z w).
    assert (Qh1 : 1 <= hq) by (unfold hq; rewrite Zle_Qle in H1; exact H1).
    assert (Qh2 : hq <= 149130) by (unfold hq; rewrite Zle_Qle in Hh'; exact Hh').
    assert (Qw1 : 1200 < wq) by (unfold wq; rewrite Zlt_Qlt in Hw; exact Hw).
    assert (Qw2 : wq <= 178956970) by (unfold wq; rewrite Zle_Qle in Hw'; exact Hw').
    set (c := inject_Z 1200 / wq).
    assert (Cw : c * wq == 1200) by (unfold c; change (inject_Z 1200) with 1200; field; lra).
    assert (C1 : (1 # 178956970) <= c).
    { unfold c. apply Qle_shift_div_l; [lra|]. change (inject_Z 1200) with 1200. lra. }
    assert (C2 : c <= 1).
    { unfold c. apply Qle_shift_div_r; [lra|]. change (inject_Z 1200) with 1200. lra. }
    assert (Pn : Float.pow2 (-1022) <= 1 # 100000000000000000000).
    { vm_compute. discriminate. }
    assert (U : Float.ulp53 == 1 # 9007199254740992) by reflexivity.
    destruct (round_error hq) as [A1 A2]; [lra|].
    destruct (round_error c) as [R1 R2]; [lra|].
    fold Float.ulp53 in A1, A2, R1, R2.
    set (a := Float.round hq) in *. set (r := Float.round c) in *.
    assert (AR1 : hq * (1 - Float.ulp53) * (c * (1 - Float.ulp53)) <= a * r).
    { apply Qmult_le_compat_nonneg; split; try assumption; nra. }
    assert (AR2 : a * r <= hq * (1 + Float.ulp53) * (c * (1 + Float.ulp53))).
    { apply Qmult_le_compat_nonneg; split; try assumption; nra. }
    assert (ARn : Float.pow2 (-1022) <= a * r) by nra.
    destruct (round_error (a * r) ARn) as [P1 P2]. fold Float.ulp53 in P1, P2.
    set (p := Float.round (a * r)) in *.
    assert (Pp : 0 <= p) by nra.
    set (nh := Float.to_int p).
    assert (E : nh = Qfloor p).
    { unfold nh, Float.to_int.
      destruct (Qle_bool 0 p) eqn:B; [reflexivity|].
      apply Qle_bool_iff in Pp. congruence. }
    pose proof (Qfloor_le p) as F1. pose proof (Qlt_floor p) as F2.
    rewrite <- E in F1, F2. rewrite inject_Z_plus in F2. change (inject_Z 1) with 1 in F2.
    set (nq := inject_Z nh) in *.
    assert (T1 : hq * c * ((1 - Float.ulp53) * (1 - Float.ulp53) * (1 - Float.ulp53)) <= p) by nra.
    assert (T2 : p <= hq * c * ((1 + Float.ulp53) * (1 + Float.ulp53) * (1 + Float.ulp53))) by nra.
    assert (W1 : hq * 1200 * ((1 - Float.ulp53) * (1 - Float.ulp53) * (1 - Float.ulp53)) <= p * wq) by nra.
    assert (W2 : p * wq <= hq * 1200 * ((1 + Float.ulp53) * (1 + Float.ulp53) * (1 + Float.ulp53))) by nra.
    assert (G1 : 1200 * hq - wq - 1 < nq * wq) by nra.
    assert (G2 : nq * wq < 1200 * hq + 1) by nra.
    assert (Z1 : (1200 * h - w - 1 < nh * w)%Z).
    { rewrite Zlt_Qlt. unfold Z.sub. rewrite !inject_Z_plus, !inject_Z_opp, !inject_Z_mult.
      fold hq wq nq. change (inject_Z 1200) with 1200. change (inject_Z 1) with 1. lra. }
    assert (Z2 : (nh * w < 1200 * h + 1)%Z).
    { rewrite Zlt_Qlt. rewrite !inject_Z_plus, !inject_Z_mult.
      fold hq wq nq. change (inject_Z 1200) with 1200. change (inject_Z 1) with 1. lra. }
    lia.
Qed.

End FloatFacts.

(** ** Sequences that never go down *)

Lemma chain_weaken lo lo' l hi :
  (lo' <= lo)%Q -> chain lo l hi -> chain lo' l hi.
Proof.
destruct l as [|x r]; simpl.
- intros. eapply Qle_trans; eassumption.
- intros ? [? ?]. split; [eapply Qle_trans; eassumption | assumption].
Qed.

Lemma chain_app lo l1 mid l2 hi :
  chain lo l1 mid -> chain mid l2 hi -> chain lo (l1 ++ l2) hi.
Proof.
revert lo. induction l1 as [|x r IH]; simpl; intros lo H1 H2.
- eapply chain_weaken; eassumption.
- destruct H1 as [? ?]. split; [assumption | apply IH; assumption].
Qed.

Lemma chain_sorted lo l hi :
  chain lo l hi -> non_decreasing (lo :: l ++ [hi]) = true.
Proof.
revert lo. induction l as [|x r IH]; intros lo H.
- simpl in *. apply Qle_bool_iff in H. rewrite H. reflexivity.
- destruct H as [H1 H2]. specialize (IH x H2).
  change (Qle_bool lo x && non_decreasing (x :: r ++ [hi]) = true).
  apply Qle_bool_iff in H1. rewrite H1, IH. reflexivity.
Qed.

Lemma non_decreasing_prefix l1 l2 :
  non_decreasing (l1 ++ l2) = true -> non_decreasing l1 = true.
Proof.
induction l1 as [|x r IH]; [reflexivity|].
destruct r as [|y r']; [reflexivity|].
change (Qle_bool x y && non_decreasing ((y :: r') ++ l2) = true
        -> Qle_bool x y && non_decreasing (y :: r') = true).
intros H. apply andb_true_iff in H as [H1 H2].
rewrite H1, (IH H2). reflexivity.
Qed.

Lemma final_snoc l x : final (l ++ [x]) = Some x.
Proof.
induction l as [|y r IH]; [reflexivity|].
simpl. destruct (r ++ [x])%list eqn:E; [destruct r; discriminate | exact IH].
Qed.

Lemma fractions_app l1 l2 : fractions (l1 ++ l2) = fractions l1 ++ fractions l2.
Proof. apply List.map_app. Qed.

(** ** The fractions of the chapter loop *)

Section ProgressFacts.

#[local] Open Scope Q_scope.

Lemma max_total_pos (total_items : nat) :
  0 < inject_Z (Z.max (Z.of_nat total_items) 1).
Proof. replace 0 with (inject_Z 0) by reflexivity. rewrite <- Zlt_Qlt. lia. Qed.

Lemma chapter_progress_value idx total_items :
  Converter.chapter_progress idx total_items = inr (progress_at idx total_items).
Proof.
unfold Converter.chapter_progress, Py.truediv, progress_at.
destruct (Z.eqb_spec (Z.max (Z.of_nat total_items) 1) 0%Z) as [E|_]; [lia | reflexivity].
Qed.

Lemma progress_at_mono idx idx' total_items :
  (idx <= idx')%nat -> progress_at idx total_items <= progress_at idx' total_items.
Proof.
intros Hle. unfold progress_at, Float.add, Float.mul.
pose proof (max_total_pos total_items) as Hm.
apply round_le, Qplus_le_r, round_le, Qmult_le_l; [reflexivity|].
apply round_le, Qmult_le_compat_r.
- rewrite <- Zle_Qle. lia.
- apply Qlt_le_weak, Qinv_lt_0_compat, Hm.
Qed.

Lemma progress_at_lower idx total_items :
  Float.lit (2 # 10) <= progress_at idx total_items.
Proof.
unfold progress_at, Float.add, Float.mul.
pose proof (max_total_pos total_items) as Hm.
assert (Hq : 0 <= inject_Z (Z.of_nat idx) / inject_Z (Z.max (Z.of_nat total_items) 1)).
{ apply Qle_shift_div_l; [exact Hm|].
  assert (0 <= inject_Z (Z.of_nat idx)).
  { replace 0 with (inject_Z 0) by reflexivity. rewrite <- Zle_Qle. lia. }
  lra. }
apply round_nonneg in Hq.
assert (Hh : 0 <= Float.round ((1 # 2) * Float.round
           (inject_Z (Z.of_nat idx) / inject_Z (Z.max (Z.of_nat total_items) 1)))).
{ apply round_nonneg. lra. }
assert (Hi : Float.round (Float.lit (2 # 10)) = Float.lit (2 # 10))
  by (vm_compute; reflexivity).
rewrite <- Hi at 1. apply round_le. lra.
Qed.

Lemma progress_at_upper idx total_items :
  (idx <= total_items)%nat -> progress_at idx total_items <= Float.lit (7 # 10).
Proof.
intros Hle. unfold progress_at, Float.add, Float.mul.
pose proof (max_total_pos total_items) as Hm.
assert (Hq : inject_Z (Z.of_nat idx) / inject_Z (Z.max (Z.of_nat total_items) 1) <= 1).
{ apply Qle_shift_div_r; [exact Hm|]. rewrite Qmult_1_l, <- Zle_Qle. lia. }
apply round_le in Hq.
assert (H1 : Float.round 1 = 1) by (vm_compute; reflexivity).
rewrite H1 in Hq.
assert (Hh : Float.round ((1 # 2) * Float.round
           (inject_Z (Z.of_nat idx) / inject_Z (Z.max (Z.of_nat total_items) 1)))
             <= 1 # 2).
{ assert (H2 : Float.round (1 # 2) = 1 # 2) by (vm_compute; reflexivity).
  rewrite <- H2 at 2. apply round_le. lra. }
assert (H7 : Float.round (Float.lit (2 # 10) + (1 # 2)) = Float.lit (7 # 10))
  by (vm_compute; reflexivity).
rewrite <- H7. apply round_le. lra.
Qed.

End ProgressFacts.

(** ** The progress reports of [convert] *)

Section RecordedProgress.

Context `{Collaborators}.

Lemma report_recording progress message log :
  Converter._report_progress recording progress message log
  = (log ++ [(progress, message)], inr tt).
Proof. reflexivity. Qed.

Lemma chapters_log images total items :
  forall idx parts log, (idx + List.length items <= total)%nat ->
  exists ext,
    fst (Converter.process_chapters recording images total idx items parts log) = log ++ ext
    /\ chain (progress_at idx total) (fractions ext) (Float.lit (7 # 10)).
Proof.
induction items as [|item rest IH]; intros idx parts log Hlen; cbn [List.length] in Hlen.
- exists []. split; [cbn; rewrite app_nil_r; reflexivity|].
  apply progress_at_upper. lia.
- cbn [Converter.process_chapters].
  destruct (Ebooklib.item_type_eqb (Ebooklib.get_type item) Ebooklib.ITEM_DOCUMENT).
  + rewrite chapter_progress_value.
    cbv [Py.bind Py.call]. rewrite report_recording.
    set (msg := ("Processing chapter " ++ _)%string).
    assert (Hone : chain (progress_at idx total) (fractions [(progress_at idx total, msg)])
                         (Float.lit (7 # 10))).
    { split; [apply Qle_refl | apply progress_at_upper; lia]. }
    destruct (Converter._process_html_content _ _ _) as [e|processed].
    { exists [(progress_at idx total, msg)]. split; [reflexivity | exact Hone]. }
    destruct (BeautifulSoup processed) as [e|soup].
    { exists [(progress_at idx total, msg)]. split; [reflexivity | exact Hone]. }
    match goal with
    | |- context [Converter.process_chapters _ _ _ _ _ ?p ?l] =>
        destruct (IH (S idx) p l) as (ext & Hext & Hchain); [lia|]
    end.
    exists ((progress_at idx total, msg) :: ext). split.
    * rewrite Hext, <- app_assoc. reflexivity.
    * split; [apply Qle_refl|].
      eapply chain_weaken; [|exact Hchain]. apply progress_at_mono. lia.
  + destruct (IH (S idx) parts log) as (ext & Hext & Hchain); [lia|].
    exists ext. split; [exact Hext|].
    eapply chain_weaken; [|exact Hchain]. apply progress_at_mono. lia.
Qed.

(** The log after [assemble]: the fractions reported climb from the 0.2
    reported before to 0.7. *)
Lemma assemble_log book images epub_path log :
  exists ext,
    fst (Converter.assemble recording book images epub_path log) = log ++ ext
    /\ chain (Float.lit (2 # 10)) (fractions ext) (Float.lit (7 # 10))
    /\ match snd (Converter.assemble recording book images epub_path log) with
       | inr _ => final (fractions (log ++ ext)) = Some (Float.lit (7 # 10))
       | inl _ => True
       end.
Proof.
unfold Converter.assemble.
set (items := Converter.spine_items_of book).
set (parts := [Converter.title_page _ _]).
destruct (chapters_log images (List.length items) items 0 parts log) as (ext & Hext & Hchain);
  [simpl; lia|].
apply (chain_weaken _ (Float.lit (2 # 10))) in Hchain; [|apply progress_at_lower].
cbv [Py.bind].
destruct (Converter.process_chapters _ _ _ _ _ _ _) as [log1 [e|parts']]; cbn [fst] in Hext.
- exists ext. cbn [fst snd]. auto.
- rewrite report_recording. cbv [Py.ret]. cbn [fst snd].
  exists (ext ++ [(Float.lit (7 # 10), "Generating PDF...")]).
  rewrite Hext, <- app_assoc. split; [reflexivity|]. split.
  + rewrite fractions_app. eapply chain_app; [exact Hchain|]. simpl. split; apply Qle_refl.
  + rewrite app_assoc, fractions_app. apply final_snoc.
Qed.


Lemma chain_checkpoints :
  chain 0 [Float.lit (1 # 10); Float.lit (2 # 10)] (Float.lit (2 # 10))
  /\ chain (Float.lit (7 # 10)) [Float.lit (85 # 100)] 1.
Proof. vm_compute. intuition discriminate. Qed.

(** C1, as the code has it.  With a progress callback, the fractions that
    [convert] reports never go down and end with exactly 1.0 when it
    returns; when it raises, the last report is the error at exactly 0.0,
    and the fractions reported before it never go down. *)
Theorem convert_progress_sequence epub_path output_path :
  match Converter.convert recording epub_path output_path [] with
  | (log, inr _) =>
      non_decreasing (fractions log) = true /\ final (fractions log) = Some 1%Q
  | (log, inl e) =>
      exists before,
        log = before ++ [(0%Q, ("Error: " ++ Py.str e)%string)]
        /\ non_decreasing (fractions before) = true
  end.
Proof.
destruct chain_checkpoints as [Hstart Hend].
unfold Converter.convert, Converter.convert_body, Py.try_except.
cbv [Py.bind Py.call Py.raise Py.ret]. rewrite ?report_recording.
destruct (read_epub epub_path) as [e|book].
{ rewrite ?report_recording. eexists. split; reflexivity. }
set (log3 := (([] ++ _) ++ _) ++ _).
destruct (assemble_log book (Converter._extract_images book) epub_path log3)
  as (ext & Hext & Hchain & Hlast).
assert (Hsorted : non_decreasing
          (fractions log3 ++ fractions ext ++ [Float.lit (85 # 100); 1%Q]) = true).
{ replace (fractions log3 ++ fractions ext ++ [Float.lit (85 # 100); 1%Q])
    with (0%Q :: ([Float.lit (1 # 10); Float.lit (2 # 10)] ++ fractions ext
                   ++ [Float.lit (85 # 100)]) ++ [1%Q])
    by (subst log3; cbn [fractions List.map fst app]; rewrite <- !app_assoc; reflexivity).
  apply (chain_sorted 0 ([Float.lit (1 # 10); Float.lit (2 # 10)] ++ fractions ext
                          ++ [Float.lit (85 # 100)]) 1).
  eapply chain_app; [exact Hstart|].
  eapply chain_app; [exact Hchain | exact Hend]. }
assert (Hpre : forall tail keep, fractions ext ++ [Float.lit (85 # 100); 1%Q] = keep ++ tail ->
               non_decreasing (fractions log3 ++ keep) = true).
{ intros tail keep E. rewrite E, app_assoc in Hsorted.
  eapply non_decreasing_prefix. exact Hsorted. }
destruct (Converter.assemble _ _ _ _ _) as [log4 [e|full_html]]; cbn [fst snd] in *; subst log4.
{ rewrite ?report_recording. eexists. split; [reflexivity|].
  rewrite fractions_app. apply (Hpre [Float.lit (85 # 100); 1%Q]). reflexivity. }
destruct (HTML full_html) as [e|html_doc].
{ rewrite ?report_recording. eexists. split; [reflexivity|].
  rewrite fractions_app. apply (Hpre [Float.lit (85 # 100); 1%Q]). reflexivity. }
destruct (CSS Converter._get_base_css) as [e|css].
{ rewrite ?report_recording. eexists. split; [reflexivity|].
  rewrite fractions_app. apply (Hpre [Float.lit (85 # 100); 1%Q]). reflexivity. }
rewrite ?report_recording.
destruct (write_pdf html_doc output_path [css]) as [e|[]].
{ rewrite ?report_recording. eexists. split; [reflexivity|].
  rewrite !fractions_app, <- app_assoc. apply (Hpre [1%Q]).
  rewrite <- app_assoc. reflexivity. }
rewrite ?report_recording. split.
- rewrite !fractions_app, <- !app_assoc. exact Hsorted.
- rewrite fractions_app. apply final_snoc.
Qed.

End RecordedProgress.

(** C1 fails for "every job": when the destination cannot be written,
    the fractions reported are 0, 0.1, 0.2, 0.7, 0.85 and then the 0 of
    the error, which is not a sequence that never goes down. *)
Lemma progress_falls_on_failure :
  let collaborators :=
    shelf_collaborators {[ "book.epub" := empty_book ]} unreadable (fun _ => true) in
  fractions (fst (Converter.convert recording "book.epub" "out.pdf" []))
  = [0%Q; Float.lit (1 # 10); Float.lit (2 # 10); Float.lit (7 # 10);
     Float.lit (85 # 100); 0%Q]
  /\ non_decreasing (fractions (fst (Converter.convert recording "book.epub" "out.pdf" [])))
     = false.
Proof. split; vm_compute; reflexivity. Qed.


(** ** What a callback that appends makes of the pipeline *)

Section Appending.

Context `{Collaborators}.
Context {X : Type}.
Variable f : Q -> string -> X.
Variable P : X -> Prop.
Hypothesis Hf : forall progress message, P (f progress message).

#[local] Abbreviation appending := (appending f).
#[local] Abbreviation appends := (appends P).

Lemma appends_ret {A} (a : A) : appends (Py.ret a).
Proof. intros log. exists []. rewrite app_nil_r. split; [reflexivity | constructor]. Qed.

Lemma appends_raise {A} e : appends (Py.raise (A := A) e).
Proof. intros log. exists []. rewrite app_nil_r. split; [reflexivity | constructor]. Qed.

Lemma appends_call {A} (r : Py.result A) : appends (Py.call r).
Proof. intros log. exists []. rewrite app_nil_r. split; [reflexivity | constructor]. Qed.

Lemma appends_bind {A B} (c : Py.M (list X) A) (k : A -> Py.M (list X) B) :
  appends c -> (forall a, appends (k a)) -> appends (Py.bind c k).
Proof.
intros Hc Hk log. destruct (Hc log) as (ext & E & F). unfold Py.bind.
destruct (c log) as [log1 [e|a]]; cbn [fst] in E; subst log1.
- exists ext. split; [reflexivity | assumption].
- destruct (Hk a (log ++ ext)) as (ext' & E' & F').
  exists (ext ++ ext'). rewrite E', app_assoc. split; [reflexivity|].
  apply Forall_app; split; assumption.
Qed.

Lemma appends_try {A} (c : Py.M (list X) A) (h : Py.exn -> Py.M (list X) A) :
  appends c -> (forall e, appends (h e)) -> appends (Py.try_except c h).
Proof.
intros Hc Hh log. destruct (Hc log) as (ext & E & F). unfold Py.try_except.
destruct (c log) as [log1 [e|a]]; cbn [fst] in E; subst log1.
- destruct (Hh e (log ++ ext)) as (ext' & E' & F').
  exists (ext ++ ext'). rewrite E', app_assoc. split; [reflexivity|].
  apply Forall_app; split; assumption.
- exists ext. split; [reflexivity | assumption].
Qed.

Lemma appends_report progress message :
  appends (Converter._report_progress appending progress message).
Proof.
intros log. exists [f progress message]. split; [reflexivity|].
constructor; [apply Hf | constructor].
Qed.

Lemma appends_chapters images total items :
  forall idx parts, appends (Converter.process_chapters appending images total idx items parts).
Proof.
induction items as [|item rest IH]; intros idx parts; cbn [Converter.process_chapters].
- apply appends_ret.
- destruct (Ebooklib.item_type_eqb _ _); [|apply IH].
  apply appends_bind; [apply appends_call|]. intros progress.
  apply appends_bind; [apply appends_report|]. intros _.
  apply appends_bind; [apply appends_call|]. intros processed.
  apply appends_bind; [apply appends_call|]. intros soup.
  apply IH.
Qed.

Lemma appends_assemble book images epub_path :
  appends (Converter.assemble appending book images epub_path).
Proof.
unfold Converter.assemble.
apply appends_bind; [apply appends_chapters|]. intros parts.
apply appends_bind; [apply appends_report|]. intros _.
apply appends_ret.
Qed.

Lemma appends_after_opening epub_path output_path :
  appends (Converter.after_opening appending epub_path output_path).
Proof.
unfold Converter.after_opening.
repeat first
  [ apply appends_ret
  | apply appends_assemble
  | apply appends_bind; [first [apply appends_call | apply appends_report | apply appends_assemble] | intros ? ] ].
Qed.

Lemma appends_on_error e : appends (Converter.on_error appending e).
Proof.
apply appends_bind; [apply appends_report | intros; apply appends_raise].
Qed.

(** [convert] first appends the report of the opening, then only
    reports. *)
Lemma convert_appends epub_path output_path log :
  exists ext,
    fst (Converter.convert appending epub_path output_path log)
    = log ++ f 0%Q "Opening EPUB file..." :: ext
    /\ Forall P ext.
Proof.
destruct (appends_try (Converter.after_opening appending epub_path output_path)
            (Converter.on_error appending)
            (appends_after_opening epub_path output_path) appends_on_error
            (log ++ [f 0%Q "Opening EPUB file..."])) as (ext & E & F).
exists ext. split; [|exact F].
rewrite <- app_assoc in E. exact E.
Qed.

End Appending.

(** ** The notifications of the worker *)

Section WorkerFacts.

Context `{Collaborators}.

Lemma process_log item log :
  exists mid last,
    fst (App.process App.record_call item log)
    = log ++ starting (App.id item) :: opening (App.id item) :: mid ++ [last]
    /\ Forall (converting_of (App.id item)) mid
    /\ outcome_of (App.id item) last.
Proof.
unfold App.process, Py.try_except, Py.bind, Py.effect, App.record_call.
destruct (convert_appends (fun p m => (App.id item, App.CONVERTING, p, m))
            (converting_of (App.id item)) (fun _ _ => conj eq_refl eq_refl)
            (App.epub_path item) (App.output_path item)
            (log ++ [(App.id item, App.CONVERTING, 0%Q, "Starting conversion...")]))
  as (mid & E & F).
change (Converter.convert (appending _) ?p ?o ?l)
  with (Converter.convert_epub_to_pdf p o
          (Some (fun progress message =>
                   Py.effect (App.record_call (App.id item) App.CONVERTING progress message)))
          l) in E.
unfold App.record_call, Py.effect in E.
destruct (Converter.convert_epub_to_pdf _ _ _ _) as [log1 [e|b]]; cbn [fst] in E; subst log1.
- exists mid, (App.id item, App.FAILED, 0%Q, ("Error: " ++ Py.str e)%string).
  split; [|split; [exact F | right; eexists; reflexivity]].
  cbn [fst]. rewrite <- !app_assoc. reflexivity.
- exists mid, (App.id item, App.COMPLETED, 1%Q, "Complete!").
  split; [|split; [exact F | left; reflexivity]].
  cbn [fst]. rewrite <- !app_assoc. reflexivity.
Qed.

Lemma about_app job l1 l2 : about job (l1 ++ l2) = about job l1 ++ about job l2.
Proof. apply List.filter_app. Qed.

Lemma about_same job l :
  Forall (fun n => App.job_of n = job) l -> about job l = l.
Proof.
induction 1 as [|n l Hn _ IH]; [reflexivity|].
unfold about in *. cbn [List.filter]. rewrite IH.
subst job. rewrite String.eqb_refl. reflexivity.
Qed.

Lemma about_other job job' l :
  job' <> job -> Forall (fun n => App.job_of n = job') l -> about job l = [].
Proof.
intros Hne. induction 1 as [|n l Hn _ IH]; [reflexivity|].
unfold about in *. cbn [List.filter]. rewrite IH.
destruct (String.eqb_spec (App.job_of n) job); [congruence | reflexivity].
Qed.

Lemma follows_converting mid last :
  Forall (fun s => s = App.CONVERTING) mid -> terminal last = true ->
  follows App.CONVERTING (mid ++ [last]) = true.
Proof.
induction 1 as [|s mid -> _ IH]; intros Hl.
- destruct last; try discriminate; reflexivity.
- cbn. apply IH, Hl.
Qed.

(** The notifications of one item, read alone, are a run of the job from
    [PENDING] to a terminal status with its forced fraction. *)
Lemma item_trace_follows job mid last :
  Forall (converting_of job) mid -> outcome_of job last ->
  let trace := starting job :: opening job :: mid ++ [last] in
  Forall (fun n => App.job_of n = job) trace
  /\ follows App.PENDING (List.map App.status_of trace) = true
  /\ Forall forced trace.
Proof.
intros Hmid Hlast trace. subst trace. split; [|split].
- repeat constructor. apply Forall_app. split.
  + eapply List.Forall_impl; [|exact Hmid]. intros n [? _]. assumption.
  + constructor; [|constructor]. destruct Hlast as [->|[e ->]]; reflexivity.
- cbn [List.map follows transition andb]. rewrite List.map_app.
  apply follows_converting.
  + apply Forall_map. eapply List.Forall_impl; [|exact Hmid]. intros n [_ ?]. assumption.
  + destruct Hlast as [->|[e ->]]; reflexivity.
- repeat constructor. apply Forall_app. split.
  + eapply List.Forall_impl; [|exact Hmid]. intros n [_ Hs]. unfold forced. rewrite Hs. exact I.
  + constructor; [|constructor]. destruct Hlast as [->|[e ->]]; reflexivity.
Qed.

Lemma run_follows turns :
  forall log,
  NoDup (jobs_of turns) ->
  (forall job, In job (jobs_of turns) -> about job log = []) ->
  (forall job, follows App.PENDING (List.map App.status_of (about job log)) = true) ->
  Forall forced log ->
  (forall job, follows App.PENDING
                 (List.map App.status_of (about job (App.run App.record_call turns log))) = true)
  /\ Forall forced (App.run App.record_call turns log).
Proof.
induction turns as [|[| |[item|]] rest IH]; intros log Hnd Hfresh Hok Hforced;
  cbn [App.run]; try (split; assumption).
- apply IH; assumption.
- cbn [jobs_of] in Hnd, Hfresh. apply NoDup_cons in Hnd as [Hnotin Hnd].
  destruct (process_log item log) as (mid & last & E & Hmid & Hlast).
  destruct (item_trace_follows _ mid last Hmid Hlast) as (Hjob & Hrun & Hf).
  rewrite E. apply IH.
  + exact Hnd.
  + intros job Hin. rewrite about_app, (Hfresh job) by (right; exact Hin).
    apply (about_other job (App.id item)); [|exact Hjob].
    intros Heq. apply Hnotin. rewrite Heq. apply list_elem_of_In. exact Hin.
  + intros job. rewrite about_app.
    destruct (String.eqb_spec (App.id item) job) as [<-|Hne].
    * rewrite (Hfresh (App.id item)) by (left; reflexivity).
      rewrite (about_same _ _ Hjob). exact Hrun.
    * rewrite (about_other job (App.id item) _ Hne Hjob), app_nil_r. apply Hok.
  + apply Forall_app. split; assumption.
Qed.

End WorkerFacts.

(** ** The resource index *)

Section IndexFacts.

Context `{Collaborators}.

Lemma store_lookup_in images img_name data_uri key :
  In key (keys_of img_name) ->
  Converter.store images img_name data_uri !! key = Some data_uri.
Proof.
unfold keys_of, Converter.store. cbn [In]. intros Hin.
rewrite !lookup_insert. repeat case_decide; try reflexivity.
exfalso. intuition congruence.
Qed.

Lemma store_lookup_out images img_name data_uri key :
  ~ In key (keys_of img_name) ->
  Converter.store images img_name data_uri !! key = images !! key.
Proof.
unfold keys_of, Converter.store. cbn [In]. intros Hout.
rewrite !lookup_insert. repeat case_decide; try reflexivity;
  exfalso; apply Hout; subst; tauto.
Qed.

Lemma extract_step_keeps images item key :
  is_Some (images !! key) -> is_Some (Converter.extract_step images item !! key).
Proof.
intros Hs. unfold Converter.extract_step.
destruct (Ebooklib.item_type_eqb _ _); [|exact Hs].
destruct (in_dec string_dec key (keys_of (Ebooklib.get_name item))) as [Hin|Hout].
- rewrite store_lookup_in by exact Hin. eexists. reflexivity.
- rewrite store_lookup_out by exact Hout. exact Hs.
Qed.

Lemma extract_fold_keeps items : forall images key,
  is_Some (images !! key) ->
  is_Some (List.fold_left Converter.extract_step items images !! key).
Proof.
induction items as [|item rest IH]; intros images key Hs; [exact Hs|].
cbn [List.fold_left]. apply IH, extract_step_keeps, Hs.
Qed.

Lemma item_type_eqb_eq a b : Ebooklib.item_type_eqb a b = true <-> a = b.
Proof. destruct a, b; cbn; split; intros; congruence. Qed.

Lemma extract_fold_untouched items : forall images key,
  (forall later, In later items ->
     Ebooklib.get_type later = Ebooklib.ITEM_IMAGE ->
     ~ In key (keys_of (Ebooklib.get_name later))) ->
  List.fold_left Converter.extract_step items images !! key = images !! key.
Proof.
induction items as [|item rest IH]; intros images key Hfree; [reflexivity|].
cbn [List.fold_left]. rewrite IH by (intros; apply Hfree; [right|]; assumption).
unfold Converter.extract_step.
destruct (Ebooklib.item_type_eqb _ _) eqn:E; [|reflexivity].
apply store_lookup_out, Hfree; [left; reflexivity | apply item_type_eqb_eq, E].
Qed.

(** C2, as the code has it.  The four keys stored for an image of the
    book (its name, the basename, the decoded name, the decoded basename)
    are keys of the index; and when no later image of the book stores one
    of them, all four map to the data URI of that image. *)
Theorem extract_images_keys book before item after :
  Ebooklib.get_items book = before ++ item :: after ->
  Ebooklib.get_type item = Ebooklib.ITEM_IMAGE ->
  (forall key, In key (keys_of (Ebooklib.get_name item)) ->
     is_Some (Converter._extract_images book !! key))
  /\ ((forall later key, In later after ->
         Ebooklib.get_type later = Ebooklib.ITEM_IMAGE ->
         In key (keys_of (Ebooklib.get_name item)) ->
         ~ In key (keys_of (Ebooklib.get_name later))) ->
      forall key, In key (keys_of (Ebooklib.get_name item)) ->
        Converter._extract_images book !! key = Some (Converter.data_uri_of item)).
Proof.
intros Hitems Himage. unfold Converter._extract_images.
rewrite Hitems, List.fold_left_app. cbn [List.fold_left].
set (images := List.fold_left Converter.extract_step before ∅).
assert (Hstep : forall key, In key (keys_of (Ebooklib.get_name item)) ->
          Converter.extract_step images item !! key = Some (Converter.data_uri_of item)).
{ intros key Hin. unfold Converter.extract_step. rewrite Himage. cbn [Ebooklib.item_type_eqb].
  apply store_lookup_in, Hin. }
split.
- intros key Hin. apply extract_fold_keeps. rewrite Hstep by exact Hin. eexists. reflexivity.
- intros Hfree key Hin. rewrite extract_fold_untouched; [apply Hstep, Hin|].
  intros later Hl Ht. apply (Hfree later key); assumption.
Qed.

End IndexFacts.

(** C2 fails on its fourth key form: for the image named [a%2Fb.png] the
    basename of the decoded path is [b.png], which is no key of the
    index. *)
Lemma decoded_basename_not_indexed :
  let collaborators := shelf_collaborators ∅ unreadable (fun _ => false) in
  claimed_keys "a%2Fb.png" = ["a%2Fb.png"; "a/b.png"; "a%2Fb.png"; "b.png"]
  /\ Converter._extract_images encoded_slash_book !! "b.png" = None.
Proof. split; vm_compute; reflexivity. Qed.

(** C2 at the second image of [accented_book]: an earlier image stores
    the same decoded keys, the later image stores none of its keys, and
    its four keys map to its data URI. *)
Lemma extract_images_keys_witness :
  let collaborators := shelf_collaborators ∅ unreadable (fun _ => false) in
  Forall (fun key =>
            Converter._extract_images accented_book !! key
            = Some "data:image/png;base64,2")
    [ "img/x%E9.png"; "x%E9.png";
      ("img/x" ++ ufffd ++ ".png")%string; ("x" ++ ufffd ++ ".png")%string ].
Proof.
intros collaborators.
pose proof (extract_images_keys accented_book
              [ {| Ebooklib.id := "i1"; Ebooklib.get_name := "img/x%E8.png";
                   Ebooklib.get_type := Ebooklib.ITEM_IMAGE;
                   Ebooklib.get_content := [Byte.x31] |} ]
              {| Ebooklib.id := "i2"; Ebooklib.get_name := "img/x%E9.png";
                 Ebooklib.get_type := Ebooklib.ITEM_IMAGE;
                 Ebooklib.get_content := [Byte.x32] |}
              [ {| Ebooklib.id := "i3"; Ebooklib.get_name := "img/b.png";
                   Ebooklib.get_type := Ebooklib.ITEM_IMAGE;
                   Ebooklib.get_content := [Byte.x33] |} ]
              eq_refl eq_refl) as [_ Hsame].
assert (Hfree : forall later key,
          In later [ {| Ebooklib.id := "i3"; Ebooklib.get_name := "img/b.png";
                        Ebooklib.get_type := Ebooklib.ITEM_IMAGE;
                        Ebooklib.get_content := [Byte.x33] |} ] ->
          Ebooklib.get_type later = Ebooklib.ITEM_IMAGE ->
          In key (keys_of "img/x%E9.png") ->
          ~ In key (keys_of (Ebooklib.get_name later))).
{ intros later key [<-|[]] _ Hkey Hlater.
  vm_compute in Hkey, Hlater.
  destruct Hkey as [<-|[<-|[<-|[<-|[]]]]];
    destruct Hlater as [Heq|[Heq|[Heq|[Heq|[]]]]]; discriminate Heq. }
specialize (Hsame Hfree).
assert (Hdata : Converter.data_uri_of
                  {| Ebooklib.id := "i2"; Ebooklib.get_name := "img/x%E9.png";
                     Ebooklib.get_type := Ebooklib.ITEM_IMAGE;
                     Ebooklib.get_content := [Byte.x32] |}
                = "data:image/png;base64,2") by (vm_compute; reflexivity).
rewrite Hdata in Hsame.
repeat constructor; apply Hsame; vm_compute; tauto.
Defined.

(** Two names with different escapes that are no UTF-8 store the same
    decoded keys: the later image takes them, and the decoded key of the
    earlier image maps to the other image. *)
Lemma undecodable_escapes_collide :
  let collaborators := shelf_collaborators ∅ unreadable (fun _ => false) in
  let images := Converter._extract_images accented_book in
  PyStr.unquote "img/x%E8.png" = PyStr.unquote "img/x%E9.png"
  /\ images !! "img/x%E8.png" = Some "data:image/png;base64,1"
  /\ images !! PyStr.unquote "img/x%E8.png" = Some "data:image/png;base64,2".
Proof. repeat split; vm_compute; reflexivity. Qed.

(** ** The candidates of the resolver *)

Section ResolverFacts.

Context `{Collaborators}.

Lemma first_match_found images before variant after uri :
  Forall (fun c => images !! key_of c = None) before ->
  images !! key_of variant = Some uri ->
  Converter.first_match images (before ++ variant :: after) = Some uri.
Proof.
intros Hnone Hfound. induction Hnone as [|c before Hc _ IH]; cbn [app Converter.first_match].
- fold (key_of variant). rewrite Hfound. reflexivity.
- fold (key_of c). rewrite Hc. exact IH.
Qed.

Lemma first_match_none images variants :
  Forall (fun c => images !! key_of c = None) variants ->
  Converter.first_match images variants = None.
Proof.
induction 1 as [|c variants Hc _ IH]; cbn [Converter.first_match]; [reflexivity|].
fold (key_of c). rewrite Hc. exact IH.
Qed.

(** C3, as the code has it.  For an [img] with a source, in a chapter
    with a base path, the candidates are the literal source, the decoded
    source, the basename of each, and only then the source resolved
    relative to the chapter, raw and decoded.  Each is looked up without
    its leading dots and slashes; the first found gives the new source,
    and when none is found the tag is left as it is. *)
Theorem resolver_candidate_order images base_path attrs :
  PyStr.is_empty (Bs4.get attrs "src" EmptyString) = false ->
  PyStr.is_empty base_path = false ->
  let src := Bs4.get attrs "src" EmptyString in
  let variants := Converter.src_variants src base_path in
  variants = [ src; PyStr.unquote src; PyStr.basename src;
               PyStr.basename (PyStr.unquote src);
               resolved base_path src; resolved base_path (PyStr.unquote src) ]
  /\ (forall before variant after uri,
        variants = before ++ variant :: after ->
        Forall (fun c => images !! key_of c = None) before ->
        images !! key_of variant = Some uri ->
        Converter.fix_img images base_path attrs = Bs4.set attrs "src" uri)
  /\ (Forall (fun c => images !! key_of c = None) variants ->
      Converter.fix_img images base_path attrs = attrs).
Proof.
intros Hsrc Hbase src variants. split; [|split].
- unfold variants, Converter.src_variants. rewrite Hbase. reflexivity.
- intros before variant after uri Hsplit Hnone Hfound.
  unfold Converter.fix_img. fold src. unfold src at 1. rewrite Hsrc.
  fold variants. rewrite Hsplit, (first_match_found _ _ _ _ _ Hnone Hfound). reflexivity.
- intros Hnone. unfold Converter.fix_img. fold src. unfold src at 1. rewrite Hsrc.
  fold variants. rewrite (first_match_none _ _ Hnone). reflexivity.
Qed.

End ResolverFacts.

(** C3 fails on the order: with the images [text/a.png] and
    [other/a.png], the source [a.png] in the chapter [text/ch1.xhtml]
    would get the image next to the chapter if the resolved path were
    tried first; the code tries the bare name first and gets the other. *)
Lemma bare_reference_tried_first :
  let collaborators := shelf_collaborators ∅ unreadable (fun _ => false) in
  let images := Converter._extract_images two_covers_book in
  images !! key_of (resolved "text/ch1.xhtml" "a.png") = Some "data:image/png;base64,1"
  /\ Converter.first_match images (claimed_variants "a.png" "text/ch1.xhtml")
     = Some "data:image/png;base64,1"
  /\ Converter.first_match images (Converter.src_variants "a.png" "text/ch1.xhtml")
     = Some "data:image/png;base64,2"
  /\ Converter.fix_img images "text/ch1.xhtml" [("src", "a.png")]
     = [("src", "data:image/png;base64,2")].
Proof. repeat split; vm_compute; reflexivity. Qed.

(** C3 at a source none of whose candidates is indexed, at one that its
    first candidate resolves, and at one with an escape that is no UTF-8,
    which its decoded candidate resolves. *)
Lemma resolver_candidate_order_witness :
  let collaborators := shelf_collaborators ∅ unreadable (fun _ => false) in
  let images := Converter._extract_images two_covers_book in
  Converter.fix_img images "text/ch1.xhtml" [("src", "b.png")] = [("src", "b.png")]
  /\ Converter.fix_img images "text/ch1.xhtml" [("src", "./other/a.png")]
     = [("src", "data:image/png;base64,2")]
  /\ Converter.fix_img {[ ("x" ++ ufffd ++ ".png")%string := "data:image/png;base64,3" ]}
       "text/ch1.xhtml" [("src", "x%E9.png")]
     = [("src", "data:image/png;base64,3")].
Proof.
intros collaborators images. split; [|split].
- apply (resolver_candidate_order images "text/ch1.xhtml" [("src", "b.png")] eq_refl eq_refl).
  vm_compute. repeat constructor.
- apply (resolver_candidate_order images "text/ch1.xhtml" [("src", "./other/a.png")]
           eq_refl eq_refl) with (before := []) (variant := "./other/a.png")
           (after := List.tl (Converter.src_variants "./other/a.png" "text/ch1.xhtml")).
  + reflexivity.
  + constructor.
  + vm_compute. reflexivity.
- apply (resolver_candidate_order _ "text/ch1.xhtml" [("src", "x%E9.png")]
           eq_refl eq_refl) with (before := ["x%E9.png"])
           (variant := PyStr.unquote "x%E9.png")
           (after := List.tl (List.tl (Converter.src_variants "x%E9.png" "text/ch1.xhtml"))).
  + reflexivity.
  + constructor; [vm_compute; reflexivity | constructor].
  + vm_compute. reflexivity.
Defined.

(** ** Scripts *)

Section ScriptFacts.

Context `{Collaborators}.

Lemma flat_map_nil {A B} (g : A -> list B) (l : list A) :
  Forall (fun x => g x = []) l -> List.flat_map g l = [].
Proof.
induction 1 as [|x l Hx _ IH]; [reflexivity|].
cbn [List.flat_map]. rewrite Hx, IH. reflexivity.
Qed.

Lemma flat_map_flat_map {A B C} (g : A -> list B) (h : B -> list C) (l : list A) :
  List.flat_map h (List.flat_map g l) = List.flat_map (fun x => List.flat_map h (g x)) l.
Proof.
induction l as [|x l IH]; [reflexivity|].
cbn [List.flat_map]. rewrite List.flat_map_app, IH. reflexivity.
Qed.

Lemma decompose_in_clean nm n :
  List.flat_map (Bs4.find_all_in nm) (Bs4.decompose_in nm n) = [].
Proof.
induction n as [text | name attrs contents IH] using node_induction.
- reflexivity.
- cbn [Bs4.decompose_in]. destruct (String.eqb name nm) eqn:E; [reflexivity|].
  cbn [List.flat_map Bs4.find_all_in]. rewrite E, app_nil_r. cbn [app].
  rewrite flat_map_flat_map. apply flat_map_nil, IH.
Qed.

Lemma decompose_all_clean nm soup :
  Bs4.find_all nm (Bs4.decompose_all nm soup) = [].
Proof.
unfold Bs4.find_all, Bs4.decompose_all. rewrite flat_map_flat_map.
apply flat_map_nil, Forall_forall. intros n _. apply decompose_in_clean.
Qed.

(** C6.  Whatever the parser makes of the markup, the tree that
    [_process_html_content] turns into its output has no [script] tag at
    any depth. *)
Theorem scripts_removed html_content images base_path :
  match BeautifulSoup html_content with
  | inr soup =>
      Converter._process_html_content html_content images base_path
      = inr (soup_str (Converter.process_soup images base_path soup))
      /\ Bs4.find_all "script" (Converter.process_soup images base_path soup) = []
  | inl e =>
      Converter._process_html_content html_content images base_path = inl e
  end.
Proof.
unfold Converter._process_html_content.
destruct (BeautifulSoup html_content) as [e|soup]; [reflexivity|].
split; [reflexivity | apply decompose_all_clean].
Qed.

End ScriptFacts.

Example scripted_soup_processed :
  Converter.process_soup ∅ EmptyString scripted_soup
  = [ Bs4.Tag "html" []
        [ Bs4.Tag "head" [] [];
          Bs4.Tag "body" []
            [ Bs4.Tag "p" [] [ Bs4.NavigableString "text" ];
              Bs4.Tag "img" [("src", "a.png")] [] ] ] ].
Proof. vm_compute. reflexivity. Qed.

(** ** The image transcoder *)

Section TranscoderFacts.

Context `{Collaborators}.

Lemma flatten_size img : PIL.size (Converter.flatten img) = PIL.size img.
Proof.
unfold Converter.flatten.
destruct (String.eqb (PIL.mode img) "RGBA" || String.eqb (PIL.mode img) "P"); reflexivity.
Qed.

Lemma resize_if_large_size img img' :
  Converter.resize_if_large img = inr img' ->
  (PIL.width img <= 1200 /\ img' = img)
  \/ (1200 < PIL.width img
      /\ PIL.size img' = (1200, scaled_height (PIL.width img) (PIL.height img))
      /\ 1 <= PIL.height img').
Proof.
unfold Converter.resize_if_large.
destruct (Z.ltb_spec 1200 (PIL.width img)) as [Hw|Hw].
- unfold Py.truediv. destruct (Z.eqb_spec (PIL.width img) 0) as [E|_]; [lia|].
  fold (ratio_of (PIL.width img)). fold (scaled_height (PIL.width img) (PIL.height img)).
  unfold Converter.Image_resize. cbn [fst snd].
  destruct (Z.ltb_spec (scaled_height (PIL.width img) (PIL.height img)) 1) as [Hh|Hh];
    cbn [orb]; [discriminate|].
  intros [= <-]. right. split; [exact Hw|]. split; [reflexivity | exact Hh].
- intros [= <-]. left. split; [lia | reflexivity].
Qed.

(** C7.  When the [try] block succeeds on an image that [Image.open]
    read as [img], the image saved is at most 1200 wide; it has the size
    of [img] when [img] is at most 1200 wide; otherwise it is 1200 wide
    and its height is the height of [img] scaled by the same factor
    [1200 / width], to the pixel: [height' * width] lies within one
    [width] below [1200 * height].  The bound on the pixels is the one
    beyond which [Image.open] refuses an image. *)
Theorem transcoder_width img_data img out mime_type :
  Image_open img_data = inr img ->
  Converter.optimize img_data = inr (out, mime_type) ->
  exists img',
    Converter.optimized_image img_data = inr img'
    /\ save_jpeg img' = inr out
    /\ PIL.width img' <= 1200
    /\ (PIL.width img <= 1200 -> PIL.size img' = PIL.size img)
    /\ (1200 < PIL.width img -> 0 <= PIL.height img ->
        PIL.width img * PIL.height img <= 178956970 ->
        PIL.width img' = 1200
        /\ 1200 * PIL.height img - PIL.width img <= PIL.height img' * PIL.width img
        /\ PIL.height img' * PIL.width img <= 1200 * PIL.height img).
Proof.
intros Hopen. unfold Converter.optimize, Converter.optimized_image. rewrite Hopen.
destruct (Converter.resize_if_large img) as [e|resized] eqn:Hresize; [discriminate|].
destruct (save_jpeg (Converter.flatten resized)) as [e|data] eqn:Hsave; [discriminate|].
intros [= <- <-]. exists (Converter.flatten resized).
split; [reflexivity|]. split; [exact Hsave|].
pose proof (flatten_size resized) as Hflat. unfold PIL.size in Hflat.
injection Hflat as Hfw Hfh. rewrite Hfw, Hfh.
apply resize_if_large_size in Hresize as [[Hw ->]|(Hw & Hsize & _)].
- split; [exact Hw|]. split; [intros _; apply flatten_size | lia].
- unfold PIL.size in Hsize. injection Hsize as Hrw Hrh. rewrite Hrw, Hrh.
  split; [lia|]. split; [lia|].
  intros _ Hh Hpixels. split; [reflexivity|].
  apply scaled_height_bounds; assumption.
Qed.

End TranscoderFacts.

(** C7 at an image of 2400 by 1000 pixels. *)
Lemma transcoder_width_witness :
  let collaborators := shelf_collaborators ∅ wide_image (fun _ => false) in
  exists img',
    Converter.optimized_image [] = inr img'
    /\ PIL.width img' = 1200 /\ 499 <= PIL.height img' <= 500.
Proof.
intros collaborators.
assert (Hopen : Image_open [] = wide_image []) by reflexivity.
assert (Hdone : Converter.optimize [] = inr ([], "image/jpeg"))
  by (vm_compute; reflexivity).
destruct (transcoder_width [] _ [] "image/jpeg" Hopen Hdone)
  as (img' & Himg & _ & _ & _ & Hscaled).
exists img'. split; [exact Himg|].
cbn [PIL.width PIL.height] in Hscaled. lia.
Defined.

(** ** Outcomes of [convert] *)

Section OutcomeFacts.

Context `{Collaborators}.

(** Items that are no documents are passed over: nothing is reported,
    nothing divided, nothing added to the parts. *)
Lemma chapters_skipped {St} (self : Converter.EPUBConverter (St := St)) images total items :
  Forall (fun item => Ebooklib.get_type item <> Ebooklib.ITEM_DOCUMENT) items ->
  forall idx parts s,
    Converter.process_chapters self images total idx items parts s = (s, inr parts).
Proof.
induction 1 as [|item rest Hitem _ IH]; intros idx parts s; [reflexivity|].
cbn [Converter.process_chapters].
destruct (Ebooklib.item_type_eqb _ _) eqn:E; [|apply IH].
apply item_type_eqb_eq in E. contradiction.
Qed.

(** C8.  When no spine item is a document, and so when the spine is
    empty, and the reader and the renderer do their part, [convert]
    returns [True] after the six reports from 0.0 to 1.0; the division of
    the chapter loop has the divisor [max(total_items, 1)] and cannot
    fail, whatever the index, for [total_items = 0]. *)
Theorem no_chapter_completes epub_path output_path book html_doc css :
  read_epub epub_path = inr book ->
  Forall (fun item => Ebooklib.get_type item <> Ebooklib.ITEM_DOCUMENT)
         (Converter.spine_items_of book) ->
  HTML (Converter.full_html_of (Converter.book_title book epub_path)
          [Converter.title_page (Converter.book_title book epub_path)
                                (Converter.book_author book)]) = inr html_doc ->
  CSS Converter._get_base_css = inr css ->
  write_pdf html_doc output_path [css] = inr tt ->
  Converter.convert recording epub_path output_path []
  = (reports_without_chapters, inr true)
  /\ (Ebooklib.spine book = [] -> Converter.spine_items_of book = [])
  /\ forall idx, Converter.chapter_progress idx 0 = inr (progress_at idx 0).
Proof.
intros Hread Hnone Hhtml Hcss Hwrite. split; [|split].
- unfold Converter.convert, Converter.convert_body, Converter.assemble, Py.try_except.
  cbv [Py.bind Py.call Py.ret].
  repeat (first [ rewrite report_recording | rewrite Hread
                | rewrite (chapters_skipped _ _ _ _ Hnone)
                | rewrite Hhtml | rewrite Hcss | rewrite Hwrite ];
          cbv beta iota).
  reflexivity.
- intros Hspine. unfold Converter.spine_items_of. rewrite Hspine. reflexivity.
- intros idx. apply chapter_progress_value.
Qed.


Lemma returns_true_ret {St} : returns_true (St := St) (Py.ret true).
Proof. intros s returned [= <-]. reflexivity. Qed.

Lemma returns_true_raise {St} e : returns_true (St := St) (Py.raise e).
Proof. intros s returned [=]. Qed.

Lemma returns_true_bind {St A} (c : Py.M St A) (k : A -> Py.M St bool) :
  (forall a, returns_true (k a)) -> returns_true (Py.bind c k).
Proof.
intros Hk s returned. unfold Py.bind.
destruct (c s) as [s' [e|a]]; [discriminate | apply Hk].
Qed.

Lemma returns_true_try {St} (c : Py.M St bool) (h : Py.exn -> Py.M St bool) :
  returns_true c -> (forall e, returns_true (h e)) -> returns_true (Py.try_except c h).
Proof.
intros Hc Hh s returned. unfold Py.try_except.
pose proof (Hc s) as Hcs.
destruct (c s) as [s' [e|b]]; [apply Hh | exact (Hcs returned)].
Qed.

Lemma convert_returns_true {St} (self : Converter.EPUBConverter (St := St))
    epub_path output_path :
  returns_true (Converter.convert self epub_path output_path).
Proof.
apply returns_true_try.
- unfold Converter.convert_body.
  repeat (apply returns_true_bind; intros ?). apply returns_true_ret.
- intros e. apply returns_true_bind. intros _. apply returns_true_raise.
Qed.

(** C9.  [convert_epub_to_pdf], and so [convert], never returns [False]:
    it returns [True] or raises, and it raises after a last report of the
    error at fraction 0.0. *)
Theorem convert_true_or_raises {St}
    (progress_callback : option (Q -> string -> Py.M St unit))
    epub_path output_path (s : St) :
  snd (Converter.convert_epub_to_pdf epub_path output_path progress_callback s) <> inr false
  /\ forall log,
       match Converter.convert recording epub_path output_path log with
       | (log', inl e) =>
           exists before, log' = before ++ [(0%Q, ("Error: " ++ Py.str e)%string)]
       | (_, inr returned) => returned = true
       end.
Proof.
split.
- intros Hfalse. apply convert_returns_true in Hfalse. discriminate.
- intros log.
  pose proof (convert_returns_true recording epub_path output_path log) as Htrue.
  unfold Converter.convert, Py.try_except in *.
  destruct (Converter.convert_body recording epub_path output_path log)
    as [log1 [e|returned]].
  + exists log1. reflexivity.
  + apply Htrue. reflexivity.
Qed.



End OutcomeFacts.

(** C8 at a book with an empty spine. *)
Lemma no_chapter_completes_witness :
  let collaborators :=
    shelf_collaborators {[ "book.epub" := empty_book ]} unreadable (fun _ => false) in
  Converter.convert recording "book.epub" "book.pdf" []
  = (reports_without_chapters, inr true).
Proof.
intros collaborators.
refine (proj1 (no_chapter_completes "book.epub" "book.pdf" empty_book _ _
                 eq_refl _ eq_refl eq_refl eq_refl)).
constructor.
Defined.



(** ** The worker and the jobs of the application *)

Section QueueFacts.

Context `{Collaborators}.

(** C5.  When the items that the worker dequeues have distinct ids, as
    those that [uuid4] gives them, the statuses delivered about any job
    follow the transitions from [PENDING]: first [CONVERTING], then
    [CONVERTING] again or one last [COMPLETED] or [FAILED]; and every
    [COMPLETED] comes with the fraction 1.0, every [FAILED] with 0.0. *)
Theorem worker_status_sequence turns job :
  NoDup (jobs_of turns) ->
  follows App.PENDING
    (List.map App.status_of (about job (App.worker_events turns))) = true
  /\ Forall forced (App.worker_events turns).
Proof.
intros Hnodup. unfold App.worker_events.
destruct (run_follows turns [] Hnodup) as [Hfollows Hforced].
- reflexivity.
- reflexivity.
- constructor.
- split; [apply Hfollows | exact Hforced].
Qed.

Lemma remove_item_keeps_task_queue item_id app :
  App.task_queue (App._remove_item item_id app) = App.task_queue app.
Proof. reflexivity. Qed.

Lemma add_one_file epub_path output_path app :
  path_exists epub_path = true ->
  App.output_path_for app epub_path = inr output_path ->
  App._add_files_to_queue [epub_path] app
  = (App.enqueue epub_path output_path app, inr tt).
Proof.
intros Hexists Hout. unfold App._add_files_to_queue. cbn [Py.for_each].
unfold Py.bind. rewrite Hexists. cbn [negb]. rewrite Hout. reflexivity.
Qed.

(** Once a job is removed, the updates about it change nothing in the
    application. *)
Lemma update_removed_item job st progress message app :
  App.queue_items app !! job = None ->
  App.item_widgets app !! job = None ->
  App._update_item (job, st, progress, message) app = app.
Proof.
intros Hitem Hwidget. unfold App._update_item. rewrite Hitem, Hwidget.
destruct app. reflexivity.
Qed.

(** C4 does not hold of the code.  A job removed while it is pending is
    gone from [queue_items] but not from [task_queue]: the worker dequeues
    it, notifies [CONVERTING] and runs the pipeline, which reports the
    opening of the source. *)
Theorem removed_pending_job_still_runs epub_path output_path :
  let job := uuid4 0 in
  let queued := App.enqueue epub_path output_path App.init in
  let removed := App._remove_item job queued in
  App.status <$> (App.queue_items queued !! job) = Some App.PENDING
  /\ App.queue_items removed !! job = None
  /\ App.task_queue removed = [Some (App.new_item job epub_path output_path)]
  /\ exists rest,
       App.worker_events (App.drain (App.task_queue removed))
       = starting job :: opening job :: rest.
Proof.
intros job queued removed. split; [|split; [|split]].
- unfold queued, App.enqueue. cbn [App.queue_items App.uuid_calls App.init].
  fold job. rewrite lookup_insert_eq. reflexivity.
- unfold removed, App._remove_item. cbn [App.queue_items]. apply lookup_delete_eq.
- reflexivity.
- unfold App.worker_events. cbn [App.drain App.task_queue removed queued App._remove_item
    App.enqueue App.init app List.map App.run App.uuid_calls].
  fold job.
  destruct (process_log (App.new_item job epub_path output_path) [])
    as (mid & last & E & _).
  rewrite E. eexists. reflexivity.
Qed.

End QueueFacts.

(** C5 at a queue of two jobs, the second of which fails. *)
Lemma worker_status_sequence_witness :
  let collaborators :=
    shelf_collaborators {[ "book.epub" := empty_book ]} unreadable (fun _ => false) in
  List.map App.status_of (about "job-1" (App.worker_events two_jobs))
  = [App.CONVERTING; App.CONVERTING; App.CONVERTING; App.FAILED]
  /\ follows App.PENDING
       (List.map App.status_of (about "job-1" (App.worker_events two_jobs))) = true.
Proof.
intros collaborators. split; [vm_compute; reflexivity|].
apply (worker_status_sequence two_jobs "job-1").
cbn [jobs_of two_jobs App.id App.new_item].
apply NoDup_cons. split; [|apply NoDup_singleton].
intros Hin%list_elem_of_singleton. discriminate.
Defined.

(** The run of [app.py] that the second theorem is about, on a shelf with
    one book: the file is added, its job removed while pending, and the
    worker then converts it to the end. *)
Lemma removed_job_converted :
  let collaborators :=
    shelf_collaborators {[ "/shelf/a.epub" := empty_book ]} unreadable (fun _ => false) in
  let queued := fst (App._add_files_to_queue ["/shelf/a.epub"] App.init) in
  let removed := App._remove_item "job-0" queued in
  App.status <$> (App.queue_items queued !! "job-0") = Some App.PENDING
  /\ App.queue_items removed !! "job-0" = None
  /\ List.map (fun n => (App.job_of n, App.status_of n, App.message_of n))
       (App.worker_events (App.drain (App.task_queue removed)))
     = [ ("job-0", App.CONVERTING, "Starting conversion...");
         ("job-0", App.CONVERTING, "Opening EPUB file...");
         ("job-0", App.CONVERTING, "Extracting images...");
         ("job-0", App.CONVERTING, "Processing chapters...");
         ("job-0", App.CONVERTING, "Generating PDF...");
         ("job-0", App.CONVERTING, "Writing PDF file...");
         ("job-0", App.CONVERTING, "Complete!");
         ("job-0", App.COMPLETED, "Complete!") ].
Proof. repeat split; vm_compute; reflexivity. Qed.

(** * Further properties *)

(** ** The callback and the outcome of [convert] *)

Section CallbackFacts.

Context `{Collaborators}.
Context {St1 St2 : Type}.
Variable self1 : Converter.EPUBConverter (St := St1).
Variable self2 : Converter.EPUBConverter (St := St2).
Hypothesis Hself1 : returning self1.
Hypothesis Hself2 : returning self2.

Lemma agree_ret {A} (a : A) : agree (St1 := St1) (St2 := St2) (Py.ret a) (Py.ret a).
Proof. intros s1 s2. reflexivity. Qed.

Lemma agree_raise {A} e :
  agree (St1 := St1) (St2 := St2) (Py.raise (A := A) e) (Py.raise e).
Proof. intros s1 s2. reflexivity. Qed.

Lemma agree_call {A} (r : Py.result A) :
  agree (St1 := St1) (St2 := St2) (Py.call r) (Py.call r).
Proof. intros s1 s2. reflexivity. Qed.

Lemma agree_bind {A B} (c1 : Py.M St1 A) (c2 : Py.M St2 A)
    (k1 : A -> Py.M St1 B) (k2 : A -> Py.M St2 B) :
  agree c1 c2 -> (forall a, agree (k1 a) (k2 a)) -> agree (Py.bind c1 k1) (Py.bind c2 k2).
Proof.
intros Hc Hk s1 s2. unfold Py.bind. specialize (Hc s1 s2).
destruct (c1 s1) as [s1' [e1|a1]], (c2 s2) as [s2' [e2|a2]]; cbn [snd] in Hc; try discriminate.
- injection Hc as ->. reflexivity.
- injection Hc as ->. apply Hk.
Qed.

Lemma agree_try {A} (c1 : Py.M St1 A) (c2 : Py.M St2 A)
    (h1 : Py.exn -> Py.M St1 A) (h2 : Py.exn -> Py.M St2 A) :
  agree c1 c2 -> (forall e, agree (h1 e) (h2 e)) ->
  agree (Py.try_except c1 h1) (Py.try_except c2 h2).
Proof.
intros Hc Hh s1 s2. unfold Py.try_except. specialize (Hc s1 s2).
destruct (c1 s1) as [s1' [e1|a1]], (c2 s2) as [s2' [e2|a2]]; cbn [snd] in Hc; try discriminate.
- injection Hc as ->. apply Hh.
- exact Hc.
Qed.

Lemma agree_report progress message :
  agree (Converter._report_progress self1 progress message)
        (Converter._report_progress self2 progress message).
Proof. intros s1 s2. rewrite Hself1, Hself2. reflexivity. Qed.

Lemma agree_chapters images total items :
  forall idx parts,
    agree (Converter.process_chapters self1 images total idx items parts)
          (Converter.process_chapters self2 images total idx items parts).
Proof.
induction items as [|item rest IH]; intros idx parts; cbn [Converter.process_chapters].
- apply agree_ret.
- destruct (Ebooklib.item_type_eqb _ _); [|apply IH].
  apply agree_bind; [apply agree_call|]. intros progress.
  apply agree_bind; [apply agree_report|]. intros _.
  apply agree_bind; [apply agree_call|]. intros processed.
  apply agree_bind; [apply agree_call|]. intros soup.
  apply IH.
Qed.

Lemma agree_assemble book images epub_path :
  agree (Converter.assemble self1 book images epub_path)
        (Converter.assemble self2 book images epub_path).
Proof.
unfold Converter.assemble.
apply agree_bind; [apply agree_chapters|]. intros parts.
apply agree_bind; [apply agree_report|]. intros _.
apply agree_ret.
Qed.

Lemma agree_convert epub_path output_path :
  agree (Converter.convert self1 epub_path output_path)
        (Converter.convert self2 epub_path output_path).
Proof.
apply agree_try.
- unfold Converter.convert_body.
  repeat first
    [ apply agree_ret
    | apply agree_bind;
        [ first [apply agree_call | apply agree_report | apply agree_assemble] | intros ? ] ].
- intros e. apply agree_bind; [apply agree_report | intros _; apply agree_raise].
Qed.

End CallbackFacts.

Section SilentFacts.

Context `{Collaborators}.
Context {St : Type}.











End SilentFacts.

(** ** What [convert] reports and assembles *)

Section PipelineFacts.

Context `{Collaborators}.

(** The reports of the chapter loop that does not fail. *)
Lemma chapters_reports images total items :
  forall idx parts log parts',
  snd (Converter.process_chapters recording images total idx items parts log) = inr parts' ->
  fst (Converter.process_chapters recording images total idx items parts log)
  = log ++ chapter_reports total idx items
  /\ exists chapters,
       parts' = parts ++ chapters
       /\ List.length chapters = List.length (List.filter is_document items)
       /\ Forall (fun block => exists content, block = Converter.chapter_block content)
                 chapters.
Proof.
induction items as [|item rest IH]; intros idx parts log parts'.
- cbn. intros [= <-]. rewrite !app_nil_r. split; [reflexivity|].
  exists []. rewrite app_nil_r. repeat split. constructor.
- cbn [Converter.process_chapters chapter_reports List.filter].
  change (Ebooklib.item_type_eqb (Ebooklib.get_type item) Ebooklib.ITEM_DOCUMENT)
    with (is_document item).
  destruct (is_document item).
  + rewrite chapter_progress_value. cbv [Py.bind Py.call]. rewrite report_recording.
    destruct (Converter._process_html_content _ _ _) as [e|processed]; [discriminate|].
    destruct (BeautifulSoup processed) as [e|soup]; [discriminate|].
    intros Hv. destruct (IH _ _ _ _ Hv) as (Hlog & chapters & -> & Hlen & Hblocks).
    split.
    * rewrite Hlog, <- app_assoc. reflexivity.
    * eexists (_ :: chapters). rewrite <- app_assoc. split; [reflexivity|].
      split; [cbn [List.length]; rewrite Hlen; reflexivity|].
      constructor; [|exact Hblocks].
      destruct (Bs4.find "body" soup); eexists; reflexivity.
  + intros Hv. destruct (IH _ _ _ _ Hv) as (Hlog & chapters & -> & Hlen & Hblocks).
    split; [exact Hlog|]. exists chapters. repeat split; assumption.
Qed.

(** X3.  The reports of a conversion that returns are, in order: the
    three about opening, images and chapters; one for every document
    among the spine items, numbered by its position among all spine items
    and with the fraction of that position; and the three about
    generating, writing and completion. *)
Theorem reports_of_success epub_path output_path log returned :
  Converter.convert recording epub_path output_path [] = (log, inr returned) ->
  exists book,
    read_epub epub_path = inr book
    /\ log = [ (0%Q, "Opening EPUB file...");
               (Float.lit (1 # 10), "Extracting images...");
               (Float.lit (2 # 10), "Processing chapters...") ]
             ++ chapter_reports (List.length (Converter.spine_items_of book)) 0
                                (Converter.spine_items_of book)
             ++ [ (Float.lit (7 # 10), "Generating PDF...");
                  (Float.lit (85 # 100), "Writing PDF file...");
                  (1%Q, "Complete!") ].
Proof.
unfold Converter.convert, Converter.convert_body, Converter.assemble, Converter.on_error,
  Py.try_except.
cbv [Py.bind Py.call Py.ret Py.raise]. rewrite !report_recording.
destruct (read_epub epub_path) as [e|book]; [rewrite report_recording; discriminate|].
rewrite ?report_recording.
match goal with
| |- context [Converter.process_chapters recording ?im ?t ?i ?it ?p ?l] =>
    pose proof (chapters_reports im t it i p l) as Hch;
    destruct (Converter.process_chapters recording im t i it p l) as [log1 [e|parts]]
end; [rewrite report_recording; discriminate|].
destruct (Hch parts eq_refl) as [Hlog _]. cbn [fst] in Hlog. subst log1.
rewrite ?report_recording.
destruct (HTML _) as [e|html_doc]; [rewrite report_recording; discriminate|].
destruct (CSS _) as [e|css]; [rewrite report_recording; discriminate|].
rewrite ?report_recording.
destruct (write_pdf _ _ _) as [e|[]]; [rewrite report_recording; discriminate|].
rewrite ?report_recording. intros [= <- _].
exists book. split; [reflexivity|].
cbn [app]. rewrite <- !app_assoc. reflexivity.
Qed.

(** The blocks of the chapter loop that does not fail, whatever the
    callback. *)
Lemma chapters_blocks {St} (self : Converter.EPUBConverter (St := St)) images total items :
  forall idx parts s parts',
  snd (Converter.process_chapters self images total idx items parts s) = inr parts' ->
  exists chapters,
    parts' = parts ++ chapters
    /\ List.length chapters = List.length (List.filter is_document items)
    /\ Forall (fun block => exists content, block = Converter.chapter_block content)
              chapters.
Proof.
induction items as [|item rest IH]; intros idx parts s parts'.
- cbn. intros [= <-]. exists []. rewrite app_nil_r. repeat split. constructor.
- cbn [Converter.process_chapters List.filter].
  change (Ebooklib.item_type_eqb (Ebooklib.get_type item) Ebooklib.ITEM_DOCUMENT)
    with (is_document item).
  destruct (is_document item); [|apply IH].
  rewrite chapter_progress_value. cbv [Py.bind Py.call].
  destruct (Converter._report_progress self _ _ s) as [s1 [e|[]]]; [discriminate|].
  destruct (Converter._process_html_content _ _ _) as [e|processed]; [discriminate|].
  destruct (BeautifulSoup processed) as [e|soup]; [discriminate|].
  intros Hv. destruct (IH _ _ _ _ Hv) as (chapters & -> & Hlen & Hblocks).
  eexists (_ :: chapters). rewrite <- app_assoc. split; [reflexivity|].
  split; [cbn [List.length]; rewrite Hlen; reflexivity|].
  constructor; [|exact Hblocks].
  destruct (Bs4.find "body" soup); eexists; reflexivity.
Qed.

(** X4.  The markup that goes to the renderer is the page frame around
    the title page followed by one chapter block for every document among
    the spine items: a spine item of another type gives no block. *)
Theorem chapter_block_per_document {St} (self : Converter.EPUBConverter (St := St))
    book images epub_path (s s' : St) document :
  Converter.assemble self book images epub_path s = (s', inr document) ->
  exists chapters,
    document
    = Converter.full_html_of (Converter.book_title book epub_path)
        (Converter.title_page (Converter.book_title book epub_path)
                              (Converter.book_author book) :: chapters)
    /\ List.length chapters
       = List.length (List.filter is_document (Converter.spine_items_of book))
    /\ Forall (fun block => exists content, block = Converter.chapter_block content)
              chapters.
Proof.
unfold Converter.assemble. cbv [Py.bind Py.ret].
match goal with
| |- context [Converter.process_chapters self ?im ?t ?i ?it ?p ?l] =>
    pose proof (chapters_blocks self im t it i p l) as Hch;
    destruct (Converter.process_chapters self im t i it p l) as [s1 [e|parts]]
end; [discriminate|].
destruct (Hch parts eq_refl) as (chapters & -> & Hlen & Hblocks).
destruct (Converter._report_progress _ _ _ _) as [s2 [e|[]]]; [discriminate|].
intros [= _ <-].
exists chapters. repeat split; assumption.
Qed.

End PipelineFacts.

(** ** The image index and the markup, continued *)

Section ImageFacts.

Context `{Collaborators}.

Lemma fold_extract_snoc items item images :
  List.fold_left Converter.extract_step (items ++ [item]) images
  = Converter.extract_step (List.fold_left Converter.extract_step items images) item.
Proof. apply List.fold_left_app. Qed.

(** X5.  Every entry of the image index comes from an image item of the
    book: its key is one of the four keys of the name of the item and its
    value is the data URI of the item.  Items of other types leave
    nothing in the index. *)
Theorem index_holds_images_only book key uri :
  Converter._extract_images book !! key = Some uri ->
  exists item,
    In item (Ebooklib.get_items book)
    /\ Ebooklib.get_type item = Ebooklib.ITEM_IMAGE
    /\ In key (keys_of (Ebooklib.get_name item))
    /\ uri = Converter.data_uri_of item.
Proof.
unfold Converter._extract_images.
induction (Ebooklib.get_items book) as [|item items IH] using List.rev_ind.
- cbn. rewrite lookup_empty. discriminate.
- rewrite fold_extract_snoc. unfold Converter.extract_step at 1.
  destruct (Ebooklib.item_type_eqb _ _) eqn:E.
  + destruct (in_dec string_dec key (keys_of (Ebooklib.get_name item))) as [Hin|Hout].
    * rewrite store_lookup_in by exact Hin. intros [= <-].
      exists item. split; [apply in_or_app; right; left; reflexivity|].
      split; [apply item_type_eqb_eq, E|]. split; [exact Hin | reflexivity].
    * rewrite store_lookup_out by exact Hout. intros Hl.
      destruct (IH Hl) as (found & Hfound & Hrest).
      exists found. split; [apply in_or_app; left; exact Hfound | exact Hrest].
  + intros Hl. destruct (IH Hl) as (found & Hfound & Hrest).
    exists found. split; [apply in_or_app; left; exact Hfound | exact Hrest].
Qed.

Lemma mime_types_get_known img_ext : In (Converter.mime_types_get img_ext) image_mime_types.
Proof.
unfold Converter.mime_types_get, image_mime_types.
repeat match goal with |- context [String.eqb ?a ?b] => destruct (String.eqb a b) end;
  cbn; tauto.
Qed.

(** X6.  The data URI of an item is [data:<type>;base64,<payload>] with
    a type of the table of [_extract_images]; either the payload is the
    content of the item and the type that of its extension ([image/png]
    for an unknown one), or the optimisation succeeded, the payload is
    what it saved and the type is [image/jpeg]. *)
Theorem data_uri_payload item :
  exists mime_type data,
    Converter.data_uri_of item
    = ("data:" ++ mime_type ++ ";base64," ++ b64encode data)%string
    /\ In mime_type image_mime_types
    /\ ((data = Ebooklib.get_content item
         /\ mime_type = Converter.mime_types_get
                          (PyStr.lower (PyStr.path_suffix (Ebooklib.get_name item))))
        \/ (mime_type = "image/jpeg"
            /\ Converter.optimize (Ebooklib.get_content item) = inr (data, mime_type))).
Proof.
unfold Converter.data_uri_of.
set (img_ext := PyStr.lower (PyStr.path_suffix (Ebooklib.get_name item))).
destruct (Converter.optimizable img_ext).
- destruct (Converter.optimize (Ebooklib.get_content item)) as [e|[data mime_type]] eqn:E.
  + exists (Converter.mime_types_get img_ext), (Ebooklib.get_content item).
    split; [reflexivity|]. split; [apply mime_types_get_known | left; split; reflexivity].
  + assert (mime_type = "image/jpeg") as ->.
    { unfold Converter.optimize in E.
      destruct (Converter.optimized_image _); [discriminate|].
      destruct (save_jpeg _); [discriminate|]. injection E as _ <-. reflexivity. }
    exists "image/jpeg", data. split; [reflexivity|].
    split; [cbn; tauto | right; split; reflexivity].
- exists (Converter.mime_types_get img_ext), (Ebooklib.get_content item).
  split; [reflexivity|]. split; [apply mime_types_get_known | left; split; reflexivity].
Qed.

Lemma flatten_mode img :
  PIL.mode (Converter.flatten img) <> "RGBA" /\ PIL.mode (Converter.flatten img) <> "P".
Proof.
unfold Converter.flatten.
destruct (String.eqb_spec (PIL.mode img) "RGBA") as [E1|E1];
  destruct (String.eqb_spec (PIL.mode img) "P") as [E2|E2]; cbn [orb PIL.mode];
  split; congruence.
Qed.

(** X7.  The image that the optimiser hands to [save] is in neither of
    the modes [RGBA] and [P], is no wider and no higher than the image
    that was opened, and has the mode of the opened image when that is
    neither [RGBA] nor [P].  The image has at most 178956970 pixels, the
    most that [Image.open] accepts. *)
Theorem saved_image_is_flat_and_no_larger img_data img img' :
  Image_open img_data = inr img ->
  Converter.optimized_image img_data = inr img' ->
  0 <= PIL.height img ->
  PIL.width img * PIL.height img <= 178956970 ->
  PIL.mode img' <> "RGBA" /\ PIL.mode img' <> "P"
  /\ PIL.width img' <= PIL.width img /\ PIL.height img' <= PIL.height img
  /\ (PIL.mode img <> "RGBA" -> PIL.mode img <> "P" -> PIL.mode img' = PIL.mode img).
Proof.
intros Hopen. unfold Converter.optimized_image. rewrite Hopen.
destruct (Converter.resize_if_large img) as [e|resized] eqn:Hresize; [discriminate|].
intros [= <-] Hh Hpixels.
destruct (flatten_mode resized) as [Hm1 Hm2].
pose proof (flatten_size resized) as Hflat. unfold PIL.size in Hflat.
injection Hflat as Hfw Hfh. rewrite Hfw, Hfh.
split; [exact Hm1|]. split; [exact Hm2|].
assert (Hkeep : PIL.mode resized = PIL.mode img ->
          PIL.mode img <> "RGBA" -> PIL.mode img <> "P" ->
          PIL.mode (Converter.flatten resized) = PIL.mode img).
{ intros Hmode N1 N2. unfold Converter.flatten. rewrite Hmode.
  apply String.eqb_neq in N1, N2. rewrite N1, N2. exact Hmode. }
unfold Converter.resize_if_large in Hresize.
destruct (Z.ltb_spec 1200 (PIL.width img)) as [Hw|Hw].
- unfold Py.truediv in Hresize.
  destruct (Z.eqb_spec (PIL.width img) 0) as [E|_]; [lia|].
  fold (ratio_of (PIL.width img)) in Hresize.
  fold (scaled_height (PIL.width img) (PIL.height img)) in Hresize.
  unfold Converter.Image_resize in Hresize. cbn [fst snd] in Hresize.
  destruct ((1200 <? 1) || (scaled_height (PIL.width img) (PIL.height img) <? 1));
    [discriminate|].
  injection Hresize as <-. cbn [PIL.width PIL.height PIL.mode] in *.
  destruct (scaled_height_bounds _ _ Hw Hh Hpixels) as [_ Hup].
  split; [lia|]. split; [nia|]. apply Hkeep. reflexivity.
- injection Hresize as <-. split; [lia|]. split; [lia|]. apply Hkeep. reflexivity.
Qed.

Lemma set_present attrs key value :
  PyStr.is_empty (Bs4.get attrs key EmptyString) = false ->
  List.map fst (Bs4.set attrs key value) = List.map fst attrs
  /\ forall other default, other <> key ->
       Bs4.get (Bs4.set attrs key value) other default = Bs4.get attrs other default.
Proof.
induction attrs as [|[k v] rest IH]; cbn [Bs4.get Bs4.set].
- discriminate.
- destruct (String.eqb_spec k key) as [->|Hk].
  + intros _. split; [reflexivity|]. intros other default Hne.
    cbn [Bs4.get]. destruct (String.eqb_spec key other); [congruence | reflexivity].
  + intros Hp. destruct (IH Hp) as [Hnames Hothers]. split.
    * cbn [List.map fst]. rewrite Hnames. reflexivity.
    * intros other default Hne. cbn [Bs4.get]. rewrite (Hothers other default Hne).
      reflexivity.
Qed.

(** X8.  Resolving an image leaves the names and the order of the
    attributes of the tag as they are, and the value of every attribute
    other than [src]. *)
Theorem fix_img_touches_src_only images base_path attrs :
  List.map fst (Converter.fix_img images base_path attrs) = List.map fst attrs
  /\ forall key default, key <> "src" ->
       Bs4.get (Converter.fix_img images base_path attrs) key default
       = Bs4.get attrs key default.
Proof.
unfold Converter.fix_img.
destruct (PyStr.is_empty (Bs4.get attrs "src" EmptyString)) eqn:E; [split; reflexivity|].
destruct (Converter.first_match _ _) as [uri|]; [|split; reflexivity].
apply set_present, E.
Qed.

Lemma first_match_empty variants :
  Converter.first_match ∅ variants = None.
Proof.
induction variants as [|v rest IH]; [reflexivity|].
cbn [Converter.first_match]. rewrite lookup_empty. exact IH.
Qed.

Lemma fix_img_empty base_path attrs : Converter.fix_img ∅ base_path attrs = attrs.
Proof.
unfold Converter.fix_img. rewrite first_match_empty.
destruct (PyStr.is_empty _); reflexivity.
Qed.

Lemma update_in_id nm f n :
  (forall attrs, f attrs = attrs) -> Bs4.update_in nm f n = n.
Proof.
intros Hf. induction n as [text | name attrs contents IH] using node_induction.
- reflexivity.
- cbn [Bs4.update_in]. rewrite Hf. destruct (String.eqb name nm); f_equal.
  + induction IH as [|c r Hc _ IHr]; [reflexivity|]. cbn [List.map]. rewrite Hc, IHr.
    reflexivity.
  + induction IH as [|c r Hc _ IHr]; [reflexivity|]. cbn [List.map]. rewrite Hc, IHr.
    reflexivity.
Qed.

Lemma decompose_in_id nm n :
  Bs4.find_all_in nm n = [] -> Bs4.decompose_in nm n = [n].
Proof.
induction n as [text | name attrs contents IH] using node_induction.
- reflexivity.
- cbn [Bs4.find_all_in Bs4.decompose_in].
  destruct (String.eqb name nm); [discriminate|]. cbn [app]. intros Hnone.
  f_equal. f_equal.
  induction IH as [|c r Hc _ IHr]; [reflexivity|].
  cbn [List.flat_map] in *. apply app_eq_nil in Hnone as [H1 H2].
  rewrite (Hc H1), (IHr H2). reflexivity.
Qed.

(** X9.  With an empty image index, markup without a [script] element
    goes through [_process_html_content] unchanged: no source is
    rewritten and nothing is removed. *)
Theorem plain_markup_is_kept base_path soup :
  Bs4.find_all "script" soup = [] ->
  Converter.process_soup ∅ base_path soup = soup.
Proof.
intros Hnone. unfold Converter.process_soup, Bs4.update_all, Bs4.decompose_all.
rewrite (List.map_ext _ (fun n => n)) by (intros n; apply update_in_id, fix_img_empty).
rewrite List.map_id.
unfold Bs4.find_all in Hnone.
induction soup as [|n rest IH]; [reflexivity|].
cbn [List.flat_map] in *. apply app_eq_nil in Hnone as [H1 H2].
rewrite (decompose_in_id _ _ H1), (IH H2). reflexivity.
Qed.

(** X10.  The spine items are the items of the book that the spine
    names, in the order of the spine; an entry of the spine that names no
    item of the book is passed over. *)
Theorem spine_items_follow_spine book :
  List.map Ebooklib.id (Converter.spine_items_of book)
  = List.filter
      (fun uid => existsb (fun item => String.eqb (Ebooklib.id item) uid)
                          (Ebooklib.get_items book))
      (List.map fst (Ebooklib.spine book))
  /\ Forall (fun item => In item (Ebooklib.get_items book)) (Converter.spine_items_of book).
Proof.
unfold Converter.spine_items_of.
induction (Ebooklib.spine book) as [|[uid linear] rest [IH1 IH2]]; [split; [reflexivity | constructor]|].
cbn [List.flat_map List.map List.filter fst]. unfold Ebooklib.get_item_with_id at 1 3.
destruct (List.find _ _) as [item|] eqn:E.
- apply List.find_some in E as [Hin Heq].
  assert (Hex : existsb (fun item => String.eqb (Ebooklib.id item) uid)
                        (Ebooklib.get_items book) = true).
  { apply existsb_exists. exists item. split; assumption. }
  rewrite Hex. cbn [app List.map]. apply String.eqb_eq in Heq. rewrite Heq, IH1.
  split; [reflexivity|]. constructor; assumption.
- assert (Hex : existsb (fun item => String.eqb (Ebooklib.id item) uid)
                        (Ebooklib.get_items book) = false).
  { apply not_true_is_false. intros Hex. apply existsb_exists in Hex as (item & Hin & Heq).
    rewrite (List.find_none _ _ E item Hin) in Heq. discriminate. }
  rewrite Hex. cbn [app]. split; assumption.
Qed.

End ImageFacts.

(** ** The worker, job by job *)

Section FrameFacts.

Context `{Collaborators}.
Context {X : Type}.
Variable f : Q -> string -> X.

#[local] Abbreviation appending := (appending f).

Lemma framed_ret {A} (a : A) : framed (X := X) (Py.ret a).
Proof. intros log. cbn. rewrite app_nil_r. reflexivity. Qed.

Lemma framed_raise {A} e : framed (X := X) (Py.raise (A := A) e).
Proof. intros log. cbn. rewrite app_nil_r. reflexivity. Qed.

Lemma framed_call {A} (r : Py.result A) : framed (X := X) (Py.call r).
Proof. intros log. cbn. rewrite app_nil_r. reflexivity. Qed.

Lemma framed_append (x : X) : framed (Py.effect (fun log => log ++ [x])).
Proof. intros log. reflexivity. Qed.

Lemma framed_bind {A B} (c : Py.M (list X) A) (k : A -> Py.M (list X) B) :
  framed c -> (forall a, framed (k a)) -> framed (Py.bind c k).
Proof.
intros Hc Hk log. unfold Py.bind. rewrite (Hc log).
destruct (c []) as [ext [e|a]]; cbn [fst snd].
- reflexivity.
- rewrite (Hk a (log ++ ext)), (Hk a ext). cbn [fst snd]. rewrite app_assoc. reflexivity.
Qed.

Lemma framed_try {A} (c : Py.M (list X) A) (h : Py.exn -> Py.M (list X) A) :
  framed c -> (forall e, framed (h e)) -> framed (Py.try_except c h).
Proof.
intros Hc Hh log. unfold Py.try_except. rewrite (Hc log).
destruct (c []) as [ext [e|a]]; cbn [fst snd].
- rewrite (Hh e (log ++ ext)), (Hh e ext). cbn [fst snd]. rewrite app_assoc. reflexivity.
- reflexivity.
Qed.

Lemma framed_report progress message :
  framed (Converter._report_progress appending progress message).
Proof. intros log. reflexivity. Qed.

Lemma framed_chapters images total items :
  forall idx parts, framed (Converter.process_chapters appending images total idx items parts).
Proof.
induction items as [|item rest IH]; intros idx parts; cbn [Converter.process_chapters].
- apply framed_ret.
- destruct (Ebooklib.item_type_eqb _ _); [|apply IH].
  apply framed_bind; [apply framed_call|]. intros progress.
  apply framed_bind; [apply framed_report|]. intros _.
  apply framed_bind; [apply framed_call|]. intros processed.
  apply framed_bind; [apply framed_call|]. intros soup.
  apply IH.
Qed.

Lemma framed_assemble book images epub_path :
  framed (Converter.assemble appending book images epub_path).
Proof.
unfold Converter.assemble.
apply framed_bind; [apply framed_chapters|]. intros parts.
apply framed_bind; [apply framed_report|]. intros _.
apply framed_ret.
Qed.

Lemma framed_convert epub_path output_path :
  framed (Converter.convert appending epub_path output_path).
Proof.
apply framed_try.
- unfold Converter.convert_body.
  repeat first
    [ apply framed_ret
    | apply framed_bind;
        [ first [apply framed_call | apply framed_report | apply framed_assemble]
        | intros ? ] ].
- intros e. apply framed_bind; [apply framed_report | intros _; apply framed_raise].
Qed.

End FrameFacts.

Section WorkerOrder.

Context `{Collaborators}.

Lemma framed_process item : framed (App.process App.record_call item).
Proof.
unfold App.process. apply framed_try.
- apply framed_bind; [apply framed_append|]. intros _.
  apply framed_bind.
  + apply (framed_convert (fun p m => (App.id item, App.CONVERTING, p, m))).
  + intros _. apply framed_append.
- intros e. apply framed_append.
Qed.

Lemma process_appends_trace item log :
  fst (App.process App.record_call item log) = log ++ trace_of item.
Proof. rewrite (framed_process item log). reflexivity. Qed.

Lemma run_appends_traces turns : forall log,
  App.run App.record_call turns log = log ++ List.concat (List.map trace_of (dequeued turns)).
Proof.
induction turns as [|[| |[item|]] rest IH]; intros log; cbn [App.run dequeued List.map List.concat];
  rewrite ?app_nil_r; try reflexivity.
- apply IH.
- rewrite IH, process_appends_trace, <- app_assoc. reflexivity.
Qed.

Lemma trace_shape item :
  exists mid,
    trace_of item
    = starting (App.id item) :: opening (App.id item) :: mid ++ [verdict item]
    /\ Forall (converting_of (App.id item)) mid.
Proof.
unfold trace_of, verdict, App.process, Py.try_except, Py.bind, Py.effect, App.record_call.
destruct (convert_appends (fun p m => (App.id item, App.CONVERTING, p, m))
            (converting_of (App.id item)) (fun _ _ => conj eq_refl eq_refl)
            (App.epub_path item) (App.output_path item)
            ([] ++ [starting (App.id item)]))
  as (mid & E & F).
pose proof (agree_convert (appending (fun p m => (App.id item, App.CONVERTING, p, m)))
              (silent (St := unit)) (fun _ _ _ => eq_refl) (fun _ _ _ => eq_refl)
              (App.epub_path item) (App.output_path item)
              ([] ++ [starting (App.id item)]) tt) as Hsame.
change (Converter.convert silent ?p ?o ?s)
  with (Converter.convert_epub_to_pdf p o None s) in Hsame.
rewrite <- Hsame.
change (Converter.convert (appending _) ?p ?o ?l)
  with (Converter.convert_epub_to_pdf p o
          (Some (fun progress message =>
                   Py.effect (App.record_call (App.id item) App.CONVERTING progress message)))
          l)
  in E |- *.
unfold App.record_call, Py.effect, starting in *.
destruct (Converter.convert_epub_to_pdf _ _ _ _) as [log1 [e|b]]; cbn [fst snd] in *;
  subst log1; exists mid; (split; [|exact F]); cbn [app]; rewrite <- ?app_assoc; reflexivity.
Qed.

Lemma trace_about_item item :
  Forall (fun n => App.job_of n = App.id item) (trace_of item).
Proof.
destruct (trace_shape item) as (mid & -> & Hmid).
repeat constructor. apply Forall_app. split.
- eapply List.Forall_impl; [|exact Hmid]. intros n [? _]. assumption.
- constructor; [|constructor]. unfold verdict.
  destruct (snd _); reflexivity.
Qed.

(** X11.  The worker deals with the items in the order in which it
    dequeues them, one after the other: its notifications are those of
    the first item, then those of the second, and so on, and the
    notifications of an item all carry the id of that item. *)
Theorem worker_takes_jobs_in_turn turns :
  App.worker_events turns = List.concat (List.map trace_of (dequeued turns))
  /\ forall item, Forall (fun n => App.job_of n = App.id item) (trace_of item).
Proof.
split.
- unfold App.worker_events. apply (run_appends_traces turns []).
- apply trace_about_item.
Qed.

(** X12.  The notifications about a dequeued item begin with the start
    of the conversion and the opening of the source, go on with
    [CONVERTING] ones and end with one verdict: [COMPLETED] with progress
    1 exactly when the pipeline returns, [FAILED] with progress 0 and the
    text of the exception when it raises. *)
Theorem job_ends_as_pipeline_does item :
  exists mid,
    trace_of item
    = starting (App.id item) :: opening (App.id item) :: mid ++ [verdict item]
    /\ Forall (converting_of (App.id item)) mid
    /\ (App.status_of (verdict item) = App.COMPLETED
        <-> exists returned,
              snd (Converter.convert_epub_to_pdf (App.epub_path item) (App.output_path item)
                     None tt) = inr returned).
Proof.
destruct (trace_shape item) as (mid & Htrace & Hmid).
exists mid. split; [exact Htrace|]. split; [exact Hmid|].
unfold verdict. destruct (snd _) as [e|returned]; cbn; split.
- discriminate.
- intros [? [=]].
- intros _. eexists. reflexivity.
- reflexivity.
Qed.

Lemma dequeued_stop before after :
  dequeued (before ++ App.Entry None :: after) = dequeued before.
Proof.
induction before as [|[| |[item|]] rest IH]; cbn [app dequeued]; try reflexivity.
- exact IH.
- rewrite IH. reflexivity.
Qed.

End WorkerOrder.

(** ** The states of the window *)

Section WindowFacts.

Context `{Collaborators}.

Lemma jobs_of_drain_app q1 q2 :
  jobs_of (App.drain (q1 ++ q2)) = jobs_of (App.drain q1) ++ jobs_of (App.drain q2).
Proof.
unfold App.drain.
induction q1 as [|[item|] rest IH]; cbn [app List.map jobs_of];
  [reflexivity | rewrite IH; reflexivity | exact IH].
Qed.

Lemma consistent_init : consistent App.init.
Proof.
split; [|split].
- intros key. cbn. rewrite !lookup_empty. reflexivity.
- intros key item. cbn. rewrite lookup_empty. discriminate.
- reflexivity.
Qed.

Lemma consistent_enqueue epub_path output_path app :
  consistent app -> consistent (App.enqueue epub_path output_path app).
Proof.
intros (Hw & Hq & Hids). unfold App.enqueue.
set (key := uuid4 (App.uuid_calls app)).
split; [|split]; cbn [App.queue_items App.item_widgets App.task_queue App.uuid_calls].
- intros k. rewrite !lookup_insert. case_decide; [reflexivity | apply Hw].
- intros k item. rewrite lookup_insert. case_decide as Hk.
  + intros [= <-]. split; [exact Hk|]. eexists. split; [apply in_or_app; right; left; reflexivity|].
    cbn. auto.
  + intros Hl. destruct (Hq k item Hl) as (Hid & queued & Hin & Hrest).
    split; [exact Hid|]. exists queued. split; [apply in_or_app; left; exact Hin | exact Hrest].
- rewrite jobs_of_drain_app, Hids, List.seq_S, List.map_app. reflexivity.
Qed.

Lemma consistent_add paths : forall app,
  consistent app -> consistent (fst (App._add_files_to_queue paths app)).
Proof.
unfold App._add_files_to_queue.
induction paths as [|path rest IH]; intros app Happ; cbn [Py.for_each]; [exact Happ|].
unfold Py.bind at 1.
destruct (negb (path_exists path)).
- cbn. apply IH, Happ.
- destruct (App.output_path_for app path) as [e|output_path]; [exact Happ|].
  apply IH, consistent_enqueue, Happ.
Qed.

Lemma consistent_remove item_id app :
  consistent app -> consistent (App._remove_item item_id app).
Proof.
intros (Hw & Hq & Hids). unfold App._remove_item.
split; [|split]; cbn [App.queue_items App.item_widgets App.task_queue App.uuid_calls].
- intros k. rewrite !lookup_delete. case_decide; [reflexivity | apply Hw].
- intros k item. rewrite lookup_delete. case_decide; [discriminate | apply Hq].
- exact Hids.
Qed.

Lemma consistent_clear app : consistent app -> consistent (App._clear_completed app).
Proof.
unfold App._clear_completed. generalize (List.map fst
  (List.filter (fun kv => App.status_eqb (App.status (snd kv)) App.COMPLETED
                          || App.status_eqb (App.status (snd kv)) App.FAILED)
               (map_to_list (App.queue_items app)))).
intros ids. revert app. induction ids as [|k ids IH]; intros app Happ; [exact Happ|].
cbn [List.fold_left]. apply IH, consistent_remove, Happ.
Qed.

Lemma consistent_update n app : consistent app -> consistent (App._update_item n app).
Proof.
intros (Hw & Hq & Hids). destruct n as [[[key st] p] m]. unfold App._update_item.
split; [|split]; cbn [App.queue_items App.item_widgets App.task_queue App.uuid_calls].
- intros k. specialize (Hw key) as Hkey.
  destruct (App.queue_items app !! key) as [item|] eqn:E; rewrite Hkey; cbn [fmap option_fmap option_map].
  + rewrite !lookup_insert. case_decide; [reflexivity | apply Hw].
  + apply Hw.
- intros k item'.
  destruct (App.queue_items app !! key) as [item|] eqn:E; [|apply Hq].
  rewrite lookup_insert. case_decide as Hk; [|apply Hq].
  intros [= <-]. subst k. destruct (Hq key item E) as (Hid & queued & Hin & Hrest).
  split; [exact Hid|]. exists queued. split; [exact Hin | exact Hrest].
- exact Hids.
Qed.

Lemma consistent_select directory app :
  consistent app -> consistent (Window._select_output_dir directory app).
Proof.
intros Happ. unfold Window._select_output_dir.
destruct (PyStr.is_empty directory); exact Happ.
Qed.

Lemma consistent_close app : consistent app -> consistent (Window._on_close app).
Proof.
intros (Hw & Hq & Hids). split; [exact Hw|]. split.
- intros k item Hl. destruct (Hq k item Hl) as (Hid & queued & Hin & Hrest).
  split; [exact Hid|]. exists queued.
  split; [cbn; apply in_or_app; left; exact Hin | exact Hrest].
- cbn [Window._on_close App.task_queue App.uuid_calls].
  rewrite jobs_of_drain_app, Hids. cbn. apply app_nil_r.
Qed.

(** The ids on the task queue of a state that the handlers lead to. *)
Lemma reachable_ids app :
  reachable app ->
  jobs_of (App.drain (App.task_queue app))
  = List.map uuid4 (List.seq 0 (App.uuid_calls app)).
Proof.
intros Hreach. cut (consistent app); [intros (_ & _ & Hids); exact Hids|].
induction Hreach;
  auto using consistent_init, consistent_add, consistent_remove, consistent_clear,
    consistent_update, consistent_select, consistent_close.
Qed.

(** X13.  In every state that the handlers of the window lead to from
    the start, the jobs and the widgets have the same ids, every widget
    shows the status, progress and message of its job, every job is
    stored under its own id and is, with its paths, an item that was put
    on the task queue, and the items put there carry the results of
    [uuid4] in the order of the calls. *)
Theorem handlers_keep_jobs_and_widgets_together app :
  reachable app -> consistent app.
Proof.
induction 1 as [|paths app _ IH|item_id app _ IH|app _ IH|n app _ IH|directory app _ IH|app _ IH].
- apply consistent_init.
- apply consistent_add, IH.
- apply consistent_remove, IH.
- apply consistent_clear, IH.
- apply consistent_update, IH.
- apply consistent_select, IH.
- apply consistent_close, IH.
Qed.

End WindowFacts.

(** ** Adding, clearing and closing *)

Section QueueingFacts.

Context `{Collaborators}.

(** X14.  [_add_files_to_queue] puts one pending job on the task queue
    for every path that exists, in the order of the paths and behind what
    is queued already; a path that does not exist is passed over.  The
    ids are the next results of [uuid4], and the destination of a job is
    the one that the output directory of that moment gives. *)
Theorem added_files_are_queued_in_order paths : forall app app',
  App._add_files_to_queue paths app = (app', inr tt) ->
  exists items,
    App.task_queue app' = App.task_queue app ++ List.map Some items
    /\ List.map App.epub_path items = List.filter path_exists paths
    /\ List.map App.id items
       = List.map uuid4 (List.seq (App.uuid_calls app) (List.length items))
    /\ Forall (fun item =>
                 App.status item = App.PENDING
                 /\ App.output_path_for app (App.epub_path item)
                    = inr (App.output_path item)) items.
Proof.
unfold App._add_files_to_queue.
induction paths as [|path rest IH]; intros app app'; cbn [Py.for_each List.filter].
- intros [= <-]. exists []. cbn. rewrite app_nil_r. repeat split. constructor.
- unfold Py.bind at 1. destruct (path_exists path) eqn:Hex; cbn [negb].
  + destruct (App.output_path_for app path) as [e|output_path] eqn:Hout; [discriminate|].
    intros Hrest. destruct (IH _ _ Hrest) as (items & Hq & Hpaths & Hids & Hitems).
    exists (App.new_item (uuid4 (App.uuid_calls app)) path output_path :: items).
    split; [|split; [|split]].
    * rewrite Hq. cbn [App.enqueue App.task_queue List.map]. rewrite <- app_assoc. reflexivity.
    * cbn [List.map App.new_item App.epub_path]. rewrite Hpaths. reflexivity.
    * cbn [List.map List.length List.seq App.new_item App.id]. rewrite Hids. reflexivity.
    * constructor; [split; [reflexivity | exact Hout]|].
      eapply List.Forall_impl; [|exact Hitems]. intros item [? ?]. split; assumption.
  + cbn. apply IH.
Qed.

Lemma add_files_appends paths : forall app,
  exists more,
    App.task_queue (fst (App._add_files_to_queue paths app)) = App.task_queue app ++ more.
Proof.
unfold App._add_files_to_queue.
induction paths as [|path rest IH]; intros app; cbn [Py.for_each].
- exists []. cbn. rewrite app_nil_r. reflexivity.
- unfold Py.bind at 1. destruct (negb (path_exists path)); [apply IH|].
  destruct (App.output_path_for app path) as [e|output_path].
  + exists []. cbn. rewrite app_nil_r. reflexivity.
  + destruct (IH (App.enqueue path output_path app)) as [more Hmore].
    eexists. rewrite Hmore. cbn [App.enqueue App.task_queue]. rewrite <- app_assoc.
    reflexivity.
Qed.

Lemma reads_before_token running more turns : forall queued,
  reads running (queued ++ None :: more) turns ->
  exists rest, queued = List.map Some (dequeued turns) ++ rest.
Proof.
intros queued Hreads. remember (queued ++ None :: more) as entries eqn:Hentries.
revert queued Hentries.
induction Hreads as [entries|entries rest Hflag|entries turns _ IH|entry entries turns _ IH];
  intros queued Hentries; cbn [dequeued List.map].
- exists queued. reflexivity.
- exists queued. reflexivity.
- apply IH, Hentries.
- destruct queued as [|first queued]; cbn [Datatypes.app] in Hentries.
  + injection Hentries as -> _. exists []. reflexivity.
  + injection Hentries as -> Hentries. destruct first as [item|].
    * destruct (IH queued Hentries) as [rest ->]. exists rest. reflexivity.
    * eexists. reflexivity.
Qed.

Lemma queued_job item entries :
  In (Some item) entries -> In (App.id item) (jobs_of (App.drain entries)).
Proof.
unfold App.drain.
induction entries as [|[other|] entries IH]; cbn [In List.map jobs_of]; [tauto| |].
- intros [[= ->]|Hin]; [left; reflexivity | right; apply IH, Hin].
- intros [[=]|Hin]. apply IH, Hin.
Qed.

(** X18.  Whatever turns the worker meets once the window is closed and
    further files are added (entries in the order of the queue, time-outs,
    its flag found cleared), the items it dequeues are the first of those
    that were put on the queue before the close, in that order, and every
    notification is about one of them: a file added after [_on_close] is
    never converted.  The jobs queued before the close need not all be
    converted. *)
Theorem nothing_is_converted_after_close paths app turns :
  met_by (fst (App._add_files_to_queue paths (Window._on_close app))) turns ->
  (exists rest, App.task_queue app = List.map Some (dequeued turns) ++ rest)
  /\ Forall (fun n => In (App.job_of n) (jobs_of (App.drain (App.task_queue app))))
            (App.worker_events turns).
Proof.
unfold met_by.
destruct (add_files_appends paths (Window._on_close app)) as [more ->].
cbn [Window._on_close App.task_queue]. rewrite <- app_assoc. cbn [Datatypes.app].
intros Hreads. apply reads_before_token in Hreads. destruct Hreads as [rest Hqueue].
split; [exists rest; exact Hqueue|].
unfold App.worker_events. rewrite run_appends_traces. cbn [Datatypes.app].
apply List.Forall_concat, List.Forall_map, List.Forall_forall. intros item Hitem.
eapply List.Forall_impl; [|apply trace_about_item].
intros n ->. apply queued_job. rewrite Hqueue.
apply in_or_app. left. apply in_map, Hitem.
Qed.

Lemma fold_remove_lookup ids : forall app key,
  App.queue_items (List.fold_left (fun a item_id => App._remove_item item_id a) ids app) !! key
  = if in_dec string_dec key ids then None else App.queue_items app !! key.
Proof.
induction ids as [|k ids IH]; intros app key; cbn [List.fold_left].
- destruct (in_dec string_dec key []) as [[]|_]. reflexivity.
- rewrite IH. cbn [App._remove_item App.queue_items]. rewrite lookup_delete.
  destruct (in_dec string_dec key ids) as [Hin|Hout],
    (in_dec string_dec key (k :: ids)) as [Hin'|Hout']; try reflexivity.
  + exfalso. apply Hout'. right. exact Hin.
  + destruct Hin' as [->|Hin']; [|contradiction]. rewrite decide_True by reflexivity.
    reflexivity.
  + case_decide as Hk; [|reflexivity]. exfalso. apply Hout'. left. exact Hk.
Qed.

Lemma fold_remove_task_queue ids : forall app,
  App.task_queue (List.fold_left (fun a item_id => App._remove_item item_id a) ids app)
  = App.task_queue app.
Proof.
induction ids as [|k ids IH]; intros app; cbn [List.fold_left]; [reflexivity|].
rewrite IH. reflexivity.
Qed.

(** X15.  [_clear_completed] removes the jobs that are [COMPLETED] or
    [FAILED] and keeps every other job as it is; the task queue is not
    touched. *)
Theorem clear_completed_removes_finished_only app key :
  App.queue_items (App._clear_completed app) !! key
  = match App.queue_items app !! key with
    | Some item => if terminal (App.status item) then None else Some item
    | None => None
    end
  /\ App.task_queue (App._clear_completed app) = App.task_queue app.
Proof.
unfold App._clear_completed. split; [|apply fold_remove_task_queue].
rewrite fold_remove_lookup.
set (finished := fun kv : string * App.QueueItem =>
       App.status_eqb (App.status (snd kv)) App.COMPLETED
       || App.status_eqb (App.status (snd kv)) App.FAILED).
assert (Hterm : forall item, finished (key, item) = terminal (App.status item)).
{ intros item. unfold finished. cbn. destruct (App.status item); reflexivity. }
destruct (in_dec string_dec key _) as [Hin|Hin].
- apply in_map_iff in Hin as ([k item] & Hk & Hin). cbn in Hk. subst k.
  apply filter_In in Hin as [Hin Hfin].
  apply list_elem_of_In, elem_of_map_to_list in Hin.
  rewrite Hin, <- Hterm, Hfin. reflexivity.
- destruct (App.queue_items app !! key) as [item|] eqn:E; [|reflexivity].
  destruct (terminal (App.status item)) eqn:T; [|reflexivity].
  exfalso. apply Hin. apply in_map_iff. exists (key, item). split; [reflexivity|].
  apply filter_In. split; [|rewrite Hterm; exact T].
  apply list_elem_of_In, elem_of_map_to_list. exact E.
Qed.

End QueueingFacts.

(** ** The jobs after the worker has run *)

Section SettleFacts.

Context `{Collaborators}.

Lemma update_item_lookup n app key :
  App.queue_items (App._update_item n app) !! key
  = if String.eqb (App.job_of n) key
    then settle n <$> App.queue_items app !! key
    else App.queue_items app !! key.
Proof.
destruct n as [[[job st] p] m]. unfold App._update_item. cbn [App.queue_items App.job_of fst].
destruct (String.eqb_spec job key) as [->|Hne].
- destruct (App.queue_items app !! key) as [item|] eqn:E.
  + rewrite lookup_insert_eq. reflexivity.
  + rewrite E. reflexivity.
- destruct (App.queue_items app !! job) as [item|]; [|reflexivity].
  rewrite lookup_insert_ne by exact Hne. reflexivity.
Qed.

Lemma about_snoc key log n :
  about key (log ++ [n])
  = if String.eqb (App.job_of n) key then about key log ++ [n] else about key log.
Proof.
rewrite about_app. unfold about at 2. cbn [List.filter].
destruct (String.eqb (App.job_of n) key); [reflexivity | apply app_nil_r].
Qed.

Lemma main_loop_lookup log : forall app key,
  App.queue_items (App.main_loop log app) !! key
  = match last (about key log) with
    | Some n => settle n <$> App.queue_items app !! key
    | None => App.queue_items app !! key
    end.
Proof.
induction log as [|n log IH] using List.rev_ind; intros app key; [reflexivity|].
unfold App.main_loop. rewrite List.fold_left_app. cbn [List.fold_left].
fold (App.main_loop log app). rewrite update_item_lookup, about_snoc, IH.
destruct (String.eqb (App.job_of n) key); [|reflexivity].
rewrite last_snoc. destruct (last (about key log)); [|reflexivity].
destruct (App.queue_items app !! key); reflexivity.
Qed.

Lemma about_traces key items :
  ~ In key (List.map App.id items) ->
  about key (List.concat (List.map trace_of items)) = [].
Proof.
induction items as [|x rest IH]; [reflexivity|].
cbn [List.map List.concat In]. intros Hout. rewrite about_app, IH by tauto.
rewrite (about_other key (App.id x)); [reflexivity | tauto | apply trace_about_item].
Qed.

Lemma about_own_trace item items :
  NoDup (List.map App.id items) -> In item items ->
  about (App.id item) (List.concat (List.map trace_of items)) = trace_of item.
Proof.
induction items as [|x rest IH]; [intros _ []|].
cbn [List.map List.concat]. intros Hnd Hin. apply NoDup_cons in Hnd as [Hx Hnd].
rewrite about_app. destruct Hin as [->|Hin].
- rewrite (about_same _ _ (trace_about_item item)), about_traces, app_nil_r; [reflexivity|].
  intros Hin. apply Hx, list_elem_of_In. exact Hin.
- rewrite (about_other (App.id item) (App.id x)), IH; [reflexivity | assumption.. | | apply trace_about_item].
  intros Heq. apply Hx. rewrite Heq. apply list_elem_of_In, in_map. exact Hin.
Qed.

Lemma jobs_of_dequeued turns :
  exists later, jobs_of turns = List.map App.id (dequeued turns) ++ later.
Proof.
induction turns as [|[| |[item|]] rest [later IH]]; cbn [jobs_of dequeued List.map].
- exists []. reflexivity.
- eexists. reflexivity.
- exists later. exact IH.
- exists later. rewrite IH. reflexivity.
- eexists. reflexivity.
Qed.

(** X16.  When the ids that [uuid4] gives are distinct, a job of the
    window that the worker dequeues ends, once the main loop has handled
    the updates of the worker, with the status, progress and message of
    its verdict, which is [COMPLETED] or [FAILED]: updates about other
    jobs do not reach it. *)
Theorem drained_jobs_are_settled app item job :
  reachable app ->
  (forall m n, uuid4 m = uuid4 n -> m = n) ->
  In item (dequeued (App.drain (App.task_queue app))) ->
  App.queue_items app !! App.id item = Some job ->
  App.queue_items
    (App.main_loop (App.worker_events (App.drain (App.task_queue app))) app)
    !! App.id item
  = Some (settle (verdict item) job)
  /\ terminal (App.status (settle (verdict item) job)) = true.
Proof.
intros Hreach Hinj Hin Hjob.
pose proof (reachable_ids app Hreach) as Hids.
assert (Hnd : NoDup (List.map App.id (dequeued (App.drain (App.task_queue app))))).
{ destruct (jobs_of_dequeued (App.drain (App.task_queue app))) as [later Hlater].
  rewrite Hids in Hlater.
  assert (Hall : NoDup (List.map uuid4 (List.seq 0 (App.uuid_calls app)))).
  { apply NoDup_fmap_2; [intros m n; apply Hinj | apply NoDup_ListNoDup, List.seq_NoDup]. }
  rewrite Hlater in Hall. apply NoDup_app in Hall as [Hall _]. exact Hall. }
split.
- rewrite main_loop_lookup. unfold App.worker_events. rewrite run_appends_traces.
  cbn [Datatypes.app]. rewrite (about_own_trace item _ Hnd Hin).
  destruct (trace_shape item) as (mid & Htrace & _).
  assert (Hlast : last (trace_of item) = Some (verdict item)).
  { apply last_Some. exists (starting (App.id item) :: opening (App.id item) :: mid).
    exact Htrace. }
  rewrite Hlast, Hjob. reflexivity.
- unfold verdict. destruct (snd _); reflexivity.
Qed.

End SettleFacts.

Section StatsFacts.

Lemma length_append (a b : string) :
  String.length (a ++ b)%string = (String.length a + String.length b)%nat.
Proof.
induction a as [|c a IH]; [reflexivity|].
change (S (String.length (a ++ b)%string) = S (String.length a + String.length b)).
rewrite IH. reflexivity.
Qed.

Lemma count_positive st (items : gmap string App.QueueItem) key item :
  items !! key = Some item -> App.status item = st ->
  (0 < Window.count_status st items)%nat.
Proof.
intros Hl Hs. unfold Window.count_status.
assert (Hin : In (key, item)
          (List.filter (fun kv => App.status_eqb (App.status (snd kv)) st)
                       (map_to_list items))).
{ apply filter_In. split.
  - apply list_elem_of_In, elem_of_map_to_list. exact Hl.
  - cbn. rewrite Hs. destruct st; reflexivity. }
destruct (List.filter _ _); [destruct Hin | cbn; lia].
Qed.

Lemma count_empty st : Window.count_status st ∅ = 0%nat.
Proof. unfold Window.count_status. rewrite map_to_list_empty. reflexivity. Qed.

(** X17.  The statistics label reads [Ready] exactly when the queue
    view has no job. *)
Theorem stats_ready_only_when_empty (items : gmap string App.QueueItem) :
  Window.stats_text items = "Ready" <-> items = ∅.
Proof.
split.
- intros Htext. apply map_empty. intros key.
  destruct (items !! key) as [item|] eqn:E; [exfalso | reflexivity].
  revert Htext. unfold Window.stats_text.
  destruct (Nat.ltb_spec 0 (Window.count_status App.CONVERTING items)) as [_|Hc];
    [discriminate|].
  destruct (Nat.ltb_spec 0 (Window.count_status App.PENDING items)) as [_|Hp];
    [discriminate|].
  assert (Hsize : (0 < size items)%nat).
  { destruct (decide (size items = 0%nat)) as [Hz|]; [|lia].
    apply map_size_empty_iff in Hz. rewrite Hz, lookup_empty in E. discriminate. }
  destruct (Nat.ltb_spec 0 (size items)) as [_|]; [|lia].
  assert (Hlong : forall (n : nat) (tail : string) rest,
            PyStr.join_with " • " ((pretty n ++ tail)%string :: rest) = "Ready" ->
            (String.length tail <= 5)%nat).
  { intros n tail rest Hj. apply (f_equal String.length) in Hj.
    destruct rest; cbn [PyStr.join_with] in Hj; rewrite !length_append in Hj;
      cbn [String.length] in Hj; lia. }
  destruct (App.status item) eqn:Hs.
  + pose proof (count_positive _ _ _ _ E Hs). lia.
  + pose proof (count_positive _ _ _ _ E Hs). lia.
  + pose proof (count_positive _ _ _ _ E Hs) as Hpos.
    destruct (Nat.ltb_spec 0 (Window.count_status App.COMPLETED items)); [|lia].
    cbn [app]. intros Hj. apply Hlong in Hj. cbn in Hj. lia.
  + pose proof (count_positive _ _ _ _ E Hs) as Hpos.
    destruct (Nat.ltb_spec 0 (Window.count_status App.FAILED items)); [|lia].
    destruct (Nat.ltb_spec 0 (Window.count_status App.COMPLETED items));
      cbn [app]; intros Hj; apply Hlong in Hj; cbn in Hj; lia.
- intros ->. unfold Window.stats_text. rewrite !count_empty, map_size_empty. reflexivity.
Qed.

End StatsFacts.

(** ** The range of the progress and a source that cannot be read *)

Section RangeFacts.

Context `{Collaborators}.

Lemma chain_in_range lo l hi :
  (0 <= lo)%Q -> (hi <= 1)%Q -> chain lo l hi -> Forall in_range l.
Proof.
revert lo. induction l as [|x r IH]; intros lo Hlo Hhi Hchain; [constructor|].
destruct Hchain as [Hx Hr]. constructor.
- split; [eapply Qle_trans; eassumption|].
  clear IH. revert x Hx Hr. induction r as [|y r IHr]; intros x Hx Hr.
  + eapply Qle_trans; [exact Hr | exact Hhi].
  + destruct Hr as [Hy Hr]. eapply Qle_trans; [exact Hy|].
    apply (IHr y); [eapply Qle_trans; eassumption | exact Hr].
- apply (IH x); [eapply Qle_trans; eassumption | exact Hhi | exact Hr].
Qed.

Lemma checkpoints_in_range :
  in_range 0 /\ in_range (Float.lit (1 # 10)) /\ in_range (Float.lit (2 # 10))
  /\ in_range (Float.lit (7 # 10)) /\ in_range (Float.lit (85 # 100)) /\ in_range 1.
Proof. unfold in_range. vm_compute. intuition discriminate. Qed.

(** X20.  Every fraction that [convert] reports lies between 0 and 1,
    whether the conversion returns or raises, and whatever the number of
    chapters. *)
Theorem fractions_stay_in_range epub_path output_path :
  Forall in_range
    (fractions (fst (Converter.convert recording epub_path output_path []))).
Proof.
destruct checkpoints_in_range as (R0 & R1 & R2 & R7 & R85 & R100).
unfold Converter.convert, Converter.convert_body, Converter.on_error, Py.try_except.
cbv [Py.bind Py.call Py.raise Py.ret]. rewrite !report_recording.
destruct (read_epub epub_path) as [e|book].
{ rewrite report_recording. cbn [fst fractions List.map app]. repeat (first [assumption | constructor]). }
rewrite ?report_recording.
set (log3 := (([] ++ _) ++ _) ++ _).
assert (H3 : Forall in_range (fractions log3)).
{ subst log3. cbn [fractions List.map fst app]. repeat (first [assumption | constructor]). }
destruct (assemble_log book (Converter._extract_images book) epub_path log3)
  as (ext & Hext & Hchain & _).
assert (Hx : Forall in_range (fractions ext)).
{ apply (chain_in_range (Float.lit (2 # 10)) _ (Float.lit (7 # 10)));
    [apply R2 | apply R7 | exact Hchain]. }
assert (Hone : forall fraction message, in_range fraction ->
          Forall in_range (fractions [(fraction, message)])).
{ intros fraction message Hr. repeat (first [assumption | constructor]). }
destruct (Converter.assemble _ _ _ _ _) as [log4 [e|full_html]]; cbn [fst snd] in *; subst log4.
{ rewrite report_recording. cbn [fst]. rewrite !fractions_app.
  repeat (apply Forall_app; split); auto. }
destruct (HTML full_html) as [e|html_doc].
{ rewrite report_recording. cbn [fst]. rewrite !fractions_app.
  repeat (apply Forall_app; split); auto. }
destruct (CSS Converter._get_base_css) as [e|css].
{ rewrite report_recording. cbn [fst]. rewrite !fractions_app.
  repeat (apply Forall_app; split); auto. }
rewrite ?report_recording.
destruct (write_pdf html_doc output_path [css]) as [e|[]];
  rewrite ?report_recording; cbn [fst]; rewrite !fractions_app;
  repeat (apply Forall_app; split); auto.
Qed.

(** X19.  When the source cannot be read, the worker sends four
    notifications about the job: the start, the opening of the source,
    the error report of [convert] as a [CONVERTING] one with progress 0,
    and [FAILED] with progress 0; the last two carry the text of the
    exception of [read_epub] after [Error: ]. *)
Theorem unreadable_source_fails_at_once item e :
  read_epub (App.epub_path item) = inl e ->
  trace_of item
  = [ starting (App.id item);
      opening (App.id item);
      (App.id item, App.CONVERTING, 0%Q, ("Error: " ++ Py.str e)%string);
      (App.id item, App.FAILED, 0%Q, ("Error: " ++ Py.str e)%string) ].
Proof.
intros Hread.
unfold trace_of, App.process, Converter.convert_epub_to_pdf, Converter.convert,
  Converter.convert_body, Converter.on_error, Py.try_except.
cbv [Py.bind Py.call Py.raise Py.ret Py.effect Converter._report_progress
     Converter.progress_callback]. rewrite Hread. reflexivity.
Qed.

End RangeFacts.

(** ** The properties above at concrete inputs *)


(** A callback that raises decides the outcome: the conversion that
    returns without a callback raises what the callback raised at the
    first report, and nothing is read or written. *)
Lemma raising_callback_decides :
  let collaborators :=
    shelf_collaborators {[ "book.epub" := empty_book ]} unreadable (fun _ => false) in
  snd (Converter.convert_epub_to_pdf "book.epub" "book.pdf" None tt) = inr true
  /\ snd (Converter.convert_epub_to_pdf "book.epub" "book.pdf" (Some refusing) tt)
     = inl (Py.Raised "RuntimeError" "no report wanted").
Proof. split; vm_compute; reflexivity. Qed.

(** X3 at [mixed_spine_book]: the only chapter is the third item of the
    spine and the second of the items found. *)
Lemma reports_of_success_witness :
  let collaborators :=
    shelf_collaborators {[ "book.epub" := mixed_spine_book ]} unreadable (fun _ => false) in
  fst (Converter.convert recording "book.epub" "book.pdf" [])
  = [ (0%Q, "Opening EPUB file...");
      (Float.lit (1 # 10), "Extracting images...");
      (Float.lit (2 # 10), "Processing chapters...");
      (progress_at 1 2, "Processing chapter 2 of 2...");
      (Float.lit (7 # 10), "Generating PDF...");
      (Float.lit (85 # 100), "Writing PDF file...");
      (1%Q, "Complete!") ].
Proof.
intros collaborators.
destruct (Converter.convert recording "book.epub" "book.pdf" []) as [log [e|returned]] eqn:Hrun;
  [vm_compute in Hrun; discriminate|].
destruct (reports_of_success "book.epub" "book.pdf" log returned Hrun) as (book & Hread & Hlog).
injection Hread as <-. cbn [fst]. rewrite Hlog. reflexivity.
Defined.

(** X4 at [mixed_spine_book]. *)
Lemma chapter_block_per_document_witness :
  let collaborators :=
    shelf_collaborators {[ "book.epub" := mixed_spine_book ]} unreadable (fun _ => false) in
  exists document chapters,
    snd (Converter.assemble recording mixed_spine_book ∅ "book.epub" []) = inr document
    /\ document
       = Converter.full_html_of (Some "book")
           (Converter.title_page (Some "book") (Some EmptyString) :: chapters)
    /\ List.length chapters = 1%nat.
Proof.
intros collaborators.
destruct (Converter.assemble recording mixed_spine_book ∅ "book.epub" [])
  as [log [e|document]] eqn:Hrun; [vm_compute in Hrun; discriminate|].
destruct (chapter_block_per_document recording mixed_spine_book ∅ "book.epub" [] log
            document Hrun) as (chapters & Hdoc & Hlen & _).
exists document, chapters. split; [reflexivity|]. split; [exact Hdoc | exact Hlen].
Defined.

(** X5 at the basename of the GIF of [album_book], and at a decoded key
    of [accented_book]. *)
Lemma index_holds_images_only_witness :
  let collaborators := shelf_collaborators ∅ unreadable (fun _ => false) in
  (exists item,
     In item (Ebooklib.get_items album_book)
     /\ Ebooklib.get_type item = Ebooklib.ITEM_IMAGE
     /\ In "anim.gif" (keys_of (Ebooklib.get_name item))
     /\ "data:image/gif;base64,2" = Converter.data_uri_of item)
  /\ (exists item,
        In item (Ebooklib.get_items accented_book)
        /\ Ebooklib.get_type item = Ebooklib.ITEM_IMAGE
        /\ In ("x" ++ ufffd ++ ".png")%string (keys_of (Ebooklib.get_name item))
        /\ "data:image/png;base64,2" = Converter.data_uri_of item).
Proof.
intros collaborators. split.
- apply (index_holds_images_only album_book "anim.gif").
  vm_compute. reflexivity.
- apply (index_holds_images_only accented_book ("x" ++ ufffd ++ ".png")%string).
  vm_compute. reflexivity.
Defined.

(** X7 at a palette image of 3000 by 1500 pixels. *)
Lemma saved_image_is_flat_and_no_larger_witness :
  let collaborators := shelf_collaborators ∅ palette_image (fun _ => false) in
  exists img',
    Converter.optimized_image [] = inr img'
    /\ PIL.mode img' <> "P" /\ PIL.width img' <= 3000 /\ PIL.height img' <= 1500.
Proof.
intros collaborators.
assert (Hopen : Image_open [] = palette_image []) by reflexivity.
destruct (Converter.optimized_image []) as [e|img'] eqn:Himg;
  [vm_compute in Himg; discriminate|].
exists img'. split; [reflexivity|].
destruct (saved_image_is_flat_and_no_larger [] _ img' Hopen Himg)
  as (_ & Hflat & Hwidth & Hheight & _); cbn [PIL.width PIL.height]; [lia | lia |].
cbn [PIL.width PIL.height] in Hwidth, Hheight. auto.
Defined.

(** X9 at a paragraph with an image. *)
Lemma plain_markup_is_kept_witness :
  let collaborators := shelf_collaborators ∅ unreadable (fun _ => false) in
  Converter.process_soup ∅ "text/ch1.xhtml" plain_soup = plain_soup.
Proof.
intros collaborators.
apply (plain_markup_is_kept "text/ch1.xhtml" plain_soup). reflexivity.
Defined.

(** X13 after two files are added and the first job is removed. *)
Lemma handlers_keep_jobs_and_widgets_together_witness :
  let collaborators := shelf_collaborators ∅ unreadable (fun _ => false) in
  consistent
    (App._remove_item "job-0"
       (fst (App._add_files_to_queue ["/shelf/a.epub"; "/shelf/b.epub"] App.init))).
Proof.
intros collaborators.
apply handlers_keep_jobs_and_widgets_together.
apply reach_remove, reach_add, reach_init.
Defined.

(** X14 at three paths, the second of which does not exist. *)
Lemma added_files_are_queued_in_order_witness :
  let collaborators :=
    on_disk on_shelf (shelf_collaborators ∅ unreadable (fun _ => false)) in
  exists items,
    App.task_queue
      (fst (App._add_files_to_queue ["/shelf/a.epub"; "/gone/b.epub"; "/shelf/c.epub"]
              App.init))
    = List.map Some items
    /\ List.map App.epub_path items = ["/shelf/a.epub"; "/shelf/c.epub"]
    /\ List.map App.id items = ["job-0"; "job-1"].
Proof.
intros collaborators.
destruct (App._add_files_to_queue ["/shelf/a.epub"; "/gone/b.epub"; "/shelf/c.epub"] App.init)
  as [app' [e|[]]] eqn:Hadd; [vm_compute in Hadd; discriminate|].
destruct (added_files_are_queued_in_order _ _ _ Hadd) as (items & Hqueue & Hpaths & Hids & _).
exists items. split; [exact Hqueue|].
assert (Hfound : List.map App.epub_path items = ["/shelf/a.epub"; "/shelf/c.epub"])
  by (rewrite Hpaths; reflexivity).
split; [exact Hfound|].
assert (Hlen : List.length items = 2%nat).
{ rewrite <- (List.length_map App.epub_path), Hfound. reflexivity. }
rewrite Hids, Hlen. reflexivity.
Defined.

(** X16 at the job of the only file added. *)
Lemma drained_jobs_are_settled_witness :
  let collaborators :=
    shelf_collaborators {[ "/shelf/a.epub" := empty_book ]} unreadable (fun _ => false) in
  let app := fst (App._add_files_to_queue ["/shelf/a.epub"] App.init) in
  App.status
    <$> App.queue_items
          (App.main_loop (App.worker_events (App.drain (App.task_queue app))) app)
        !! "job-0"
  = Some App.COMPLETED.
Proof.
intros collaborators app.
pose (item := App.new_item "job-0" "/shelf/a.epub" "/shelf/a.pdf").
assert (Hinj : forall m n : nat, uuid4 m = uuid4 n -> m = n).
{ intros m n Heq. cbn in Heq. injection Heq as Heq. exact (inj pretty _ _ Heq). }
assert (Hin : In item (dequeued (App.drain (App.task_queue app))))
  by (left; vm_compute; reflexivity).
assert (Hjob : App.queue_items app !! App.id item = Some item)
  by (vm_compute; reflexivity).
destruct (drained_jobs_are_settled app item item (reach_add _ _ reach_init) Hinj Hin Hjob)
  as [Hsettled _].
change (App.id item) with "job-0" in Hsettled. rewrite Hsettled.
vm_compute. reflexivity.
Defined.

(** X18 at a window closed with one job queued, to which a file is added
    afterwards: a worker that reads the whole queue tells of the first
    job only. *)
Lemma nothing_is_converted_after_close_witness :
  let collaborators :=
    shelf_collaborators {[ "/shelf/a.epub" := empty_book; "/shelf/b.epub" := empty_book ]}
      unreadable (fun _ => false) in
  let app := fst (App._add_files_to_queue ["/shelf/a.epub"] App.init) in
  let closed := fst (App._add_files_to_queue ["/shelf/b.epub"] (Window._on_close app)) in
  jobs_of (App.drain (App.task_queue closed)) = ["job-0"; "job-1"]
  /\ App.worker_running closed = false
  /\ Forall (fun n => App.job_of n = "job-0")
            (App.worker_events (App.drain (App.task_queue closed))).
Proof.
intros collaborators app closed.
split; [vm_compute; reflexivity|]. split; [vm_compute; reflexivity|].
assert (Hmet : met_by closed (App.drain (App.task_queue closed))).
{ unfold met_by.
  change (App.task_queue closed)
    with [ Some (App.new_item "job-0" "/shelf/a.epub" "/shelf/a.pdf"); None;
           Some (App.new_item "job-1" "/shelf/b.epub" "/shelf/b.pdf") ].
  repeat constructor. }
destruct (nothing_is_converted_after_close ["/shelf/b.epub"] app _ Hmet) as [_ Hjobs].
eapply List.Forall_impl; [|exact Hjobs].
intros n [Hjob|[]]. symmetry. exact Hjob.
Defined.

(** X19 at a path that the shelf does not have. *)
Lemma unreadable_source_fails_at_once_witness :
  let collaborators := shelf_collaborators ∅ unreadable (fun _ => false) in
  List.map (fun n => (App.status_of n, App.message_of n))
    (trace_of (App.new_item "job-0" "missing.epub" "missing.pdf"))
  = [ (App.CONVERTING, "Starting conversion...");
      (App.CONVERTING, "Opening EPUB file...");
      (App.CONVERTING, "Error: No such file: missing.epub");
      (App.FAILED, "Error: No such file: missing.epub") ].
Proof.
intros collaborators.
assert (Hread : read_epub "missing.epub"
                = inl (Py.Raised "FileNotFoundError" "No such file: missing.epub"))
  by (vm_compute; reflexivity).
rewrite (unreadable_source_fails_at_once (App.new_item "job-0" "missing.epub" "missing.pdf")
           _ Hread).
reflexivity.
Defined.
